(** * The shout server: status log, poll loop and rotating tokens

    A shallow embedding of [appengine-python-flask/main.py] and
    [appengine-python-flask/rotoken.py].

    - Python [str] is [string]; the dicts of the program ([STATUS_MAP], the
      response, [request.form], [request.args]) are [gmap string _].
    - The datastore is a list of [ShoutStatusLog] entities, each with the
      integer id of its ndb key.  A handler that writes takes the store and
      returns the new one.
    - The poll loop runs while other requests write: the contents of the
      datastore at its i-th query and the reading of the clock at its i-th
      check are given by an environment, and the loop returns the sleeps
      it asked for along with its response.
    - A handler that fails returns [Raise] with the Python exception, of
      which [flask.abort] and werkzeug's bad-request error are the
      [HTTPException]s; [http_status] is the status the client sees.
    - A [string] is the UTF-8 encoding of the Python text, one [ascii] for
      each byte, so that [String.length] is the length ndb measures when it
      validates an indexed string property at its assignment.  The value
      that a query filter compares is taken as it is. *)

From Stdlib Require Import ZArith QArith Qminmax Qpower Lia Lqa Ascii String.
From Stdlib Require Import OrderedTypeEx Sorted.
From stdpp Require Import gmap strings list fin_maps.

Local Open Scope string_scope.
Local Open Scope Z_scope.

(** ** Strings *)

Module Str.

(** [s.split(sep)] for a one-character separator. *)
Fixpoint split (sep : ascii) (s : string) : list string :=
  match s with
  | EmptyString => [EmptyString]
  | String c r =>
      if Ascii.eqb c sep then EmptyString :: split sep r
      else match split sep r with
           | h :: t => String c h :: t
           | [] => [String c EmptyString]
           end
  end.

(** [c in s] for a character. *)
Fixpoint mem (c : ascii) (s : string) : bool :=
  match s with
  | EmptyString => false
  | String d r => Ascii.eqb c d || mem c r
  end.

(** Every character of [s] belongs to the alphabet [chars]. *)
Fixpoint all_in (chars : string) (s : string) : bool :=
  match s with
  | EmptyString => true
  | String c r => mem c chars && all_in chars r
  end.

Definition dash : ascii := "-"%char.

End Str.

(** ** Constants of main.py *)

Definition TIMEOUT_SECONDS : Z := 90.
Definition RANDOM_ID_LEN : nat := 43.

Definition STATUSES : list string :=
  ["a-new"; "b-shouting"; "c-error"; "d-fatal"; "e-success"].

(** [status.split('-')[1]]; [None] is Python's IndexError. *)
Definition split1 (status : string) : option string :=
  Str.split Str.dash status !! 1%nat.

(** [dict((status.split('-')[1], status) for status in STATUSES)]: a later
    pair replaces an earlier one with the same key. *)
Definition STATUS_MAP : gmap string string :=
  foldl (fun m status =>
           match split1 status with
           | Some name => <[name := status]> m
           | None => m
           end) ∅ STATUSES.

Definition ascii_lowercase : string := "abcdefghijklmnopqrstuvwxyz".
Definition ascii_uppercase : string := "ABCDEFGHIJKLMNOPQRSTUVWXYZ".
Definition ascii_letters : string := ascii_lowercase ++ ascii_uppercase.
Definition digits : string := "0123456789".

Definition ID_CHARS : string := ascii_letters ++ digits.

(** ** new_random_id *)

(** [rand.choice(seq)] is [seq[int(rand.random() * len(seq))]]: an index
    below [len(seq)].  The operating system's entropy is the sequence
    [draw] of numbers; the i-th call reduces the i-th number to an index.
    An empty [seq] has no such index (IndexError). *)
Definition choice (seq : string) (r : nat) : option ascii :=
  String.get (r mod String.length seq) seq.

Definition new_random_id (draw : nat -> nat) (id_len : nat) : option string :=
  string_of_list_ascii <$>
    mapM (fun i => choice ID_CHARS (draw i)) (seq 0 id_len).

(** ** combine_ids *)

Definition combine_ids (browser_id shout_id : string) : string :=
  browser_id ++ "-" ++ shout_id.

(** ** The status log *)

(** An entity of kind ShoutStatusLog.  [key_id] is the integer id of the
    entity's ndb key, allocated by the datastore at [put]; [timestamp]
    (auto_now_add) is in microseconds.  An unset string property is [None];
    [status] is set by both writers, and its unset value is the empty
    string, which [status_name] treats in the same way. *)
Record ShoutStatusLog := {
  key_id : Z;
  combined_shout_id : string;
  status : string;
  timestamp : Z;
  error : option string;
  result : option string;
  host : option string
}.

(** [self.status.split('-')[1] if self.status else ''] *)
Definition status_name (self : ShoutStatusLog) : option string :=
  if decide (status self = "") then Some "" else split1 (status self).

(** [entity.put()] on an entity without a key: the datastore allocates the
    id [new_id] and auto_now_add stamps the entity with [now]. *)
Definition put (new_id now : Z) (entity : ShoutStatusLog)
    (store : list ShoutStatusLog) : list ShoutStatusLog :=
  store ++ [ {| key_id := new_id;
                combined_shout_id := combined_shout_id entity;
                status := status entity;
                timestamp := now;
                error := error entity;
                result := result entity;
                host := host entity |} ].

(** [key.delete()] *)
Definition delete_key (k : Z) (store : list ShoutStatusLog) : list ShoutStatusLog :=
  filter (fun e => key_id e <> k) store.

Module Query.

(** [.order(-ShoutStatusLog.status)]: descending on the status string;
    the datastore lists entities of equal status in key order. *)
Definition precedes (a b : ShoutStatusLog) : bool :=
  match String.compare (status a) (status b) with
  | Gt => true
  | Lt => false
  | Eq => key_id a <=? key_id b
  end.

Fixpoint place (e : ShoutStatusLog) (l : list ShoutStatusLog) : list ShoutStatusLog :=
  match l with
  | [] => [e]
  | x :: r => if precedes e x then e :: x :: r else x :: place e r
  end.

Definition order_status_desc (l : list ShoutStatusLog) : list ShoutStatusLog :=
  foldr place [] l.

(** [ShoutStatusLog.query().filter(ShoutStatusLog.combined_shout_id == key)] *)
Definition filter_shout_id (key : string) (store : list ShoutStatusLog) :=
  filter (fun e => combined_shout_id e = key) store.

Definition fetch (n : nat) (l : list ShoutStatusLog) : list ShoutStatusLog :=
  take n l.

End Query.

(** The lookup of the poll loop:
    [query().filter(combined_shout_id == key).order(-status).fetch(1)]. *)
Definition latest_entities (store : list ShoutStatusLog) (key : string)
  : list ShoutStatusLog :=
  Query.fetch 1 (Query.order_status_desc (Query.filter_shout_id key store)).

Definition latest (store : list ShoutStatusLog) (key : string)
  : option ShoutStatusLog :=
  head (latest_entities store key).

(** ** Exceptions *)

Inductive exception :=
| AttributeError
| IndexError
| KeyError
| TransportError
| BadValueError
| HTTPException (code : Z).

(** What the client of a handler sees when the exception is not caught. *)
Definition http_status (e : exception) : Z :=
  match e with
  | HTTPException code => code
  | _ => 500
  end.

Inductive outcome (A : Type) :=
| Done (a : A)
| Raise (e : exception).
Arguments Done {A} a.
Arguments Raise {A} e.

(** ** rotoken.py *)

Module Rotoken.

(** The manager; main.py builds it with the default [max_tokens]. *)
Record t := { max_tokens : Z }.

Definition default : t := {| max_tokens := 3 |}.

(** [del l[m:]] *)
Definition del_from {A} (m : Z) (l : list A) : list A :=
  if 0 <=? m then take (Z.to_nat m) l
  else take (Z.to_nat (Z.max 0 (Z.of_nat (length l) + m))) l.

(** The RotokenRecord under the manager's key: [None] when absent. *)
Definition init (first_token : string) (record : option (list string))
  : option (list string) :=
  match record with
  | None => Some [first_token]
  | Some tokens => Some tokens
  end.

Definition rotate_token (self : t) (token : string)
    (record : option (list string)) : outcome (option (list string)) :=
  match record with
  | None => Raise AttributeError
  | Some tokens => Done (Some (del_from (max_tokens self) (token :: tokens)))
  end.

Definition get_tokens (record : option (list string)) : outcome (list string) :=
  match record with
  | None => Raise AttributeError
  | Some tokens => Done tokens
  end.

End Rotoken.

(** ** HTTP handlers *)

Definition TOPIC : string := "shout-requests".

(** A JSON value of a response: [None], a string, or a link
    [{'target': .., 'method': .., 'token': ..}]. *)
Inductive value :=
| VNone
| VStr (s : string)
| VLink (target method token : string).

(** [entity.result] and [entity.error] as values. *)
Definition of_property (p : option string) : value :=
  match p with
  | Some s => VStr s
  | None => VNone
  end.

(** What flask sends: the dict given to [json.dumps] and the HTTP status
    (200 unless the handler returns another one). *)
Record Response := { body : gmap string value; code : Z }.

Record Request := {
  form : gmap string string;
  args : gmap string string
}.

(** A message handed to Pub/Sub by [ps.publish]. *)
Record Message := {
  topic : string;
  data : string;
  deadline : Z;
  postStatusUrl : string;
  postStatusToken : string
}.

(** What the handlers share: the datastore entities of kind ShoutStatusLog,
    the RotokenRecord of the purse, and the messages published so far. *)
Record World := {
  datastore : list ShoutStatusLog;
  purse_record : option (list string);
  outbox : list Message
}.

(** What a handler reads from the machine it runs on, and what the
    services it calls do: whether Pub/Sub takes a message, and whether the
    datastore completes a put that the handler sent and did not wait for. *)
Record Sys := {
  hostname : string;
  fqdn : string;
  utctimestamp : Z;
  utcnow : Z;
  new_id : Z;
  publish_ok : bool;
  unawaited_put_lands : bool
}.

(** The datastore and the clock as the poll loop finds them: the entities
    at its i-th query, [time.time()] before the loop and at its i-th check. *)
Record Env := {
  datastore_at : nat -> list ShoutStatusLog;
  start_timestamp : Q;
  clock_at : nat -> Q
}.

(** Handlers thread the world and may raise. *)
Definition M (A : Type) : Type := World -> outcome A * World.

#[global] Instance M_ret : MRet M := fun A a w => (Done a, w).
#[global] Instance M_bind : MBind M := fun A B k c w =>
  match c w with
  | (Done a, w') => k a w'
  | (Raise e, w') => (Raise e, w')
  end.

Definition raise {A} (e : exception) : M A := fun w => (Raise e, w).

(** [d[k]] on a werkzeug MultiDict: a missing key is a BadRequestKeyError. *)
Definition item (d : gmap string string) (k : string) : M string :=
  match d !! k with
  | Some v => mret v
  | None => raise (HTTPException 400)
  end.

(** [d[k]] on a Python dict. *)
Definition dict_item (d : gmap string string) (k : string) : M string :=
  match d !! k with
  | Some v => mret v
  | None => raise KeyError
  end.

Definition get_purse_tokens : M (list string) :=
  fun w => (Rotoken.get_tokens (purse_record w), w).

(** ndb's limit on an indexed string property, in bytes. *)
Definition MAX_STRING_LENGTH : nat := 1500.

(** [entity.prop = v] for an indexed [ndb.StringProperty], which
    [combined_shout_id], [error] and [host] are ([status] takes its values
    from [STATUS_MAP], and [result] is declared with [indexed=False]): ndb
    validates the value at the assignment and raises BadValueError when it
    is longer than [MAX_STRING_LENGTH] bytes. *)
Definition validate_indexed (v : string) : M string :=
  if (String.length v <=? MAX_STRING_LENGTH)%nat then mret v
  else raise BadValueError.

(** The same for a value that may be [None], which ndb does not validate. *)
Definition validate_indexed_opt (v : option string) : M (option string) :=
  match v with
  | Some s => s' ← validate_indexed s; mret (Some s')
  | None => mret None
  end.

Definition put_entity (sys : Sys) (entity : ShoutStatusLog) : M unit :=
  fun w => (Done tt,
            {| datastore := put (new_id sys) (utcnow sys) entity (datastore w);
               purse_record := purse_record w;
               outbox := outbox w |}).

Definition publish (sys : Sys) (m : Message) : M unit :=
  fun w => if publish_ok sys
           then (Done tt, {| datastore := datastore w;
                             purse_record := purse_record w;
                             outbox := outbox w ++ [m] |})
           else (Raise TransportError, w).

(** [async_put = entity.put_async()], the statements [body] that run while
    the put is pending, and [async_put.get_result()].  [put_async] only
    queues the put, and nothing is sent before ndb's event loop runs; the
    first statement to run it is the read of the purse, which [body] starts
    with.  When [body] returns, [get_result] waits for the put and the
    entity is written.  When [body] raises, the handler ends with the put
    sent but not waited for, and whether the entity is written all the same
    is for the datastore to say: [unawaited_put_lands]. *)
Definition put_async {A} (sys : Sys) (entity : ShoutStatusLog) (body : M A) : M A :=
  fun w =>
    match body w with
    | (Done a, w') => (Done a, (put_entity sys entity w').2)
    | (Raise e, w') =>
        (Raise e, if unawaited_put_lands sys
                  then (put_entity sys entity w').2 else w')
    end.

Section Handlers.

(** werkzeug.urls *)
Variable url_encode : gmap string string -> string.
Variable url_decode : string -> gmap string string.

(** The end of [poll_shout_status], after the loop breaks. *)
Definition status_of (response : gmap string value) : string :=
  match response !! "status" with
  | Some (VStr s) => s
  | _ => ""
  end.

Definition with_next_link (browser_id shout_id : string)
    (response : gmap string value) : Response :=
  {| body :=
       <["nextLink" :=
           VLink "shout_status" "POST"
             (url_encode (<["browserId" := browser_id]>
                          (<["shoutId" := shout_id]>
                           (<["status" := status_of response]> ∅))))]> response;
     code := 202 |}.

(** The [while True] loop.  [i] counts the iterations made so far and
    [fuel] bounds those still to be made; the result is [None] when the
    bound is reached, and otherwise what the handler returns with the
    sleeps it made, in order. *)
Fixpoint poll_loop (env : Env) (browser_id shout_id last_status : string)
    (fuel i : nat) (sleep_seconds : Q) (response : gmap string value)
  : option (outcome Response * list Q) :=
  match fuel with
  | O => None
  | S fuel' =>
      let retry (response : gmap string value) :=
        if Qle_bool 45 (clock_at env i - start_timestamp env)
        then Some (Done (with_next_link browser_id shout_id response), [])
        else
          match poll_loop env browser_id shout_id last_status fuel' (S i)
                  (Qmin 5 (sleep_seconds * 2)) response with
          | Some (r, sleeps) => Some (r, sleep_seconds :: sleeps)
          | None => None
          end in
      match latest_entities (datastore_at env i)
              (combine_ids browser_id shout_id) with
      | entity :: _ =>
          match status_name entity with
          | None => Some (Raise IndexError, [])
          | Some status =>
              let response := <["status" := VStr status]> response in
              if String.eqb status "success" then
                Some (Done {| body := <["result" := of_property (result entity)]> response;
                              code := 200 |}, [])
              else if String.eqb status "fatal" then
                Some (Done {| body := <["error" := of_property (error entity)]> response;
                              code := 200 |}, [])
              else if negb (String.eqb last_status status) then
                Some (Done (with_next_link browser_id shout_id
                              (<["error" := of_property (error entity)]> response)), [])
              else retry response
          end
      | [] => retry response
      end
  end.

Definition poll_shout_status (env : Env) (fuel : nat)
    (browser_id shout_id last_status : string)
  : option (outcome Response * list Q) :=
  poll_loop env browser_id shout_id last_status fuel 0 (1 # 10)
    (<["shoutId" := VStr shout_id]> (<["status" := VStr last_status]> ∅)).

(** [shout] up to [async_put.get_result()]: the ids of the job.  The
    entity is queued by [put_async] before the text of the request is
    looked up, so a request without a text ends with nothing sent to the
    datastore. *)
Definition shout_submit (sys : Sys) (request : Request) : M (string * string) :=
  tok ← item (form request) "token";
  let token := url_decode tok in
  browser_id ← item token "browserId";
  shout_id ← item (form request) "shoutId";
  key ← validate_indexed (combine_ids browser_id shout_id);
  new ← dict_item STATUS_MAP "new";
  machine ← validate_indexed (hostname sys);
  let entity := {| key_id := 0;
                   combined_shout_id := key;
                   status := new;
                   timestamp := 0;
                   error := None;
                   result := None;
                   host := Some machine |} in
  let query := url_encode (<["browserId" := browser_id]>
                           (<["shoutId" := shout_id]> ∅)) in
  text ← item (form request) "text";
  put_async sys entity
    (tokens ← get_purse_tokens;
     match tokens with
     | [] => raise IndexError
     | first :: _ =>
         publish sys {| topic := TOPIC;
                        data := text;
                        deadline := utctimestamp sys + TIMEOUT_SECONDS;
                        postStatusUrl := "https://" ++ fqdn sys
                                         ++ "/post_shout_status?" ++ query;
                        postStatusToken := first |}
     end);;
  mret (browser_id, shout_id).

Definition shout (env : Env) (fuel : nat) (sys : Sys) (request : Request)
    (w : World) : option (outcome Response * list Q * World) :=
  match shout_submit sys request w with
  | (Done (browser_id, shout_id), w') =>
      match poll_shout_status env fuel browser_id shout_id "new" with
      | Some (r, sleeps) => Some (r, sleeps, w')
      | None => None
      end
  | (Raise e, w') => Some (Raise e, [], w')
  end.

Definition shout_status (env : Env) (fuel : nat) (request : Request)
  : option (outcome Response * list Q) :=
  match form request !! "token" with
  | None => Some (Raise (HTTPException 400), [])
  | Some tok =>
      let token := url_decode tok in
      match token !! "browserId", token !! "shoutId", token !! "status" with
      | Some browser_id, Some shout_id, Some last_status =>
          poll_shout_status env fuel browser_id shout_id last_status
      | _, _, _ => Some (Raise (HTTPException 400), [])
      end
  end.

End Handlers.

(** [post_shout_status], called by the workers. *)
Definition post_shout_status (sys : Sys) (request : Request) : M Response :=
  tokens ← get_purse_tokens;
  match form request !! "token" with
  | Some token =>
      if decide (token ∈ tokens) then mret tt else raise (HTTPException 403)
  | None => raise (HTTPException 403)
  end;;
  browser_id ← item (args request) "browserId";
  shout_id ← item (args request) "shoutId";
  key ← validate_indexed (combine_ids browser_id shout_id);
  name ← item (form request) "status";
  st ← dict_item STATUS_MAP name;
  let is_error := bool_decide (name = "error" \/ name = "fatal") in
  err ← (if is_error then validate_indexed_opt (form request !! "result")
         else mret None);
  reporter ← validate_indexed_opt (form request !! "host");
  put_entity sys {| key_id := 0;
                    combined_shout_id := key;
                    status := st;
                    timestamp := 0;
                    error := err;
                    result := if is_error then None else form request !! "result";
                    host := reporter |};;
  mret {| body := ∅; code := 200 |}.

(** [purge]: a keys-only query for the entities older than a day, then
    [key.delete()] on each key. *)
Definition one_day : Z := 86400 * 1000000.

Definition purge (sys : Sys) : M unit :=
  fun w =>
    let too_old := utcnow sys - one_day in
    let keys := key_id <$> filter (fun e => timestamp e < too_old) (datastore w) in
    (Done tt, {| datastore := foldl (fun store k => delete_key k store) (datastore w) keys;
                 purse_record := purse_record w;
                 outbox := outbox w |}).

(** [rotate_token] of main.py, with the id minted by [new_random_id]. *)
Definition rotate_token (token : string) : M unit :=
  fun w =>
    match Rotoken.rotate_token Rotoken.default token (purse_record w) with
    | Done record => (Done tt, {| datastore := datastore w;
                                  purse_record := record;
                                  outbox := outbox w |})
    | Raise e => (Raise e, w)
    end.

(** [purse.init(new_random_id())], the part of [init] that touches the
    world modelled here. *)
Definition init_purse (first_token : string) : M unit :=
  fun w => (Done tt, {| datastore := datastore w;
                        purse_record := Rotoken.init first_token (purse_record w);
                        outbox := outbox w |}).


(** ** The specification's view of the status *)

(** The ordered enumeration of the specification, [NEW < SHOUTING < ERROR <
    FATAL < SUCCESS], with its priority; [encode] is the status string the
    program stores for it, found in [STATUS_MAP] under the status name. *)
Module Status.

Inductive t := NEW | SHOUTING | ERROR | FATAL | SUCCESS.

Definition all : list t := [NEW; SHOUTING; ERROR; FATAL; SUCCESS].

Definition priority (s : t) : nat :=
  match s with
  | NEW => 0
  | SHOUTING => 1
  | ERROR => 2
  | FATAL => 3
  | SUCCESS => 4
  end.

Definition name (s : t) : string :=
  match s with
  | NEW => "new"
  | SHOUTING => "shouting"
  | ERROR => "error"
  | FATAL => "fatal"
  | SUCCESS => "success"
  end.

Definition encode (s : t) : string :=
  match STATUS_MAP !! name s with
  | Some code => code
  | None => ""
  end.

Definition of_code (code : string) : option t :=
  List.find (fun s => String.eqb (encode s) code) all.

(** The priority of a stored status string; 0 for a string that encodes
    no status. *)
Definition code_priority (code : string) : nat :=
  match of_code code with
  | Some s => priority s
  | None => 0
  end.

End Status.

(** The specification's [latest]: the event with the highest
    (status priority, timestamp) pair among the events of the key. *)
Module SpecLatest.

Definition pair_ltb (a b : ShoutStatusLog) : bool :=
  let pa := Status.code_priority (status a) in
  let pb := Status.code_priority (status b) in
  (pa <? pb)%nat || ((pa =? pb)%nat && (timestamp a <? timestamp b)).

Definition latest (store : list ShoutStatusLog) (key : string)
  : option ShoutStatusLog :=
  foldl (fun best x =>
           match best with
           | None => Some x
           | Some b => if pair_ltb b x then Some x else Some b
           end) None (Query.filter_shout_id key store).

End SpecLatest.

(** An entity with another timestamp, and a log whose entities are stamped
    anew by [stamp]. *)
Definition with_timestamp (ts : Z) (e : ShoutStatusLog) : ShoutStatusLog :=
  {| key_id := key_id e;
     combined_shout_id := combined_shout_id e;
     status := status e;
     timestamp := ts;
     error := error e;
     result := result e;
     host := host e |}.

Definition restamp (stamp : ShoutStatusLog -> Z) (store : list ShoutStatusLog)
  : list ShoutStatusLog :=
  (fun e => with_timestamp (stamp e) e) <$> store.

(** The specification's backoff: the sleep of iteration [i], in seconds. *)
Definition backoff (i : nat) : Q := Qmin 5 ((1 # 10) * 2 ^ Z.of_nat i).

(** ** Sample data *)

Module Sample.

Definition event (id : Z) (key code : string) (ts : Z)
    (err res : option string) : ShoutStatusLog :=
  {| key_id := id; combined_shout_id := key; status := code; timestamp := ts;
     error := err; result := res; host := Some "worker-1" |}.

(** Three reports of an error for job B-7, the newest of them with the
    middle key. *)
Definition error_a : ShoutStatusLog := event 11 "B-7" "c-error" 10 (Some "first") None.
Definition error_b : ShoutStatusLog := event 12 "B-7" "c-error" 30 (Some "third") None.
Definition error_c : ShoutStatusLog := event 13 "B-7" "c-error" 20 (Some "second") None.
Definition new_b7 : ShoutStatusLog := event 14 "B-7" "a-new" 5 None None.
Definition other_job : ShoutStatusLog := event 15 "B-8" "e-success" 40 None (Some "HELLO").

Definition errors_store : list ShoutStatusLog :=
  [new_b7; error_a; error_b; error_c; other_job].

End Sample.

(** [rotate_token] called once for each token of [news], in order; the
    first exception ends the run. *)
Definition rotations (self : Rotoken.t) (news : list string)
    (record : option (list string)) : outcome (option (list string)) :=
  foldl (fun acc token =>
           match acc with
           | Done r => Rotoken.rotate_token self token r
           | Raise e => Raise e
           end) (Done record) news.

(** The token presented by a callback is one of [tokens]:
    [request.form.get('token') in tokens]. *)
Definition presented_in (request : Request) (tokens : list string) : Prop :=
  exists token, form request !! "token" = Some token /\ token ∈ tokens.

(** The event a worker describes with the job's ids, a status of the
    enumeration, its result or error message and its host, as the
    specification has it: the message is the error of an ERROR or FATAL
    event and the result of any other; the datastore gives it the id [id]
    and the timestamp [now]. *)
Definition described_event (id now : Z) (browser_id shout_id : string)
    (st : Status.t) (message reporter : option string) : ShoutStatusLog :=
  {| key_id := id;
     combined_shout_id := combine_ids browser_id shout_id;
     status := Status.encode st;
     timestamp := now;
     error := match st with Status.ERROR | Status.FATAL => message | _ => None end;
     result := match st with Status.ERROR | Status.FATAL => None | _ => message end;
     host := reporter |}.

(** The indexed strings of an entity are within ndb's limit. *)
Definition indexable (e : ShoutStatusLog) : Prop :=
  (String.length (combined_shout_id e) <= MAX_STRING_LENGTH)%nat /\
  (forall s, error e = Some s -> (String.length s <= MAX_STRING_LENGTH)%nat) /\
  (forall s, host e = Some s -> (String.length s <= MAX_STRING_LENGTH)%nat).

(** A callback request that describes the event: both ids in the query
    string, the status name in the form. *)
Definition describes (request : Request) (browser_id shout_id : string)
    (st : Status.t) : Prop :=
  args request !! "browserId" = Some browser_id /\
  args request !! "shoutId" = Some shout_id /\
  form request !! "status" = Some (Status.name st).

Module SampleCallback.

Definition world : World :=
  {| datastore := [Sample.new_b7];
     purse_record := Some ["t3"; "t2"; "t1"];
     outbox := [] |}.

Definition sys : Sys :=
  {| hostname := "frontend-1"; fqdn := "frontend-1.example.com";
     utctimestamp := 1000; utcnow := 1000000000; new_id := 21;
     publish_ok := true; unawaited_put_lands := false |}.

(** A worker that holds the oldest valid token reports SHOUTING, and sends
    a text in the [result] field. *)
Definition shouting : Request :=
  {| form := <["token" := "t1"]> (<["status" := "shouting"]>
             (<["result" := "HELLO"]> (<["host" := "worker-1"]> ∅)));
     args := <["browserId" := "B"]> (<["shoutId" := "7"]> ∅) |}.


End SampleCallback.

(** ** The worlds the handlers can reach *)

Definition initial_world : World :=
  {| datastore := []; purse_record := None; outbox := [] |}.

(** One request served: the world before and after it, whatever the
    handler answered.  The poll loop writes nothing, so [shout] changes the
    world as [shout_submit] does. *)
Inductive step : World -> World -> Prop :=
| step_shout url_encode url_decode sys request w r w' :
    shout_submit url_encode url_decode sys request w = (r, w') -> step w w'
| step_post_shout_status sys request w r w' :
    post_shout_status sys request w = (r, w') -> step w w'
| step_purge sys w r w' :
    purge sys w = (r, w') -> step w w'
| step_rotate_token token w r w' :
    rotate_token token w = (r, w') -> step w w'
| step_init token w r w' :
    init_purse token w = (r, w') -> step w w'.

Definition reachable (w : World) : Prop := rtc step initial_world w.

(** What the specification says of an event's payload: an error only on
    ERROR or FATAL, a result only on SUCCESS. *)
Definition payload_as_specified (e : ShoutStatusLog) : Prop :=
  (is_Some (error e) -> status e = "c-error" \/ status e = "d-fatal") /\
  (is_Some (result e) -> status e = "e-success").

(** What the handlers keep: an error only on ERROR or FATAL, a result only
    on the other statuses. *)
Definition payload_as_written (e : ShoutStatusLog) : Prop :=
  status e ∈ STATUSES /\
  (is_Some (error e) -> status e = "c-error" \/ status e = "d-fatal") /\
  (is_Some (result e) ->
   status e = "a-new" \/ status e = "b-shouting" \/ status e = "e-success").

Module SampleRun.

Definition sys : Sys := SampleCallback.sys.

(** A worker reports SHOUTING with a text in the [result] field, using the
    token the purse was initialised with. *)
Definition shouting : Request :=
  {| form := <["token" := "t1"]> (<["status" := "shouting"]>
             (<["result" := "HELLO"]> (<["host" := "worker-1"]> ∅)));
     args := <["browserId" := "B"]> (<["shoutId" := "7"]> ∅) |}.

Definition written : ShoutStatusLog :=
  {| key_id := 21; combined_shout_id := "B-7"; status := "b-shouting";
     timestamp := 1000000000; error := None; result := Some "HELLO";
     host := Some "worker-1" |}.

(** The world after [init] and that report. *)
Definition after_report : World :=
  {| datastore := [written]; purse_record := Some ["t1"]; outbox := [] |}.

End SampleRun.

(** ** What the poll loop sees *)

(** At its i-th query the loop finds neither a terminal event nor a change:
    the job has no event, or its highest status is the last known one and
    is neither success nor fatal. *)
Definition quiet_at (env : Env) (key last_status : string) (i : nat) : Prop :=
  match latest (datastore_at env i) key with
  | None => True
  | Some e =>
      status_name e = Some last_status /\
      last_status <> "success" /\ last_status <> "fatal"
  end.

(** The seconds slept before the i-th check when every sleep is as
    specified. *)
Fixpoint slept (i : nat) : Q :=
  match i with
  | O => 0
  | S j => slept j + backoff j
  end.

(** The clock runs with the sleeps: it does not run backwards between the
    start and the first check, and a sleep lasts at least as long as asked. *)
Definition clock_respects_sleeps (env : Env) : Prop :=
  (start_timestamp env <= clock_at env 0)%Q /\
  forall i, (clock_at env i + backoff i <= clock_at env (S i))%Q.

Module SamplePoll.

(** A stand-in for werkzeug's url_encode: [k=v] joined by [&]. *)
Definition url_encode (d : gmap string string) : string :=
  String.concat "&" ((fun kv => kv.1 ++ "=" ++ kv.2) <$> map_to_list d).

(** The datastore holds [Sample.errors_store] throughout; a check of the
    clock comes every four seconds. *)
Definition env : Env :=
  {| datastore_at := fun _ => Sample.errors_store;
     start_timestamp := 0;
     clock_at := fun i => inject_Z (4 * Z.of_nat i) |}.

(** No event at all. *)
Definition empty_env : Env :=
  {| datastore_at := fun _ => [];
     start_timestamp := 0;
     clock_at := fun i => inject_Z (4 * Z.of_nat i) |}.

(** The answer to a poll for job B-7 with last known status "new". *)
Definition changed : Response :=
  {| body :=
       <["shoutId" := VStr "7"]>
       (<["status" := VStr "error"]>
       (<["error" := VStr "first"]>
       (<["nextLink" :=
            VLink "shout_status" "POST"
              (url_encode (<["browserId" := "B"]>
                           (<["shoutId" := "7"]>
                           (<["status" := "error"]> ∅))))]> ∅)));
     code := 202 |}.

(** The answer to a poll with last known status "success" for a job
    without events, after the 45 seconds. *)
Definition stale_success : Response :=
  {| body :=
       <["shoutId" := VStr "7"]>
       (<["status" := VStr "success"]>
       (<["nextLink" :=
            VLink "shout_status" "POST"
              (url_encode (<["browserId" := "B"]>
                           (<["shoutId" := "7"]>
                           (<["status" := "success"]> ∅))))]> ∅));
     code := 202 |}.

End SamplePoll.

(** * The rest of main.py, and its callers *)

(** ** connect *)

(** [connect]: mints a browser id and hands it to the client inside the
    token of the link to [shout]. *)
Definition connect (url_encode : gmap string string -> string)
    (draw : nat -> nat) : outcome Response :=
  match new_random_id draw RANDOM_ID_LEN with
  | Some id =>
      Done {| body := <["shoutLink" :=
                          VLink "shout" "POST"
                            (url_encode (<["browserId" := id]> ∅))]> ∅;
              code := 200 |}
  | None => Raise IndexError
  end.

Module SampleCodec.

(** A stand-in for werkzeug's url_decode, the inverse of
    [SamplePoll.url_encode] on keys and values without [&] and [=]. *)
Definition url_decode (s : string) : gmap string string :=
  list_to_map
    (omap (fun kv => match Str.split "="%char kv with
                     | [k; v] => Some (k, v)
                     | _ => None
                     end)
          (Str.split "&"%char s)).

(** The draws of a browser: the i-th is [7 * i]. *)
Definition draw (i : nat) : nat := (7 * i)%nat.

(** A shout request of the browser that [connect] served with [draw]. *)
Definition shout_request (tok : string) : Request :=
  {| form := <["token" := tok]> (<["shoutId" := "0"]> (<["text" := "hello"]> ∅));
     args := ∅ |}.

End SampleCodec.

(** ** Rotations in a row *)

(** The handler [rotate_token] served once for each token of [news]. *)
Fixpoint rotate_tokens (news : list string) : M unit :=
  match news with
  | [] => mret tt
  | token :: later => rotate_token token ;; rotate_tokens later
  end.

Module SampleWindow.

(** The world after the submission of [SampleCodec.shout_request] in
    [SampleCallback.world], and the callback of its worker. *)
Definition callback : Request :=
  {| form := <["token" := "t3"]> (<["status" := "success"]>
             (<["result" := "HELLO"]> ∅));
     args := <["browserId" := "B"]> (<["shoutId" := "0"]> ∅) |}.

Definition submit : Request :=
  {| form := <["token" := "browserId=B"]>
             (<["shoutId" := "0"]> (<["text" := "hello"]> ∅));
     args := ∅ |}.

End SampleWindow.

Module SampleNoText.

(** A shout request of browser B that has a shout id and no text. *)
Definition request : Request :=
  {| form := <["token" := "browserId=B"]> (<["shoutId" := "0"]> ∅);
     args := ∅ |}.

End SampleNoText.

(** ** Sleeps of the poll loop *)

(** The first [n] sleeps of a loop that starts with [sleep_seconds], and the
    sleep that comes after them. *)
Fixpoint sleeps_from (sleep_seconds : Q) (n : nat) : list Q :=
  match n with
  | O => []
  | S n' => sleep_seconds :: sleeps_from (Qmin 5 (sleep_seconds * 2)) n'
  end.

Fixpoint sleep_after (sleep_seconds : Q) (n : nat) : Q :=
  match n with
  | O => sleep_seconds
  | S n' => sleep_after (Qmin 5 (sleep_seconds * 2)) n'
  end.


Module SampleChange.

(** The worker's SHOUTING event reaches the datastore between the second
    and the third query of the poll; a check of the clock comes every four
    seconds. *)
Definition shouting : ShoutStatusLog :=
  Sample.event 31 "B-9" "b-shouting" 50 None None.

Definition new_b9 : ShoutStatusLog := Sample.event 30 "B-9" "a-new" 40 None None.

Definition env : Env :=
  {| datastore_at := fun i => if (i <? 2)%nat then [new_b9] else [new_b9; shouting];
     start_timestamp := 0;
     clock_at := fun i => inject_Z (4 * Z.of_nat i) |}.

End SampleChange.

Module SampleClock.

(** The datastore holds [Sample.errors_store] throughout; the start and
    the first check of the clock coincide, and each later check comes six
    seconds after the one before, which no sleep exceeds. *)
Definition env : Env :=
  {| datastore_at := fun _ => Sample.errors_store;
     start_timestamp := 0;
     clock_at := fun i => inject_Z (6 * Z.of_nat i) |}.

(** The client sends back the token of [SamplePoll.changed]. *)
Definition resume : Request :=
  {| form := <["token" :=
                 SamplePoll.url_encode (<["browserId" := "B"]>
                                        (<["shoutId" := "7"]>
                                        (<["status" := "error"]> ∅)))]> ∅;
     args := ∅ |}.

End SampleClock.

(** ** The client of api_test.py *)

Module Client.

(** How [BrowserState.shout] ends: it returns the result, or raises
    [Failure(status, errors)], or an exception of the HTTP layer or of the
    client itself escapes. *)
Inductive ending :=
| Returned (result : value)
| Failure (status : value) (errors : list value)
| HTTPError (code : Z)
| AssertionError
| TypeError
| MissingKey.

(** Python's truth value of a JSON value. *)
Definition truthy (v : value) : bool :=
  match v with
  | VNone => false
  | VStr s => negb (String.eqb s "")
  | VLink _ _ _ => true
  end.

(** [status == 'success'] *)
Definition is_success (status : value) : bool :=
  match status with
  | VStr s => String.eqb s "success"
  | _ => false
  end.

(** The server as the client reaches it: the answer to the k-th request, a
    POST of the form [keyval] to [target]; [None] when the server's loop
    bound is reached. *)
Definition server := nat -> string -> Request -> option (outcome Response).

(** [urlopen]: urllib2 raises HTTPError on a failed request, and
    [handle_response] asserts a 2xx status and decodes the JSON body. *)
Definition urlopen (srv : server) (k : nat) (target : string)
    (keyval : gmap string string)
  : option (ending + gmap string value) :=
  match srv k target {| form := keyval; args := ∅ |} with
  | None => None
  | Some (Raise e) => Some (inl (HTTPError (http_status e)))
  | Some (Done r) =>
      if (200 <=? code r) && (code r <? 300)
      then Some (inr (body r))
      else Some (inl AssertionError)
  end.

(** The [while True] loop of [shout], from the reply to the k-th request
    on; [n] bounds the requests still to be sent. *)
Fixpoint follow (srv : server) (shout_id : string) (n k : nat)
    (reply : gmap string value) (result : value) (errors : list value)
  : option ending :=
  let result := default result (reply !! "result") in
  let errors :=
    match reply !! "error" with
    | Some v => if truthy v then (errors ++ [v])%list else errors
    | None => errors
    end in
  match reply !! "nextLink" with
  | Some (VLink target method token) =>
      match n with
      | O => None
      | S n' =>
          match urlopen srv (S k) target
                  (<["token" := token]> (<["shoutId" := shout_id]> ∅)) with
          | None => None
          | Some (inl raised) => Some raised
          | Some (inr reply') => follow srv shout_id n' (S k) reply' result errors
          end
      end
  | Some _ => Some TypeError
  | None =>
      match reply !! "status" with
      | Some status =>
          if is_success status then Some (Returned result)
          else Some (Failure status errors)
      | None => Some MissingKey
      end
  end.

(** [BrowserState.shout]: the first request goes to the shout link that
    [connect] gave, with the text and the shout id. *)
Definition shout (srv : server) (n : nat) (shout_link_target shout_link_token : string)
    (text shout_id : string) : option ending :=
  match urlopen srv 0 shout_link_target
          (<["token" := shout_link_token]>
           (<["text" := text]> (<["shoutId" := shout_id]> ∅))) with
  | None => None
  | Some (inl raised) => Some raised
  | Some (inr reply) => follow srv shout_id n 0 reply VNone []
  end.

End Client.

Module SampleClient.

(** The datastore during the three requests of a client: the job B-9 is
    NEW during the first, SHOUTING appears during the second, and SUCCESS
    is there at the third. *)
Definition success : ShoutStatusLog :=
  Sample.event 32 "B-9" "e-success" 60 None (Some "HELLO").

Definition envs (k : nat) : Env :=
  match k with
  | O => {| datastore_at := fun _ => [SampleChange.new_b9];
            start_timestamp := 0;
            clock_at := fun i => inject_Z (6 * Z.of_nat i) |}
  | S O => {| datastore_at :=
                fun i => if (i <? 2)%nat then [SampleChange.new_b9]
                         else [SampleChange.new_b9; SampleChange.shouting];
              start_timestamp := 100;
              clock_at := fun i => inject_Z (100 + 6 * Z.of_nat i) |}
  | _ => {| datastore_at :=
              fun _ => [SampleChange.new_b9; SampleChange.shouting; success];
            start_timestamp := 200;
            clock_at := fun i => inject_Z (200 + 6 * Z.of_nat i) |}
  end.

(** A codec for the tokens of job B-9 alone: the token is the status. *)
Definition url_encode (d : gmap string string) : string :=
  default "" (d !! "status").

Definition url_decode (tok : string) : gmap string string :=
  <["browserId" := "B"]> (<["shoutId" := "9"]> (<["status" := tok]> ∅)).

(** The first request of the client. *)
Definition first : Request :=
  {| form := <["token" := "new"]> (<["text" := "hello"]> (<["shoutId" := "9"]> ∅));
     args := ∅ |}.

(** The server: the first request is served by [shout], every later one
    by [shout_status]. *)
Definition srv : Client.server :=
  fun k target request =>
    match k with
    | O => (fun x => x.1.1) <$>
             shout url_encode url_decode (envs 0) 20 SampleCallback.sys request
               SampleCallback.world
    | _ => if String.eqb target "shout_status"
           then fst <$> shout_status url_encode url_decode (envs k) 20 request
           else Some (Raise (HTTPException 404))
    end.

End SampleClient.

(** ** pubsub.py: the paths of topics and subscriptions *)

Module PubSub.

(** ['projects/%s/topics/%s' % (self.project_name, topic)] *)
Definition _make_topic_path (project_name topic : string) : string :=
  "projects/" ++ project_name ++ "/topics/" ++ topic.

(** ['projects/%s/subscriptions/%s' % (self.project_name, subscription)] *)
Definition _make_subscription_path (project_name subscription : string) : string :=
  "projects/" ++ project_name ++ "/subscriptions/" ++ subscription.

End PubSub.

(** ** init *)

Definition SUBSCRIPTION : string := "shout-request-workers".

(** What Pub/Sub answers to the two calls of [init]: the exception that
    [create_topic] and [subscribe] raise, if any. *)
Record PubSubAnswers := {
  create_topic_raises : option exception;
  subscribe_raises : option exception
}.

(** [init]: the three steps run one after the other, each inside its own
    [try]; what a step raises is recorded and the next step runs.  The
    answer is the list of the failures, with 500, or "ok", with 200. *)
Definition init (answers : PubSubAnswers) (draw : nat -> nat) (w : World)
  : (list exception * Z) * World :=
  let errors := from_option (fun e => [e]) [] (create_topic_raises answers) in
  let errors :=
    (errors ++ from_option (fun e => [e]) [] (subscribe_raises answers))%list in
  let '(errors, w) :=
    match new_random_id draw RANDOM_ID_LEN with
    | Some id => (errors, (init_purse id w).2)
    | None => ((errors ++ [IndexError])%list, w)
    end in
  match errors with
  | [] => (([], 200), w)
  | _ => ((errors, 500), w)
  end.

Module SampleReport.

(** The world in which job B-9 is NEW and SHOUTING, and the callback by
    which its worker reports the result. *)
Definition world : World :=
  {| datastore := [SampleChange.new_b9; SampleChange.shouting; Sample.other_job];
     purse_record := Some ["t3"; "t2"; "t1"];
     outbox := [] |}.

Definition callback : Request :=
  {| form := <["token" := "t2"]> (<["status" := "success"]>
             (<["result" := "HELLO"]> (<["host" := "worker-1"]> ∅)));
     args := <["browserId" := "B"]> (<["shoutId" := "9"]> ∅) |}.

(** A poll that starts once the callback is served. *)
Definition env : Env :=
  {| datastore_at :=
       fun _ => datastore (post_shout_status SampleCallback.sys callback world).2;
     start_timestamp := 0;
     clock_at := fun i => inject_Z (6 * Z.of_nat i) |}.

(** The same datastore without the events of the other jobs. *)
Definition env_alone : Env :=
  {| datastore_at :=
       fun i => Query.filter_shout_id "B-9" (datastore_at env i);
     start_timestamp := 0;
     clock_at := fun i => inject_Z (6 * Z.of_nat i) |}.

End SampleReport.
(** * Properties *)

(** ** The order on strings *)

Module StrOrder.

Lemma compare_refl (s : string) : String.compare s s = Eq.
Proof. now apply String_as_OT.cmp_eq. Qed.

Lemma compare_Lt_trans (a b c : string) :
  String.compare a b = Lt -> String.compare b c = Lt -> String.compare a c = Lt.
Proof.
  intros Hab Hbc.
  apply String_as_OT.cmp_lt.
  apply String_as_OT.lt_trans with b; now apply String_as_OT.cmp_lt.
Qed.

Lemma compare_Gt_Lt (a b : string) :
  String.compare a b = Gt <-> String.compare b a = Lt.
Proof.
  rewrite (String.compare_antisym a b).
  destruct (String.compare b a); simpl; split; congruence.
Qed.

Lemma compare_Gt_trans (a b c : string) :
  String.compare a b = Gt -> String.compare b c = Gt -> String.compare a c = Gt.
Proof.
  rewrite !compare_Gt_Lt. intros Hab Hbc. now apply compare_Lt_trans with b.
Qed.

Lemma leb_refl (s : string) : String.leb s s = true.
Proof. unfold String.leb. now rewrite compare_refl. Qed.

Lemma leb_trans (a b c : string) :
  String.leb a b = true -> String.leb b c = true -> String.leb a c = true.
Proof.
  unfold String.leb.
  destruct (String.compare a b) eqn:Hab; try discriminate;
    destruct (String.compare b c) eqn:Hbc; try discriminate; intros _ _.
  - apply String.compare_eq_iff in Hab. subst. now rewrite Hbc.
  - apply String.compare_eq_iff in Hab. subst. now rewrite Hbc.
  - apply String.compare_eq_iff in Hbc. subst. now rewrite Hab.
  - now rewrite (compare_Lt_trans a b c).
Qed.

Lemma ltb_leb (a b : string) : String.ltb a b = true -> String.leb a b = true.
Proof. unfold String.ltb, String.leb. now destruct (String.compare a b). Qed.

Lemma leb_ltb_false (a b : string) : String.leb a b = true <-> String.ltb b a = false.
Proof.
  unfold String.ltb, String.leb. rewrite (String.compare_antisym b a).
  destruct (String.compare a b); simpl; split; congruence.
Qed.

End StrOrder.

(** ** The query of the poll loop *)

Module QueryFacts.
Import Query.

Lemma precedes_refl (a : ShoutStatusLog) : precedes a a = true.
Proof. unfold precedes. rewrite StrOrder.compare_refl. lia. Qed.

Lemma precedes_total (a b : ShoutStatusLog) :
  precedes a b = false -> precedes b a = true.
Proof.
  unfold precedes. rewrite (String.compare_antisym (status b) (status a)).
  destruct (String.compare (status a) (status b)); simpl; try congruence. lia.
Qed.

Lemma precedes_trans (a b c : ShoutStatusLog) :
  precedes a b = true -> precedes b c = true -> precedes a c = true.
Proof.
  unfold precedes.
  destruct (String.compare (status a) (status b)) eqn:Hab; try discriminate;
    destruct (String.compare (status b) (status c)) eqn:Hbc; try discriminate.
  - apply String.compare_eq_iff in Hab, Hbc. rewrite Hab, Hbc, StrOrder.compare_refl. lia.
  - apply String.compare_eq_iff in Hab. rewrite Hab, Hbc. trivial.
  - apply String.compare_eq_iff in Hbc. rewrite <- Hbc, Hab. trivial.
  - rewrite (StrOrder.compare_Gt_trans _ _ _ Hab Hbc). trivial.
Qed.

Lemma precedes_leb (m x : ShoutStatusLog) :
  precedes m x = true -> String.leb (status x) (status m) = true.
Proof.
  unfold precedes, String.leb.
  rewrite (String.compare_antisym (status x) (status m)).
  destruct (String.compare (status m) (status x)); simpl; congruence.
Qed.

Lemma place_Permutation (e : ShoutStatusLog) (l : list ShoutStatusLog) :
  place e l ≡ₚ e :: l.
Proof.
  induction l as [|x r IH]; simpl; [done|].
  destruct (precedes e x); [done|].
  rewrite IH. apply Permutation_swap.
Qed.

Lemma order_Permutation (l : list ShoutStatusLog) : order_status_desc l ≡ₚ l.
Proof.
  induction l as [|x r IH]; simpl; [done|].
  rewrite place_Permutation. now rewrite IH.
Qed.

(** The ordered list is sorted: each entity precedes all that follow. *)
Lemma place_sorted (e : ShoutStatusLog) (l : list ShoutStatusLog) :
  StronglySorted (fun a b => precedes a b = true) l ->
  StronglySorted (fun a b => precedes a b = true) (place e l).
Proof.
  induction 1 as [|x r Hr IH Hx]; simpl.
  - repeat constructor.
  - destruct (precedes e x) eqn:Hex.
    + constructor; [now constructor|]. constructor; [done|].
      eapply Forall_impl; [exact Hx|]. intros y Hy. now apply precedes_trans with x.
    + constructor; [done|]. rewrite place_Permutation. constructor; [|done].
      now apply precedes_total.
Qed.

Lemma order_sorted (l : list ShoutStatusLog) :
  StronglySorted (fun a b => precedes a b = true) (order_status_desc l).
Proof.
  induction l as [|x r IH]; simpl; [constructor|]. now apply place_sorted.
Qed.

(** The first entity of the ordered list, computed without sorting. *)
Lemma head_place (e : ShoutStatusLog) (l : list ShoutStatusLog) :
  head (place e l) =
  match head l with
  | Some x => if precedes e x then Some e else Some x
  | None => Some e
  end.
Proof. destruct l as [|x r]; simpl; [done|]. now destruct (precedes e x). Qed.

Lemma head_order_first (l : list ShoutStatusLog) (m : ShoutStatusLog) :
  head (order_status_desc l) = Some m ->
  m ∈ l /\ forall x, x ∈ l -> precedes m x = true.
Proof.
  revert m. induction l as [|e r IH]; intros m; simpl; [discriminate|].
  rewrite head_place.
  destruct (head (order_status_desc r)) as [y|] eqn:Hy.
  - destruct (IH y eq_refl) as [Hin Hmax].
    destruct (precedes e y) eqn:Hey; intros [= <-].
    + split; [left|]. intros x [->|Hx]%elem_of_cons; [apply precedes_refl|].
      eapply precedes_trans; [exact Hey|]. now apply Hmax.
    + split; [now right|]. intros x [->|Hx]%elem_of_cons; [|now apply Hmax].
      now apply precedes_total.
  - intros [= <-]. split; [left|].
    assert (r = []) as ->.
    { destruct r as [|z r']; [done|]. exfalso.
      pose proof (order_Permutation (z :: r')) as HP.
      destruct (order_status_desc (z :: r')); [|discriminate].
      now apply Permutation_nil_cons in HP. }
    intros x ->%list_elem_of_singleton. apply precedes_refl.
Qed.

Lemma head_order_None (l : list ShoutStatusLog) :
  head (order_status_desc l) = None -> l = [].
Proof.
  intros H. pose proof (order_Permutation l) as HP.
  destruct (order_status_desc l); [|discriminate].
  now apply Permutation_nil in HP.
Qed.

End QueryFacts.

(** ** The lookup [latest] *)

Lemma latest_head (store : list ShoutStatusLog) (key : string) :
  latest store key
  = head (Query.order_status_desc (Query.filter_shout_id key store)).
Proof.
  unfold latest, latest_entities, Query.fetch.
  now destruct (Query.order_status_desc _).
Qed.

Lemma latest_entities_latest (store : list ShoutStatusLog) (key : string) :
  latest_entities store key
  = match latest store key with Some e => [e] | None => [] end.
Proof.
  unfold latest, latest_entities, Query.fetch.
  destruct (Query.order_status_desc _) as [|e r]; [done|]. simpl. now rewrite take_0.
Qed.

Lemma latest_Some (store : list ShoutStatusLog) (key : string) (m : ShoutStatusLog) :
  latest store key = Some m ->
  m ∈ store /\ combined_shout_id m = key /\
  forall x, x ∈ store -> combined_shout_id x = key -> Query.precedes m x = true.
Proof.
  rewrite latest_head. intros [Hin Hmax]%QueryFacts.head_order_first.
  apply list_elem_of_filter in Hin as [Hk Hin]. repeat split; [done..|].
  intros x Hx Hkx. apply Hmax. now apply list_elem_of_filter.
Qed.

Lemma latest_None (store : list ShoutStatusLog) (key : string) :
  latest store key = None ->
  forall x, x ∈ store -> combined_shout_id x <> key.
Proof.
  rewrite latest_head. intros Hnil%QueryFacts.head_order_None x Hx Hk.
  assert (x ∈ Query.filter_shout_id key store) as Hin by now apply list_elem_of_filter.
  rewrite Hnil in Hin. now apply not_elem_of_nil in Hin.
Qed.

Lemma latest_highest (store : list ShoutStatusLog) (key : string) (m x : ShoutStatusLog) :
  latest store key = Some m -> x ∈ store -> combined_shout_id x = key ->
  String.leb (status x) (status m) = true.
Proof.
  intros Hm Hx Hk. apply QueryFacts.precedes_leb.
  now apply (latest_Some _ _ _ Hm).
Qed.

Lemma latest_is_Some (store : list ShoutStatusLog) (key : string) (x : ShoutStatusLog) :
  x ∈ store -> combined_shout_id x = key -> is_Some (latest store key).
Proof.
  intros Hx Hk. destruct (latest store key) eqn:E; [eauto|].
  exfalso. now apply (latest_None _ _ E x).
Qed.

Lemma latest_status_Permutation (store store' : list ShoutStatusLog) (key : string) :
  store' ≡ₚ store ->
  status <$> latest store' key = status <$> latest store key.
Proof.
  intros HP.
  destruct (latest store key) as [m|] eqn:Hm, (latest store' key) as [m'|] eqn:Hm';
    simpl; [ | | |done].
  - f_equal.
    destruct (latest_Some _ _ _ Hm) as (Hin & Hk & _).
    destruct (latest_Some _ _ _ Hm') as (Hin' & Hk' & _).
    apply String.leb_antisym.
    + apply (latest_highest store key m m'); [done| |done]. now rewrite <- HP.
    + apply (latest_highest store' key m' m); [done| |done]. now rewrite HP.
  - exfalso. destruct (latest_Some _ _ _ Hm) as (Hin & Hk & _).
    apply (latest_None _ _ Hm' m); [|done]. now rewrite HP.
  - exfalso. destruct (latest_Some _ _ _ Hm') as (Hin & Hk & _).
    apply (latest_None _ _ Hm m'); [|done]. now rewrite <- HP.
Qed.

(** The query reads the key, the status and the id of an entity, and
    nothing else: a map that keeps the three commutes with it. *)
Lemma place_fmap (f : ShoutStatusLog -> ShoutStatusLog) (e : ShoutStatusLog)
    (l : list ShoutStatusLog) :
  (forall a b, Query.precedes (f a) (f b) = Query.precedes a b) ->
  Query.place (f e) (f <$> l) = f <$> Query.place e l.
Proof.
  intros Hf. induction l as [|x r IH]; [done|].
  cbn [fmap list_fmap Query.place]. rewrite Hf.
  destruct (Query.precedes e x); [done|].
  cbn [fmap list_fmap]. f_equal. exact IH.
Qed.

Lemma order_fmap (f : ShoutStatusLog -> ShoutStatusLog) (l : list ShoutStatusLog) :
  (forall a b, Query.precedes (f a) (f b) = Query.precedes a b) ->
  Query.order_status_desc (f <$> l) = f <$> Query.order_status_desc l.
Proof.
  intros Hf. induction l as [|x r IH]; [done|].
  cbn [fmap list_fmap Query.order_status_desc foldr].
  change (foldr Query.place [] (f <$> r)) with (Query.order_status_desc (f <$> r)).
  rewrite IH. now apply place_fmap.
Qed.

Lemma filter_shout_id_fmap (f : ShoutStatusLog -> ShoutStatusLog) (key : string)
    (l : list ShoutStatusLog) :
  (forall a, combined_shout_id (f a) = combined_shout_id a) ->
  Query.filter_shout_id key (f <$> l) = f <$> Query.filter_shout_id key l.
Proof.
  intros Hf. unfold Query.filter_shout_id.
  induction l as [|x r IH]; [done|].
  cbn [fmap list_fmap]. rewrite !filter_cons, Hf.
  destruct (decide (combined_shout_id x = key)); cbn [fmap list_fmap];
    now rewrite IH.
Qed.

Lemma latest_restamp (stamp : ShoutStatusLog -> Z) (store : list ShoutStatusLog)
    (key : string) :
  latest (restamp stamp store) key
  = (fun e => with_timestamp (stamp e) e) <$> latest store key.
Proof.
  rewrite !latest_head. unfold restamp.
  rewrite filter_shout_id_fmap by done.
  rewrite order_fmap by done.
  now destruct (Query.order_status_desc _).
Qed.

(** Among the entities of the highest status the one with the least id is
    returned. *)
Lemma latest_least_key (store : list ShoutStatusLog) (key : string)
    (m x : ShoutStatusLog) :
  latest store key = Some m -> x ∈ store -> combined_shout_id x = key ->
  status x = status m -> key_id m <= key_id x.
Proof.
  intros Hm Hx Hk Hs.
  destruct (latest_Some _ _ _ Hm) as (_ & _ & Hfirst).
  specialize (Hfirst x Hx Hk). unfold Query.precedes in Hfirst.
  rewrite Hs, StrOrder.compare_refl in Hfirst. lia.
Qed.

(** ** The status encoding *)

Module StatusFacts.
Import Status.

Lemma STATUS_MAP_lookup (s : t) : STATUS_MAP !! name s = Some (encode s).
Proof. now destruct s. Qed.

Lemma encode_all : encode <$> all = STATUSES.
Proof. reflexivity. Qed.

Lemma of_code_encode (s : t) : of_code (encode s) = Some s.
Proof. now destruct s. Qed.

Lemma elem_of_STATUSES (code : string) :
  code ∈ STATUSES -> exists s, code = encode s.
Proof.
  rewrite <- encode_all. intros (s & -> & _)%list_elem_of_fmap. eauto.
Qed.

Lemma priority_ltb (a b : t) :
  (priority a < priority b)%nat <-> String.ltb (encode a) (encode b) = true.
Proof. destruct a, b; vm_compute; split; intros H; try lia; congruence. Qed.

Lemma priority_leb (a b : t) :
  (priority a <= priority b)%nat <-> String.leb (encode a) (encode b) = true.
Proof. destruct a, b; vm_compute; split; intros H; try lia; congruence. Qed.

Lemma code_priority_encode (s : t) : code_priority (encode s) = priority s.
Proof. unfold code_priority. now rewrite of_code_encode. Qed.

End StatusFacts.

Lemma latest_highest_priority (store : list ShoutStatusLog) (key : string)
    (e x : ShoutStatusLog) :
  latest store key = Some e -> x ∈ store -> combined_shout_id x = key ->
  status x ∈ STATUSES -> status e ∈ STATUSES ->
  (Status.code_priority (status x) <= Status.code_priority (status e))%nat.
Proof.
  intros He Hx Hk [a Ha]%StatusFacts.elem_of_STATUSES [b Hb]%StatusFacts.elem_of_STATUSES.
  pose proof (latest_highest _ _ _ _ He Hx Hk) as Hle.
  rewrite Ha, Hb in *. rewrite !StatusFacts.code_priority_encode.
  now apply StatusFacts.priority_leb.
Qed.

(** ** C8: the status strings are ordered as the priorities *)

(** C8.  The strings of [STATUSES] are the encodings of the enumeration
    NEW < SHOUTING < ERROR < FATAL < SUCCESS in priority order; one status
    has a lower priority than another exactly when its string is smaller in
    the lexical order; and so the entity that the descending query finds
    has the highest priority among the entities of the job. *)
Theorem status_encoding_order_isomorphic :
  Status.encode <$> Status.all = STATUSES /\
  (forall a b : Status.t,
      (Status.priority a < Status.priority b)%nat
      <-> String.ltb (Status.encode a) (Status.encode b) = true) /\
  (forall (store : list ShoutStatusLog) (key : string) (e : ShoutStatusLog),
      (forall x, x ∈ store -> status x ∈ STATUSES) ->
      latest store key = Some e ->
      forall x, x ∈ store -> combined_shout_id x = key ->
        (Status.code_priority (status x) <= Status.code_priority (status e))%nat).
Proof.
  split; [reflexivity|]. split; [apply StatusFacts.priority_ltb|].
  intros store key e Hvalid He x Hx Hk.
  apply (latest_highest_priority store key); auto.
  apply Hvalid. now apply (latest_Some _ _ _ He).
Qed.

Lemma errors_store_valid :
  forall x, x ∈ Sample.errors_store -> status x ∈ STATUSES.
Proof.
  intros x Hx. unfold Sample.errors_store in Hx.
  repeat (apply elem_of_cons in Hx as [->|Hx]; [vm_compute; set_solver|]).
  now apply not_elem_of_nil in Hx.
Qed.

Lemma status_encoding_order_isomorphic_witness :
  latest Sample.errors_store "B-7" = Some Sample.error_a /\
  (Status.code_priority (status Sample.new_b7)
   <= Status.code_priority (status Sample.error_a))%nat.
Proof.
  split; [reflexivity|].
  apply (proj2 (proj2 status_encoding_order_isomorphic)
           Sample.errors_store "B-7" Sample.error_a errors_store_valid eq_refl).
  - unfold Sample.errors_store. set_solver.
  - reflexivity.
Defined.

(** ** C1: what the lookup of the poll loop returns *)

(** C1, as the claim states it, fails: the query orders on the status
    alone, so among three error reports of job B-7 it returns the one with
    the smallest key, whose timestamp is 10, and not the one with the
    highest (priority, timestamp) pair, whose timestamp is 30. *)
Lemma latest_not_max_timestamp :
  latest Sample.errors_store "B-7" = Some Sample.error_a /\
  SpecLatest.latest Sample.errors_store "B-7" = Some Sample.error_b /\
  status Sample.error_a = status Sample.error_b /\
  timestamp Sample.error_a < timestamp Sample.error_b /\
  latest (reverse Sample.errors_store) "B-7" = Some Sample.error_a /\
  SpecLatest.latest (reverse Sample.errors_store) "B-7" = Some Sample.error_b.
Proof. repeat split; reflexivity. Qed.

(** C1, amended.  For every key and every store, the lookup returns an
    event of the key whose status is the highest among the events of the
    key (in the order of the status strings, which for the strings of
    [STATUSES] is the order of the priorities), or nothing when the key has
    no event; and the status it returns is the same in whatever order the
    events were appended.  Among the events of that highest status the key
    order decides: the one returned has the least id.  The timestamp takes
    no part: when the events are stamped anew in any way, the lookup returns
    the same event, under its new stamp. *)
Theorem latest_highest_status_any_order (store : list ShoutStatusLog) (key : string) :
  match latest store key with
  | Some e =>
      e ∈ store /\ combined_shout_id e = key /\
      forall x, x ∈ store -> combined_shout_id x = key ->
        String.leb (status x) (status e) = true /\
        (status x ∈ STATUSES -> status e ∈ STATUSES ->
         (Status.code_priority (status x) <= Status.code_priority (status e))%nat) /\
        (status x = status e -> key_id e <= key_id x)
  | None => forall x, x ∈ store -> combined_shout_id x <> key
  end /\
  (forall store', store' ≡ₚ store ->
     status <$> latest store' key = status <$> latest store key) /\
  (forall stamp : ShoutStatusLog -> Z,
     latest (restamp stamp store) key
     = (fun e => with_timestamp (stamp e) e) <$> latest store key).
Proof.
  split; [|split; [intros store'; apply latest_status_Permutation
                  |intros stamp; apply latest_restamp]].
  destruct (latest store key) as [e|] eqn:He; [|now apply latest_None].
  destruct (latest_Some _ _ _ He) as (Hin & Hk & _).
  split; [done|]. split; [done|]. intros x Hx Hkx. split; [|split].
  - now apply (latest_highest store key).
  - now apply (latest_highest_priority store key).
  - now apply (latest_least_key store key).
Qed.

Lemma latest_highest_status_any_order_witness :
  latest Sample.errors_store "B-7" = Some Sample.error_a /\
  String.leb (status Sample.error_c) (status Sample.error_a) = true /\
  status <$> latest (reverse Sample.errors_store) "B-7" = Some "c-error" /\
  latest (restamp (fun e => 100 - timestamp e) Sample.errors_store) "B-7"
  = Some (with_timestamp 90 Sample.error_a).
Proof.
  pose proof (latest_highest_status_any_order Sample.errors_store "B-7")
    as (H1 & H2 & H3).
  split; [reflexivity|]. split; [reflexivity|]. split.
  - rewrite (H2 (reverse Sample.errors_store)); [reflexivity|].
    apply reverse_Permutation.
  - rewrite H3. reflexivity.
Defined.

(** ** C9: new_random_id *)

Module StrFacts.

Lemma get_mem (s : string) (i : nat) (c : ascii) :
  String.get i s = Some c -> Str.mem c s = true.
Proof.
  revert i. induction s as [|d r IH]; intros i; simpl; [discriminate|].
  destruct i as [|i].
  - intros [= ->]. now rewrite Ascii.eqb_refl.
  - intros H. rewrite (IH i H). apply orb_true_r.
Qed.

Lemma get_is_Some (s : string) (i : nat) :
  (i < String.length s)%nat -> is_Some (String.get i s).
Proof.
  revert i. induction s as [|d r IH]; intros i; simpl; [lia|].
  destruct i as [|i]; [eauto|]. intros H. apply IH. lia.
Qed.

Lemma length_of_list (l : list ascii) :
  String.length (string_of_list_ascii l) = length l.
Proof. induction l as [|c l IH]; simpl; congruence. Qed.

Lemma all_in_of_list (chars : string) (l : list ascii) :
  Forall (fun c => Str.mem c chars = true) l ->
  Str.all_in chars (string_of_list_ascii l) = true.
Proof.
  induction 1 as [|c l Hc _ IH]; simpl; [done|]. now rewrite Hc, IH.
Qed.

Lemma mem_append (c : ascii) (a b : string) :
  Str.mem c (a ++ b) = Str.mem c a || Str.mem c b.
Proof.
  induction a as [|d r IH]; simpl; [done|]. rewrite IH. now rewrite orb_assoc.
Qed.

(** A string over an alphabet has none of the characters outside it. *)
Lemma all_in_not_mem (chars s : string) (c : ascii) :
  Str.mem c chars = false -> Str.all_in chars s = true -> Str.mem c s = false.
Proof.
  intros Hc. induction s as [|d r IH]; simpl; [done|].
  intros [Hd Hr]%andb_true_iff. rewrite (IH Hr), orb_false_r.
  destruct (Ascii.eqb_spec c d) as [->|]; [congruence|done].
Qed.

End StrFacts.

Lemma choice_in (chars : string) (r : nat) :
  chars <> "" ->
  exists c, choice chars r = Some c /\ Str.mem c chars = true.
Proof.
  intros Hne. unfold choice.
  destruct (StrFacts.get_is_Some chars (r mod String.length chars)) as [c Hc].
  - apply Nat.mod_upper_bound. destruct chars; [done|]. simpl. lia.
  - exists c. split; [done|]. now apply StrFacts.get_mem with (r mod String.length chars)%nat.
Qed.

Lemma new_random_id_any_length (draw : nat -> nat) (id_len : nat) :
  exists id, new_random_id draw id_len = Some id /\
             String.length id = id_len /\
             Str.all_in ID_CHARS id = true.
Proof.
  unfold new_random_id.
  assert (forall start, exists l,
             mapM (fun i => choice ID_CHARS (draw i)) (seq start id_len) = Some l /\
             length l = id_len /\
             Forall (fun c => Str.mem c ID_CHARS = true) l) as H.
  { induction id_len as [|n IH]; intros start; simpl.
    - exists []. repeat split. constructor.
    - destruct (choice_in ID_CHARS (draw start)) as (c & Hc & Hin); [done|].
      destruct (IH (S start)) as (l & Hl & Hlen & Hall).
      exists (c :: l). rewrite Hc. simpl. rewrite Hl. simpl.
      repeat split; [simpl; congruence|]. now constructor. }
  destruct (H 0%nat) as (l & Hl & Hlen & Hall).
  exists (string_of_list_ascii l). rewrite Hl. simpl. split; [done|]. split.
  - now rewrite StrFacts.length_of_list.
  - now apply StrFacts.all_in_of_list.
Qed.

(** C9.  With the default length, [new_random_id] returns a string of
    exactly 43 characters, whatever the random source draws, each of them in
    [ID_CHARS]; [ID_CHARS] is the 62 distinct ASCII letters and digits; and
    62^43 > 2^256, which is the assertion of the source. *)
Theorem new_random_id_default (draw : nat -> nat) :
  (exists id, new_random_id draw RANDOM_ID_LEN = Some id /\
              String.length id = 43%nat /\
              Str.all_in ID_CHARS id = true) /\
  ID_CHARS = "abcdefghijklmnopqrstuvwxyzABCDEFGHIJKLMNOPQRSTUVWXYZ0123456789" /\
  String.length ID_CHARS = 62%nat /\
  NoDup (list_ascii_of_string ID_CHARS) /\
  Z.of_nat (String.length ID_CHARS) ^ Z.of_nat RANDOM_ID_LEN > 2 ^ 256 /\
  62 ^ 43 > 2 ^ 256.
Proof.
  split; [apply new_random_id_any_length|].
  split; [reflexivity|]. split; [reflexivity|]. split.
  - apply (bool_decide_unpack (NoDup (list_ascii_of_string ID_CHARS))).
    vm_compute. exact I.
  - split; vm_compute; reflexivity.
Qed.

(** ** C10: combine_ids *)

Lemma append_String (c : ascii) (r s : string) :
  (String c r ++ s)%string = String c (r ++ s)%string.
Proof. reflexivity. Qed.

Lemma append_Empty (s : string) : (EmptyString ++ s)%string = s.
Proof. reflexivity. Qed.

Lemma mem_String (c d : ascii) (r : string) :
  Str.mem c (String d r) = Ascii.eqb c d || Str.mem c r.
Proof. reflexivity. Qed.

Lemma combine_ids_inj_no_dash (b1 b2 s1 s2 : string) :
  Str.mem Str.dash b1 = false -> Str.mem Str.dash b2 = false ->
  combine_ids b1 s1 = combine_ids b2 s2 -> b1 = b2 /\ s1 = s2.
Proof.
  unfold combine_ids. revert b2.
  induction b1 as [|c r IH]; intros [|d t];
    rewrite ?append_String, ?append_Empty, ?mem_String.
  - intros _ _ [= ->]. done.
  - intros _ Hd [= <- _]. unfold Str.dash in Hd. now rewrite Ascii.eqb_refl in Hd.
  - intros Hc _ [= -> _]. unfold Str.dash in Hc. now rewrite Ascii.eqb_refl in Hc.
  - intros [_ Hr]%orb_false_iff [_ Ht]%orb_false_iff [= -> Heq].
    destruct (IH t Hr Ht Heq) as [-> ->]. done.
Qed.

Lemma ID_CHARS_no_dash (b : string) :
  Str.all_in ID_CHARS b = true -> Str.mem Str.dash b = false.
Proof. now apply StrFacts.all_in_not_mem. Qed.

(** C10.  On browser ids over the id alphabet and shout ids without a
    dash, [combine_ids] is injective; hence the query for one job returns no
    entity stored under the combined key of a different job. *)
Theorem combine_ids_injective (b1 b2 s1 s2 : string) :
  Str.all_in ID_CHARS b1 = true -> Str.all_in ID_CHARS b2 = true ->
  Str.mem Str.dash s1 = false -> Str.mem Str.dash s2 = false ->
  (combine_ids b1 s1 = combine_ids b2 s2 -> b1 = b2 /\ s1 = s2) /\
  ((b1, s1) <> (b2, s2) ->
   forall (store : list ShoutStatusLog) (e : ShoutStatusLog),
     e ∈ Query.filter_shout_id (combine_ids b1 s1) store ->
     combined_shout_id e <> combine_ids b2 s2).
Proof.
  intros Hb1%ID_CHARS_no_dash Hb2%ID_CHARS_no_dash _ _.
  assert (combine_ids b1 s1 = combine_ids b2 s2 -> b1 = b2 /\ s1 = s2) as Hinj
    by now apply combine_ids_inj_no_dash.
  split; [done|].
  intros Hne store e [He _]%list_elem_of_filter Heq.
  apply Hne. rewrite He in Heq. destruct (Hinj Heq) as [-> ->]. done.
Qed.

Lemma combine_ids_injective_witness :
  Str.all_in ID_CHARS "Ab3" = true /\ Str.all_in ID_CHARS "Ab" = true /\
  Str.mem Str.dash "7" = false /\ Str.mem Str.dash "37" = false /\
  (combine_ids "Ab3" "7" = combine_ids "Ab" "37" -> "Ab3" = "Ab" /\ "7" = "37").
Proof.
  repeat (split; [reflexivity|]).
  apply (combine_ids_injective "Ab3" "Ab" "7" "37"); reflexivity.
Defined.

(** ** C6: rotation of the tokens *)

Module RotokenFacts.
Import Rotoken.

Lemma del_from_take {A} (m : Z) (l : list A) :
  0 <= m -> del_from m l = take (Z.to_nat m) l.
Proof. intros H. unfold del_from. destruct (Z.leb_spec 0 m); [done|lia]. Qed.

Lemma take_app_take {A} (n : nat) (l k : list A) :
  take n (l ++ take n k) = take n (l ++ k).
Proof. rewrite !take_app, take_take. do 2 f_equal. lia. Qed.

Lemma rotate_token_Some (self : t) (token : string) (tokens : list string) :
  0 <= max_tokens self ->
  rotate_token self token (Some tokens)
  = Done (Some (take (Z.to_nat (max_tokens self)) (token :: tokens))).
Proof. intros H. unfold rotate_token. now rewrite del_from_take. Qed.

(** After one rotation or more, the record holds the newest tokens, the
    last rotated first. *)
Lemma rotations_Some (self : t) (news : list string) (tokens : list string) :
  0 <= max_tokens self -> news <> [] ->
  rotations self news (Some tokens)
  = Done (Some (take (Z.to_nat (max_tokens self)) (reverse news ++ tokens))).
Proof.
  intros Hmax. unfold rotations. revert tokens.
  induction news as [|t news IH]; intros tokens Hne; [done|]. cbn [foldl].
  rewrite rotate_token_Some by done.
  destruct news as [|t' news'].
  - reflexivity.
  - rewrite IH by done. rewrite take_app_take.
    rewrite (reverse_cons _ t), <- app_assoc. reflexivity.
Qed.

End RotokenFacts.

(** C6.  A rotation puts the new token at the front of the list and keeps
    the first [max_tokens] entries.  Hence, from a record initialised with
    one token and a manager keeping two tokens or more (three by default),
    one rotation leaves the first token in the list, behind the new one;
    and [max_tokens] rotations with tokens other than the first leave
    exactly the rotated tokens, newest first, and the first token is gone. *)
Theorem rotate_token_prepends_and_truncates (self : Rotoken.t) :
  0 <= Rotoken.max_tokens self ->
  (forall token tokens,
      Rotoken.rotate_token self token (Some tokens)
      = Done (Some (take (Z.to_nat (Rotoken.max_tokens self)) (token :: tokens)))) /\
  (forall first token,
      2 <= Rotoken.max_tokens self ->
      exists record,
        Rotoken.rotate_token self token (Rotoken.init first None) = Done record /\
        Rotoken.get_tokens record = Done [token; first] /\
        first ∈ [token; first]) /\
  (forall first news,
      1 <= Rotoken.max_tokens self ->
      Z.of_nat (length news) = Rotoken.max_tokens self ->
      first ∉ news ->
      exists record tokens,
        rotations self news (Rotoken.init first None) = Done record /\
        Rotoken.get_tokens record = Done tokens /\
        tokens = reverse news /\
        first ∉ tokens).
Proof.
  intros Hmax. split; [|split].
  - intros token tokens. now apply RotokenFacts.rotate_token_Some.
  - intros first token H2. eexists. cbn [Rotoken.init].
    rewrite RotokenFacts.rotate_token_Some by done. split; [reflexivity|].
    cbn [Rotoken.get_tokens]. split; [|set_solver]. f_equal.
    replace (Z.to_nat (Rotoken.max_tokens self)) with (S (S (Z.to_nat (Rotoken.max_tokens self - 2)))) by lia.
    cbn [take]. now rewrite take_nil.
  - intros first news H1 Hlen Hfresh. cbn [Rotoken.init].
    assert (news <> []) as Hne by (intros ->; simpl in Hlen; lia).
    rewrite RotokenFacts.rotations_Some by done.
    eexists _, _. split; [reflexivity|]. cbn [Rotoken.get_tokens].
    split; [reflexivity|].
    rewrite take_app_length' by (rewrite length_reverse; lia).
    split; [done|]. now rewrite elem_of_reverse.
Qed.

Lemma rotate_token_prepends_and_truncates_witness :
  0 <= Rotoken.max_tokens Rotoken.default /\
  Rotoken.rotate_token Rotoken.default "t4" (Some ["t3"; "t2"; "t1"])
  = Done (Some ["t4"; "t3"; "t2"]) /\
  (exists record tokens,
      rotations Rotoken.default ["t1"; "t2"; "t3"] (Rotoken.init "t0" None)
      = Done record /\
      Rotoken.get_tokens record = Done tokens /\
      tokens = ["t3"; "t2"; "t1"] /\
      "t0" ∉ tokens).
Proof.
  assert (0 <= Rotoken.max_tokens Rotoken.default) as H by (simpl; lia).
  destruct (rotate_token_prepends_and_truncates Rotoken.default H) as (H1 & _ & H3).
  split; [exact H|]. split; [apply H1|].
  apply (H3 "t0" ["t1"; "t2"; "t3"]); [simpl; lia|reflexivity|].
  intros Hin. apply (bool_decide_pack _) in Hin. vm_compute in Hin. exact Hin.
Defined.

(** ** C5: authorization of the worker callback *)

Ltac run_handler :=
  cbv beta iota delta
    [post_shout_status shout_submit mbind M_bind mret M_ret get_purse_tokens
     item dict_item raise put_entity put_async publish Rotoken.get_tokens].

(** ndb's validation of an indexed string, by cases on its length. *)
Lemma validate_indexed_fits (v : string) (w : World) :
  (String.length v <= MAX_STRING_LENGTH)%nat ->
  validate_indexed v w = (Done v, w).
Proof.
  intros H. unfold validate_indexed.
  now rewrite (proj2 (Nat.leb_le _ _) H).
Qed.

Lemma validate_indexed_over (v : string) (w : World) :
  (MAX_STRING_LENGTH < String.length v)%nat ->
  validate_indexed v w = (Raise BadValueError, w).
Proof.
  intros H. unfold validate_indexed.
  now rewrite (proj2 (Nat.leb_gt _ _) H).
Qed.

Lemma validate_indexed_cases (v : string) (w : World) :
  validate_indexed v w = (Done v, w) \/
  validate_indexed v w = (Raise BadValueError, w).
Proof.
  destruct (Nat.le_gt_cases (String.length v) MAX_STRING_LENGTH).
  - left. now apply validate_indexed_fits.
  - right. now apply validate_indexed_over.
Qed.

Lemma validate_indexed_opt_fits (v : option string) (w : World) :
  (forall s, v = Some s -> (String.length s <= MAX_STRING_LENGTH)%nat) ->
  validate_indexed_opt v w = (Done v, w).
Proof.
  intros H. destruct v as [s|]; [|done].
  unfold validate_indexed_opt, mbind, M_bind.
  now rewrite validate_indexed_fits by auto.
Qed.

Lemma validate_indexed_opt_over (s : string) (w : World) :
  (MAX_STRING_LENGTH < String.length s)%nat ->
  validate_indexed_opt (Some s) w = (Raise BadValueError, w).
Proof.
  intros H. unfold validate_indexed_opt, mbind, M_bind.
  now rewrite validate_indexed_over.
Qed.

Lemma validate_indexed_opt_cases (v : option string) (w : World) :
  validate_indexed_opt v w = (Done v, w) \/
  validate_indexed_opt v w = (Raise BadValueError, w).
Proof.
  destruct v as [s|]; [|now left].
  destruct (Nat.le_gt_cases (String.length s) MAX_STRING_LENGTH).
  - left. apply validate_indexed_opt_fits. now intros ? [= <-].
  - right. now apply validate_indexed_opt_over.
Qed.

Lemma validate_indexed_opt_spec (v : option string) (w : World) :
  (validate_indexed_opt v w = (Done v, w) /\
   forall s, v = Some s -> (String.length s <= MAX_STRING_LENGTH)%nat) \/
  (validate_indexed_opt v w = (Raise BadValueError, w) /\
   exists s, v = Some s /\ (MAX_STRING_LENGTH < String.length s)%nat).
Proof.
  destruct v as [s|]; [|left; split; [done|intros ? [=]]].
  destruct (Nat.le_gt_cases (String.length s) MAX_STRING_LENGTH) as [Hle|Hgt].
  - left. split; [|now intros ? [= <-]].
    apply validate_indexed_opt_fits. now intros ? [= <-].
  - right. split; [now apply validate_indexed_opt_over|eauto].
Qed.

(** Split on the outcome of the next validation of the handler. *)
Ltac validate :=
  match goal with
  | |- context [validate_indexed_opt ?v ?w] =>
      let H := fresh in
      destruct (validate_indexed_opt_cases v w) as [H|H]; rewrite H; clear H;
      cbv beta iota zeta
  | |- context [validate_indexed ?v ?w] =>
      let H := fresh in
      destruct (validate_indexed_cases v w) as [H|H]; rewrite H; clear H;
      cbv beta iota zeta
  end.

(** [indexable] of a concrete entity, by computing the lengths. *)
Ltac within_limits :=
  vm_compute; repeat split;
  first [ solve [intros ? [=]]
        | intros ? [= <-]; apply Nat.leb_le; vm_compute; reflexivity
        | apply Nat.leb_le; vm_compute; reflexivity ].

(** The test [request.form['status'] in ('error', 'fatal')]. *)
Lemma is_error_name (st : Status.t) :
  bool_decide (Status.name st = "error" \/ Status.name st = "fatal")
  = match st with Status.ERROR | Status.FATAL => true | _ => false end.
Proof. now destruct st. Qed.

Lemma post_shout_status_rejects (sys : Sys) (request : Request) (w : World)
    (tokens : list string) :
  purse_record w = Some tokens ->
  ~ presented_in request tokens ->
  post_shout_status sys request w = (Raise (HTTPException 403), w).
Proof.
  intros Hp Hno. run_handler. rewrite Hp.
  destruct (form request !! "token") as [token|] eqn:Ht; [|done].
  destruct (decide (token ∈ tokens)) as [Hin|]; [|done].
  exfalso. apply Hno. now exists token.
Qed.

Lemma post_shout_status_accepts (sys : Sys) (request : Request) (w : World)
    (tokens : list string) (browser_id shout_id : string) (st : Status.t) :
  purse_record w = Some tokens ->
  presented_in request tokens ->
  describes request browser_id shout_id st ->
  indexable (described_event (new_id sys) (utcnow sys) browser_id shout_id st
               (form request !! "result") (form request !! "host")) ->
  post_shout_status sys request w
  = (Done {| body := ∅; code := 200 |},
     {| datastore :=
          datastore w ++
          [described_event (new_id sys) (utcnow sys) browser_id shout_id st
             (form request !! "result") (form request !! "host")];
        purse_record := purse_record w;
        outbox := outbox w |}).
Proof.
  intros Hp (token & Ht & Hin) (Hb & Hs & Hst) (Hkey & Herr & Hhost).
  cbn [described_event combined_shout_id error host] in Hkey, Herr, Hhost.
  run_handler.
  rewrite Hp, Ht. destruct (decide (token ∈ tokens)); [|done].
  rewrite Hb, Hs, (validate_indexed_fits _ _ Hkey).
  rewrite Hst, StatusFacts.STATUS_MAP_lookup, !is_error_name.
  unfold put, described_event.
  destruct st; cbv beta iota zeta;
    rewrite ?(validate_indexed_opt_fits _ _ Herr),
            ?(validate_indexed_opt_fits _ _ Hhost), ?Hp; reflexivity.
Qed.



(** ** C7: the payload of the events written *)

Lemma STATUS_MAP_new : STATUS_MAP !! "new" = Some "a-new".
Proof. reflexivity. Qed.

Lemma STATUS_MAP_Some (name code : string) :
  STATUS_MAP !! name = Some code ->
  exists s, name = Status.name s /\ code = Status.encode s.
Proof.
  intros H%elem_of_map_to_list.
  assert (map_to_list STATUS_MAP =
            (fun s => (Status.name s, Status.encode s))
              <$> [Status.SUCCESS; Status.SHOUTING; Status.ERROR; Status.NEW; Status.FATAL])
    as Heq by (vm_compute; reflexivity).
  rewrite Heq in H. apply list_elem_of_fmap in H as (s & [= -> ->] & _). eauto.
Qed.

Ltac next := cbv beta iota; cbn [snd purse_record datastore outbox].
Ltac unchanged := intros [= _ <-]; now left.
Ltac appended :=
  intros [= _ <-]; right; eexists; (split; [reflexivity|done]).

(** What [shout] writes: nothing, or one NEW event without payload. *)
Lemma shout_submit_datastore url_encode url_decode sys request w r w' :
  shout_submit url_encode url_decode sys request w = (r, w') ->
  datastore w' = datastore w \/
  exists e, datastore w' = (datastore w ++ [e])%list /\
            status e = "a-new" /\ error e = None /\ result e = None.
Proof.
  run_handler. rewrite STATUS_MAP_new.
  destruct (form request !! "token") as [tok|]; next; [|unchanged].
  destruct (url_decode tok !! "browserId") as [b|]; next; [|unchanged].
  destruct (form request !! "shoutId") as [s|]; next; [|unchanged].
  validate; [|unchanged]. validate; [|unchanged].
  destruct (form request !! "text") as [text|]; next; [|unchanged].
  destruct (purse_record w) as [[|first rest]|]; next.
  - destruct (unawaited_put_lands sys); [appended|unchanged].
  - destruct (publish_ok sys); next; [appended|].
    destruct (unawaited_put_lands sys); [appended|unchanged].
  - destruct (unawaited_put_lands sys); [appended|unchanged].
Qed.

(** What [post_shout_status] writes: nothing, or one event of the status
    posted, with the [result] field of the form as its error or result. *)
Lemma post_shout_status_datastore sys request w r w' :
  post_shout_status sys request w = (r, w') ->
  datastore w' = datastore w \/
  exists e s, datastore w' = (datastore w ++ [e])%list /\
              status e = Status.encode s /\
              error e = match s with
                        | Status.ERROR | Status.FATAL => form request !! "result"
                        | _ => None
                        end /\
              result e = match s with
                         | Status.ERROR | Status.FATAL => None
                         | _ => form request !! "result"
                         end.
Proof.
  run_handler.
  destruct (purse_record w) as [tokens|]; next; [|unchanged].
  destruct (form request !! "token") as [token|]; next; [|unchanged].
  destruct (decide (token ∈ tokens)); next; [|unchanged].
  destruct (args request !! "browserId") as [b|]; next; [|unchanged].
  destruct (args request !! "shoutId") as [s|]; next; [|unchanged].
  validate; [|unchanged].
  destruct (form request !! "status") as [name|]; next; [|unchanged].
  destruct (STATUS_MAP !! name) as [code|] eqn:Hc; next; [|unchanged].
  apply STATUS_MAP_Some in Hc as (st & -> & ->).
  rewrite !is_error_name.
  destruct st; cbv beta iota zeta;
    repeat (validate; [|unchanged]);
    intros [= _ <-]; right;
    [eexists _, Status.NEW|eexists _, Status.SHOUTING|eexists _, Status.ERROR
    |eexists _, Status.FATAL|eexists _, Status.SUCCESS];
    (split; [reflexivity|repeat split]).
Qed.

Lemma purge_datastore sys w r w' (e : ShoutStatusLog) :
  purge sys w = (r, w') -> e ∈ datastore w' -> e ∈ datastore w.
Proof.
  unfold purge. intros [= _ <-]. cbn [datastore].
  generalize (key_id <$> filter (fun e => timestamp e < utcnow sys - one_day) (datastore w)).
  intros keys. revert keys. generalize (datastore w).
  intros store keys. revert store.
  induction keys as [|k keys IH]; intros store; simpl; [done|].
  intros H%IH. unfold delete_key in H. now apply list_elem_of_filter in H.
Qed.

Lemma payload_of_encode (s : Status.t) (message : option string) (e : ShoutStatusLog) :
  status e = Status.encode s ->
  error e = match s with Status.ERROR | Status.FATAL => message | _ => None end ->
  result e = match s with Status.ERROR | Status.FATAL => None | _ => message end ->
  payload_as_written e.
Proof.
  intros Hs He Hr. unfold payload_as_written. rewrite Hs, He, Hr.
  split; [rewrite <- StatusFacts.encode_all; apply list_elem_of_fmap; exists s;
          split; [done|destruct s; repeat constructor]|].
  destruct s; (split; intros [x Hx]; try discriminate; vm_compute; tauto).
Qed.

Lemma step_payload (w w' : World) :
  step w w' ->
  (forall e, e ∈ datastore w -> payload_as_written e) ->
  forall e, e ∈ datastore w' -> payload_as_written e.
Proof.
  intros Hstep Hinv e He. destruct Hstep as
    [ue ud sys request w r w' H | sys request w r w' H | sys w r w' H
    | token w r w' H | token w r w' H].
  - apply shout_submit_datastore in H as [Heq|(x & Heq & Hs & Herr & Hres)];
      rewrite Heq in He; [auto|].
    apply elem_of_app in He as [He|He%list_elem_of_singleton]; [auto|subst e].
    apply (payload_of_encode Status.NEW None); [done| |]; simpl; congruence.
  - apply post_shout_status_datastore in H as [Heq|(x & s & Heq & Hs & Herr & Hres)];
      rewrite Heq in He; [auto|].
    apply elem_of_app in He as [He|He%list_elem_of_singleton]; [auto|subst e].
    now apply (payload_of_encode s (form request !! "result")).
  - apply Hinv. now apply (purge_datastore sys w r w').
  - unfold rotate_token in H.
    destruct (Rotoken.rotate_token _ _ _); injection H as _ <-; auto.
  - unfold init_purse in H. injection H as _ <-. auto.
Qed.

Lemma after_report_reachable : reachable SampleRun.after_report.
Proof.
  unfold reachable.
  eapply rtc_l; [apply (step_init "t1" initial_world (Done tt) _ eq_refl)|].
  eapply rtc_l; [|apply rtc_refl].
  apply (step_post_shout_status SampleRun.sys SampleRun.shouting _
           (Done {| body := ∅; code := 200 |}) SampleRun.after_report).
  reflexivity.
Qed.

(** C7, as the claim states it, fails: after [init], a worker with the
    valid token reports SHOUTING with a text in the [result] field, and the
    event written has a result while its status is not SUCCESS. *)
Lemma result_written_for_shouting :
  reachable SampleRun.after_report /\
  post_shout_status SampleRun.sys SampleRun.shouting
    {| datastore := []; purse_record := Some ["t1"]; outbox := [] |}
  = (Done {| body := ∅; code := 200 |}, SampleRun.after_report) /\
  SampleRun.written ∈ datastore SampleRun.after_report /\
  status SampleRun.written = "b-shouting" /\
  result SampleRun.written = Some "HELLO" /\
  (payload_as_specified SampleRun.written -> False).
Proof.
  split; [apply after_report_reachable|].
  split; [reflexivity|]. split; [repeat constructor|].
  split; [reflexivity|]. split; [reflexivity|].
  intros [_ H]. specialize (H (ex_intro _ "HELLO" eq_refl)). discriminate.
Qed.

(** C7, amended.  In every world the handlers can reach, every event of
    the log has a status of [STATUSES]; its error is populated only when the
    status is ERROR or FATAL, and its result only when the status is not
    ERROR or FATAL, that is NEW, SHOUTING or SUCCESS.  An event written by
    job submission is NEW and has neither. *)
Theorem written_events_payload (w : World) :
  reachable w ->
  (forall e, e ∈ datastore w -> payload_as_written e) /\
  (forall url_encode url_decode sys request r w',
      shout_submit url_encode url_decode sys request w = (r, w') ->
      datastore w' = datastore w \/
      exists e, datastore w' = (datastore w ++ [e])%list /\
                status e = "a-new" /\ error e = None /\ result e = None).
Proof.
  intros Hreach. split.
  - unfold reachable in Hreach.
    apply (rtc_ind_r (R := step)
             (fun w => forall e, e ∈ datastore w -> payload_as_written e)
             initial_world); [| |exact Hreach].
    + intros e He. now apply not_elem_of_nil in He.
    + intros w1 w2 _ Hstep IH. now apply (step_payload w1 w2).
  - intros ue ud sys request r w'. apply shout_submit_datastore.
Qed.

Lemma written_events_payload_witness :
  reachable SampleRun.after_report /\
  payload_as_written SampleRun.written.
Proof.
  split; [apply after_report_reachable|].
  apply (proj1 (written_events_payload SampleRun.after_report
                  after_report_reachable)).
  repeat constructor.
Defined.

(** ** The poll loop *)

Section Poll.

Variable url_encode : gmap string string -> string.
Variable env : Env.
Variables browser_id shout_id last_status : string.

Let key : string := combine_ids browser_id shout_id.


Lemma status_name_success (e : ShoutStatusLog) :
  status e = "e-success" -> status_name e = Some "success".
Proof. unfold status_name. now intros ->. Qed.

Lemma status_name_fatal (e : ShoutStatusLog) :
  status e = "d-fatal" -> status_name e = Some "fatal".
Proof. unfold status_name. now intros ->. Qed.

(** The highest status of a job with a terminal event is terminal. *)
Lemma latest_terminal (store : list ShoutStatusLog) (x : ShoutStatusLog) :
  (forall e, e ∈ store -> status e ∈ STATUSES) ->
  x ∈ store -> combined_shout_id x = key ->
  status x = "e-success" \/ status x = "d-fatal" ->
  exists top, latest store key = Some top /\ top ∈ store /\
              (status top = "e-success" \/ status top = "d-fatal") /\
              (status x = "e-success" -> status top = "e-success").
Proof.
  intros Hvalid Hx Hk Hterm.
  destruct (latest_is_Some store key x Hx Hk) as [top Htop].
  exists top. destruct (latest_Some _ _ _ Htop) as (Hin & _ & _).
  split; [done|]. split; [done|].
  pose proof (latest_highest _ _ _ _ Htop Hx Hk) as Hle.
  pose proof (Hvalid top Hin) as Hs. unfold STATUSES in Hs.
  repeat (apply elem_of_cons in Hs as [Hs|Hs]);
    [..|now apply not_elem_of_nil in Hs];
    rewrite Hs in *; destruct Hterm as [Hx'|Hx']; rewrite Hx' in Hle;
    try discriminate; split; auto; intros; congruence.
Qed.

(** C2.  If the datastore holds a SUCCESS or a FATAL event of the job at
    the first query, the poll loop returns at its first iteration, before
    any sleep, whatever the last known status: HTTP 200, the status success
    with the result of the event found (success whenever a SUCCESS event
    exists), or the status fatal with its error, and no nextLink.  The
    event found is one the datastore holds under the key of this job. *)
Theorem poll_returns_terminal_at_once (fuel : nat) (x : ShoutStatusLog) :
  (forall e, e ∈ datastore_at env 0 -> status e ∈ STATUSES) ->
  x ∈ datastore_at env 0 ->
  combined_shout_id x = combine_ids browser_id shout_id ->
  status x = "e-success" \/ status x = "d-fatal" ->
  exists top r,
    latest (datastore_at env 0) (combine_ids browser_id shout_id) = Some top /\
    top ∈ datastore_at env 0 /\
    combined_shout_id top = combine_ids browser_id shout_id /\
    poll_shout_status url_encode env (S fuel) browser_id shout_id last_status
    = Some (Done r, []) /\
    code r = 200 /\
    body r !! "nextLink" = None /\
    body r !! "shoutId" = Some (VStr shout_id) /\
    (status x = "e-success" -> status top = "e-success") /\
    ((status top = "e-success" /\
      body r !! "status" = Some (VStr "success") /\
      body r !! "result" = Some (of_property (result top)) /\
      body r !! "error" = None) \/
     (status top = "d-fatal" /\
      body r !! "status" = Some (VStr "fatal") /\
      body r !! "error" = Some (of_property (error top)) /\
      body r !! "result" = None)).
Proof.
  intros Hvalid Hx Hk Hterm.
  destruct (latest_terminal _ x Hvalid Hx Hk Hterm) as (top & Htop & _ & Hst & Hsucc).
  destruct (latest_Some _ _ _ Htop) as (Hmem & Hjob & _).
  exists top. unfold poll_shout_status. cbn [poll_loop].
  rewrite latest_entities_latest. fold key. rewrite Htop.
  destruct Hst as [Hst|Hst].
  - rewrite (status_name_success top Hst). cbn [String.eqb Ascii.eqb Bool.eqb].
    eexists. split; [done|]. split; [done|]. split; [done|].
    split; [reflexivity|]. cbn [code body].
    split; [done|]. split; [done|]. split; [done|]. split; [done|].
    left. done.
  - rewrite (status_name_fatal top Hst).
    eexists. split; [done|]. split; [done|]. split; [done|].
    split; [reflexivity|]. cbn [code body].
    split; [done|]. split; [done|]. split; [done|]. split; [done|].
    right. done.
Qed.

(** One iteration of the loop, by cases: it returns a success, a fatal
    error or a change of status, it raises, or it retries; a retry ends the
    loop when 45 seconds have passed and sleeps otherwise. *)
Lemma poll_loop_inv (fuel i : nat) (sleep_seconds : Q)
    (response : gmap string value) (r : outcome Response) (sleeps : list Q) :
  poll_loop url_encode env browser_id shout_id last_status (S fuel) i
    sleep_seconds response = Some (r, sleeps) ->
  (exists top,
      sleeps = [] /\
      r = Done {| body := <["result" := of_property (result top)]>
                            (<["status" := VStr "success"]> response);
                  code := 200 |}) \/
  (exists top,
      sleeps = [] /\
      r = Done {| body := <["error" := of_property (error top)]>
                            (<["status" := VStr "fatal"]> response);
                  code := 200 |}) \/
  (exists top st,
      sleeps = [] /\ st <> "success" /\ st <> "fatal" /\ st <> last_status /\
      r = Done (with_next_link url_encode browser_id shout_id
                  (<["error" := of_property (error top)]>
                     (<["status" := VStr st]> response)))) \/
  (sleeps = [] /\ r = Raise IndexError) \/
  (exists response',
      (response' = response \/ response' = <["status" := VStr last_status]> response) /\
      ((sleeps = [] /\
        (45 <= clock_at env i - start_timestamp env)%Q /\
        r = Done (with_next_link url_encode browser_id shout_id response')) \/
       (exists sleeps',
           sleeps = sleep_seconds :: sleeps' /\
           (clock_at env i - start_timestamp env < 45)%Q /\
           poll_loop url_encode env browser_id shout_id last_status fuel (S i)
             (Qmin 5 (sleep_seconds * 2)) response' = Some (r, sleeps')))).
Proof.
  cbn [poll_loop].
  assert (forall response',
             (response' = response \/ response' = <["status" := VStr last_status]> response) ->
             (if Qle_bool 45 (clock_at env i - start_timestamp env)
              then Some (Done (with_next_link url_encode browser_id shout_id response'), [])
              else
                match poll_loop url_encode env browser_id shout_id last_status fuel (S i)
                        (Qmin 5 (sleep_seconds * 2)) response' with
                | Some (r, sleeps) => Some (r, sleep_seconds :: sleeps)
                | None => None
                end) = Some (r, sleeps) ->
             exists response',
               (response' = response \/ response' = <["status" := VStr last_status]> response) /\
               ((sleeps = [] /\
                 (45 <= clock_at env i - start_timestamp env)%Q /\
                 r = Done (with_next_link url_encode browser_id shout_id response')) \/
                (exists sleeps',
                    sleeps = sleep_seconds :: sleeps' /\
                    (clock_at env i - start_timestamp env < 45)%Q /\
                    poll_loop url_encode env browser_id shout_id last_status fuel (S i)
                      (Qmin 5 (sleep_seconds * 2)) response' = Some (r, sleeps'))))
    as Hretry.
  { intros response' Hresp.
    destruct (Qle_bool 45 (clock_at env i - start_timestamp env)) eqn:Hclock.
    - intros [= <- <-]. exists response'. split; [done|]. left.
      apply Qle_bool_iff in Hclock. done.
    - destruct (poll_loop _ _ _ _ _ fuel _ _ response') as [[r' sleeps']|] eqn:Hrec;
        [|discriminate].
      intros [= <- <-]. exists response'. split; [done|]. right.
      exists sleeps'. split; [done|]. split; [|done].
      apply Qnot_le_lt. intros Hle%Qle_bool_iff. congruence. }
  destruct (latest_entities _ _) as [|top rest].
  { intros H. do 4 right. apply (Hretry response); auto. }
  destruct (status_name top) as [st|]; [|intros [= <- <-]; auto 6].
  destruct (String.eqb_spec st "success") as [->|Hs].
  { intros [= <- <-]. left. eauto. }
  destruct (String.eqb_spec st "fatal") as [->|Hf].
  { intros [= <- <-]. right. left. eauto. }
  destruct (String.eqb_spec last_status st) as [<-|Hl]; cbn [negb].
  - intros H. do 4 right.
    apply (Hretry (<["status" := VStr last_status]> response)); auto.
  - intros [= <- <-]. do 2 right. left. exists top, st. auto 6.
Qed.





(** An iteration that finds nothing new retries. *)
Lemma poll_loop_quiet (fuel i : nat) (sleep_seconds : Q)
    (response : gmap string value) :
  response !! "status" = Some (VStr last_status) ->
  quiet_at env (combine_ids browser_id shout_id) last_status i ->
  poll_loop url_encode env browser_id shout_id last_status (S fuel) i
    sleep_seconds response
  = if Qle_bool 45 (clock_at env i - start_timestamp env)
    then Some (Done (with_next_link url_encode browser_id shout_id response), [])
    else
      match poll_loop url_encode env browser_id shout_id last_status fuel (S i)
              (Qmin 5 (sleep_seconds * 2)) response with
      | Some (r, sleeps) => Some (r, sleep_seconds :: sleeps)
      | None => None
      end.
Proof.
  intros Hresp Hquiet. cbn [poll_loop]. unfold quiet_at in Hquiet.
  rewrite latest_entities_latest.
  destruct (latest _ _) as [top|]; [|done].
  destruct Hquiet as (-> & Hs & Hf).
  apply String.eqb_neq in Hs, Hf. rewrite Hs, Hf, String.eqb_refl. cbn [negb].
  now rewrite (insert_id response "status" _ Hresp).
Qed.


(** The loop runs out of fuel only if every check it made came before the
    45 seconds. *)
Lemma poll_loop_None (fuel : nat) :
  forall (i : nat) (sleep_seconds : Q) (response : gmap string value),
    poll_loop url_encode env browser_id shout_id last_status fuel i
      sleep_seconds response = None ->
    forall j, (i <= j < i + fuel)%nat ->
              (clock_at env j - start_timestamp env < 45)%Q.
Proof.
  induction fuel as [|fuel IH]; intros i sl response H j Hj; [lia|].
  assert (forall response',
             (if Qle_bool 45 (clock_at env i - start_timestamp env)
              then Some (Done (with_next_link url_encode browser_id shout_id response'),
                         @nil Q)
              else
                match poll_loop url_encode env browser_id shout_id last_status fuel (S i)
                        (Qmin 5 (sl * 2)) response' with
                | Some (r, sleeps) => Some (r, sl :: sleeps)
                | None => None
                end) = None ->
             (clock_at env j - start_timestamp env < 45)%Q) as Hretry.
  { intros response'.
    destruct (Qle_bool 45 (clock_at env i - start_timestamp env)) eqn:Hclock;
      [discriminate|].
    destruct (poll_loop _ _ _ _ _ fuel _ _ response') as [[r' sleeps']|] eqn:Hrec;
      [discriminate|]. intros _.
    destruct (decide (j = i)) as [->|Hne].
    - apply Qnot_le_lt. intros Hle%Qle_bool_iff. congruence.
    - apply (IH _ _ _ Hrec). lia. }
  revert H. cbn [poll_loop].
  destruct (latest_entities _ _) as [|top rest]; [apply Hretry|].
  destruct (status_name top) as [st|]; [|discriminate].
  destruct (String.eqb st "success"); [discriminate|].
  destruct (String.eqb st "fatal"); [discriminate|].
  destruct (negb (String.eqb last_status st)); [discriminate|apply Hretry].
Qed.

Lemma slept_14 : (45 <= slept 14)%Q.
Proof. vm_compute. discriminate. Qed.

Lemma clock_slept (i : nat) :
  clock_respects_sleeps env ->
  (start_timestamp env + slept i <= clock_at env i)%Q.
Proof.
  intros [H0 Hstep]. induction i as [|i IH]; simpl.
  - lra.
  - specialize (Hstep i). lra.
Qed.

(** With a clock that runs with the sleeps, the loop returns within
    fifteen iterations. *)
Lemma poll_returns (fuel : nat) :
  clock_respects_sleeps env -> (15 <= fuel)%nat ->
  exists r sleeps,
    poll_shout_status url_encode env fuel browser_id shout_id last_status
    = Some (r, sleeps).
Proof.
  intros Hclock Hfuel. unfold poll_shout_status.
  destruct (poll_loop _ _ _ _ _ fuel _ _ _) as [[r sleeps]|] eqn:E; [eauto|].
  exfalso. pose proof (poll_loop_None _ _ _ _ E 14%nat ltac:(lia)) as Hlt.
  pose proof (clock_slept 14 Hclock) as H14. pose proof slept_14. lra.
Qed.



(** The four responses of the loop. *)
Lemma poll_loop_shapes (fuel : nat) :
  forall (i : nat) (sleep_seconds : Q) (response : gmap string value)
         (r : Response) (sleeps : list Q),
    response !! "status" = Some (VStr last_status) ->
    poll_loop url_encode env browser_id shout_id last_status fuel i
      sleep_seconds response = Some (Done r, sleeps) ->
    (exists top,
        r = {| body := <["result" := of_property (result top)]>
                         (<["status" := VStr "success"]> response);
               code := 200 |}) \/
    (exists top,
        r = {| body := <["error" := of_property (error top)]>
                         (<["status" := VStr "fatal"]> response);
               code := 200 |}) \/
    (exists top st,
        st <> "success" /\ st <> "fatal" /\ st <> last_status /\
        r = with_next_link url_encode browser_id shout_id
              (<["error" := of_property (error top)]>
                 (<["status" := VStr st]> response))) \/
    r = with_next_link url_encode browser_id shout_id response.
Proof.
  induction fuel as [|fuel IH]; intros i sl response r sleeps Hresp; [discriminate|].
  intros H.
  apply poll_loop_inv in H
    as [(top & _ & [= ->])|[(top & _ & [= ->])|[(top & st & _ & ? & ? & ? & [= ->])
       |[(_ & [=])|H]]]]; eauto 10.
  destruct H as (response' & Hresp' & H).
  assert (response' = response) as ->.
  { destruct Hresp' as [->| ->]; [done|]. now apply insert_id. }
  destruct H as [(_ & _ & [= ->])|(sleeps' & _ & _ & Hrec)]; [auto|].
  now apply (IH _ _ _ _ _ Hresp Hrec).
Qed.

(** Settles the equivalences between the fields of a response whose body
    is given by inserts: each lookup is computed. *)
Ltac fields :=
  repeat split; intros; eauto; try done;
  try (destruct_and?; done); try (destruct_or?; destruct_and?; done);
  match goal with
  | H : is_Some _ |- _ => destruct H as [? H]; discriminate H
  end.

(** C4, amended.  For a last known status that is not terminal, every
    response of the poll loop has [result] exactly when its status is
    success; [nextLink] exactly when its status is neither success nor
    fatal, and exactly then the HTTP status 202, otherwise 200; and [error]
    exactly when its status is fatal, or is neither success nor the last
    known status.  So [result] comes alone, while a change of status comes
    with both [error] and [nextLink]. *)
Theorem poll_response_fields (fuel : nat) (r : Response) (sleeps : list Q) :
  last_status <> "success" -> last_status <> "fatal" ->
  poll_shout_status url_encode env fuel browser_id shout_id last_status
  = Some (Done r, sleeps) ->
  exists st,
    body r !! "status" = Some (VStr st) /\
    (is_Some (body r !! "result") <-> st = "success") /\
    (is_Some (body r !! "nextLink") <-> st <> "success" /\ st <> "fatal") /\
    (is_Some (body r !! "error")
     <-> st = "fatal" \/ (st <> "success" /\ st <> last_status)) /\
    (code r = 202 <-> is_Some (body r !! "nextLink")) /\
    (code r = 200 <-> st = "success" \/ st = "fatal").
Proof.
  intros Hs Hf H. unfold poll_shout_status in H.
  apply poll_loop_shapes in H
    as [(top & ->)|[(top & ->)|[(top & st & Hst1 & Hst2 & Hst3 & ->)| ->]]];
    [| | | |done]; cbn [with_next_link body code].
  - exists "success". split; [done|]. fields.
  - exists "fatal". split; [done|]. fields.
  - exists st. split; [done|]. fields.
  - exists last_status. split; [done|]. fields.
Qed.

End Poll.

Lemma poll_returns_terminal_at_once_witness :
  (Sample.other_job ∈ datastore_at SamplePoll.env 0 /\
   combined_shout_id Sample.other_job = combine_ids "B" "8" /\
   status Sample.other_job = "e-success") /\
  exists r,
    poll_shout_status SamplePoll.url_encode SamplePoll.env 1 "B" "8" "new"
    = Some (Done r, []) /\
    code r = 200 /\
    body r !! "nextLink" = None /\
    body r !! "status" = Some (VStr "success") /\
    body r !! "result" = Some (VStr "HELLO").
Proof.
  assert (Sample.other_job ∈ datastore_at SamplePoll.env 0) as Hin
    by (cbn; unfold Sample.errors_store; repeat constructor).
  split; [repeat split; done|].
  destruct (poll_returns_terminal_at_once SamplePoll.url_encode SamplePoll.env
              "B" "8" "new" 0 Sample.other_job errors_store_valid Hin eq_refl
              (or_introl eq_refl))
    as (top & r & Htop & _ & _ & Hrun & Hcode & Hnext & _ & _ & Hpayload).
  exists r. split; [exact Hrun|]. split; [exact Hcode|]. split; [exact Hnext|].
  injection Htop as <-.
  destruct Hpayload as [(_ & Hst & Hres & _)|(Hst & _)]; [|discriminate Hst].
  split; [exact Hst|exact Hres].
Defined.





(** C4, as the claim states it, fails.  A poll with last known status
    "new" for job B-7, whose highest event is an ERROR, answers with both
    [error] and [nextLink]; and a poll with last known status "success" for
    a job without events answers, after the 45 seconds, with the status
    "success", a [nextLink] and no [result]. *)
Lemma error_and_next_link_together :
  poll_shout_status SamplePoll.url_encode SamplePoll.env 1 "B" "7" "new"
  = Some (Done SamplePoll.changed, []) /\
  body SamplePoll.changed !! "status" = Some (VStr "error") /\
  body SamplePoll.changed !! "error" = Some (VStr "first") /\
  is_Some (body SamplePoll.changed !! "nextLink") /\
  code SamplePoll.changed = 202 /\
  fst <$> poll_shout_status SamplePoll.url_encode SamplePoll.empty_env 20
            "B" "7" "success"
  = Some (Done SamplePoll.stale_success) /\
  body SamplePoll.stale_success !! "status" = Some (VStr "success") /\
  body SamplePoll.stale_success !! "result" = None /\
  is_Some (body SamplePoll.stale_success !! "nextLink").
Proof. repeat split; try reflexivity; eexists; reflexivity. Qed.

Lemma poll_response_fields_witness :
  ("new" <> "success" /\ "new" <> "fatal") /\
  poll_shout_status SamplePoll.url_encode SamplePoll.env 1 "B" "7" "new"
  = Some (Done SamplePoll.changed, []) /\
  exists st,
    body SamplePoll.changed !! "status" = Some (VStr st) /\
    (is_Some (body SamplePoll.changed !! "result") <-> st = "success") /\
    (is_Some (body SamplePoll.changed !! "nextLink")
     <-> st <> "success" /\ st <> "fatal") /\
    (is_Some (body SamplePoll.changed !! "error")
     <-> st = "fatal" \/ (st <> "success" /\ st <> "new")) /\
    (code SamplePoll.changed = 202
     <-> is_Some (body SamplePoll.changed !! "nextLink")) /\
    (code SamplePoll.changed = 200 <-> st = "success" \/ st = "fatal").
Proof.
  split; [split; discriminate|]. split; [reflexivity|].
  apply (poll_response_fields SamplePoll.url_encode SamplePoll.env "B" "7" "new"
           1 SamplePoll.changed []); [discriminate|discriminate|reflexivity].
Defined.

(** * Further properties *)

Local Open Scope list_scope.

(** ** Status names *)

(** X1.  [status_name] and [STATUS_MAP] are inverse to each other: the
    name under which [STATUS_MAP] holds a status string is the one
    [status_name] reads back from an entity with that status, and for an
    entity whose status is one of [STATUSES], [STATUS_MAP] maps its status
    name to its status.  [STATUS_MAP] has exactly the five names. *)
Theorem status_name_inverts_STATUS_MAP :
  (forall (name code : string) (e : ShoutStatusLog),
      STATUS_MAP !! name = Some code -> status e = code ->
      status_name e = Some name) /\
  (forall e : ShoutStatusLog,
      status e ∈ STATUSES ->
      exists name, status_name e = Some name /\
                   STATUS_MAP !! name = Some (status e)) /\
  dom STATUS_MAP = list_to_set ["new"; "shouting"; "error"; "fatal"; "success"].
Proof.
  split; [|split].
  - intros name code e (s & -> & ->)%STATUS_MAP_Some He.
    unfold status_name. rewrite He. now destruct s.
  - intros e (s & Hs)%StatusFacts.elem_of_STATUSES.
    exists (Status.name s). unfold status_name. rewrite Hs.
    split; [now destruct s|apply StatusFacts.STATUS_MAP_lookup].
  - apply (bool_decide_unpack _). vm_compute. exact I.
Qed.

Lemma status_name_inverts_STATUS_MAP_witness :
  STATUS_MAP !! "shouting" = Some "b-shouting" /\
  status_name Sample.error_a = Some "error" /\
  STATUS_MAP !! "error" = Some (status Sample.error_a).
Proof.
  destruct status_name_inverts_STATUS_MAP as (H1 & _ & _).
  split; [reflexivity|]. split; [|reflexivity].
  apply (H1 "error" "c-error" Sample.error_a); reflexivity.
Defined.

(** ** Minted ids *)

Module IdFacts.

Lemma get_elem_of (s : string) (i : nat) (c : ascii) :
  String.get i s = Some c -> c ∈ list_ascii_of_string s.
Proof.
  revert i. induction s as [|d r IH]; intros i; simpl; [discriminate|].
  destruct i as [|i].
  - intros [= ->]. left.
  - intros H. right. now apply (IH i).
Qed.

(** In a string without repeated characters a character has one index. *)
Lemma get_inj (s : string) (i j : nat) (c : ascii) :
  NoDup (list_ascii_of_string s) ->
  String.get i s = Some c -> String.get j s = Some c -> i = j.
Proof.
  revert i j. induction s as [|d r IH]; intros i j; simpl; [discriminate|].
  intros [Hd Hr]%NoDup_cons.
  destruct i as [|i], j as [|j]; try done.
  - intros [= ->] Hj%get_elem_of. done.
  - intros Hi%get_elem_of [= ->]. done.
  - intros Hi Hj. f_equal. now apply IH.
Qed.

Lemma ID_CHARS_NoDup : NoDup (list_ascii_of_string ID_CHARS).
Proof.
  apply (bool_decide_unpack (NoDup (list_ascii_of_string ID_CHARS))).
  vm_compute. exact I.
Qed.

Lemma choice_eq (r1 r2 : nat) :
  choice ID_CHARS r1 = choice ID_CHARS r2 <-> (r1 mod 62 = r2 mod 62)%nat.
Proof.
  unfold choice. change (String.length ID_CHARS) with 62%nat. split.
  - intros Heq.
    destruct (StrFacts.get_is_Some ID_CHARS (r1 mod 62)) as [c Hc].
    { change (String.length ID_CHARS) with 62%nat. now apply Nat.mod_upper_bound. }
    apply (get_inj ID_CHARS _ _ c ID_CHARS_NoDup Hc). now rewrite <- Heq.
  - now intros ->.
Qed.

Lemma choice_is_Some (r : nat) : is_Some (choice ID_CHARS r).
Proof. destruct (choice_in ID_CHARS r) as (c & -> & _); [done|eauto]. Qed.

Lemma mapM_seq_eq {A} (f g : nat -> option A) (n start : nat) :
  (forall i, is_Some (f i)) -> (forall i, is_Some (g i)) ->
  mapM f (seq start n) = mapM g (seq start n)
  <-> forall i, (start <= i < start + n)%nat -> f i = g i.
Proof.
  intros Hf Hg. revert start. induction n as [|n IH]; intros start.
  - simpl. split; [intros _ i Hi; lia|done].
  - cbn [seq mapM].
    destruct (Hf start) as [a Ha], (Hg start) as [b Hb].
    assert (is_Some (mapM f (seq (S start) n))) as [k Hk].
    { apply mapM_is_Some, Forall_forall. intros x _. apply Hf. }
    assert (is_Some (mapM g (seq (S start) n))) as [k' Hk'].
    { apply mapM_is_Some, Forall_forall. intros x _. apply Hg. }
    rewrite Ha, Hb, Hk, Hk'. simpl. split.
    + intros [= -> ->] i Hi.
      destruct (decide (i = start)) as [->|Hne]; [congruence|].
      apply (proj1 (IH (S start))); [congruence|lia].
    + intros H.
      assert (Some a = Some b) as [= ->].
      { rewrite <- Ha, <- Hb. apply H. lia. }
      assert (Some k = Some k') as [= ->]; [|done].
      rewrite <- Hk, <- Hk'. apply (proj2 (IH (S start))).
      intros i Hi. apply H. lia.
Qed.

Lemma string_of_list_ascii_inj (l k : list ascii) :
  string_of_list_ascii l = string_of_list_ascii k -> l = k.
Proof.
  intros H. rewrite <- (list_ascii_of_string_of_list_ascii l),
              <- (list_ascii_of_string_of_list_ascii k). now rewrite H.
Qed.

End IdFacts.

(** X2.  Two runs of [new_random_id] of the same length return the same
    id exactly when their draws pick the same index of [ID_CHARS] at every
    position: the id determines the 43 indices, so the ids of the default
    length are as many as the sequences of 43 indices below 62. *)
Theorem new_random_id_injective (draw1 draw2 : nat -> nat) (id_len : nat) :
  new_random_id draw1 id_len = new_random_id draw2 id_len
  <-> forall i, (i < id_len)%nat -> (draw1 i mod 62 = draw2 i mod 62)%nat.
Proof.
  unfold new_random_id.
  pose proof (IdFacts.mapM_seq_eq
                (fun i => choice ID_CHARS (draw1 i))
                (fun i => choice ID_CHARS (draw2 i)) id_len 0
                (fun i => IdFacts.choice_is_Some _)
                (fun i => IdFacts.choice_is_Some _)) as Hseq.
  split.
  - intros Heq i Hi. apply IdFacts.choice_eq. apply Hseq; [|lia].
    destruct (mapM _ (seq 0 id_len)) as [l|], (mapM _ (seq 0 id_len)) as [k|];
      simpl in Heq; try done.
    injection Heq as Heq%IdFacts.string_of_list_ascii_inj. now subst.
  - intros H. f_equal. apply Hseq. intros i Hi. apply IdFacts.choice_eq, H. lia.
Qed.

(** X3.  Ids minted by [new_random_id] never alias under [combine_ids]:
    two jobs whose browser ids were minted, of any lengths and with any
    shout ids, have the same combined key only if they have the same
    browser id and the same shout id. *)
Theorem minted_ids_never_alias (draw1 draw2 : nat -> nat) (len1 len2 : nat)
    (b1 b2 s1 s2 : string) :
  new_random_id draw1 len1 = Some b1 ->
  new_random_id draw2 len2 = Some b2 ->
  combine_ids b1 s1 = combine_ids b2 s2 ->
  b1 = b2 /\ s1 = s2.
Proof.
  intros H1 H2.
  destruct (new_random_id_any_length draw1 len1) as (id1 & Hid1 & _ & Hin1).
  destruct (new_random_id_any_length draw2 len2) as (id2 & Hid2 & _ & Hin2).
  assert (id1 = b1) as -> by congruence. assert (id2 = b2) as -> by congruence.
  apply combine_ids_inj_no_dash; now apply ID_CHARS_no_dash.
Qed.

Lemma minted_ids_never_alias_witness :
  new_random_id SampleCodec.draw 3 = Some "aho" /\
  new_random_id SampleCodec.draw 2 = Some "ah" /\
  (combine_ids "aho" "1-2" = combine_ids "ah" "o-1-2" -> "aho" = "ah" /\ "1-2" = "o-1-2").
Proof.
  split; [reflexivity|]. split; [reflexivity|].
  apply (minted_ids_never_alias SampleCodec.draw SampleCodec.draw 3 2); reflexivity.
Defined.

(** ** From connect to shout *)

Lemma length_combine_ids (browser_id shout_id : string) :
  String.length (combine_ids browser_id shout_id)
  = (String.length browser_id + S (String.length shout_id))%nat.
Proof.
  unfold combine_ids. induction browser_id as [|c b IH]; [reflexivity|].
  rewrite append_String. cbn [String.length]. now rewrite IH.
Qed.

(** X4.  [connect] always answers 200 with a link to [shout] whose token
    carries a fresh id of 43 characters of [ID_CHARS].  When the client
    sends that token back with a text and a shout id that, with the 43
    characters and the dash, stays within the 1500 bytes of an indexed
    string, as the name of the host does, the purse has a token and Pub/Sub
    accepts the message, [shout] writes one NEW event under the combined
    key of the minted id and the shout id, with no payload, and publishes
    one message to the topic [shout-requests] that carries the text, a
    deadline 90 seconds ahead, the callback URL of the job and the newest
    token of the purse; the purse is unchanged. *)
Theorem connect_then_shout (url_encode : gmap string string -> string)
    (url_decode : string -> gmap string string) (draw : nat -> nat)
    (sys : Sys) (shout_id text : string) (w : World)
    (first : string) (rest : list string) :
  (forall id, new_random_id draw RANDOM_ID_LEN = Some id ->
              url_decode (url_encode (<["browserId" := id]> ∅)) !! "browserId"
              = Some id) ->
  (String.length shout_id + 44 <= MAX_STRING_LENGTH)%nat ->
  (String.length (hostname sys) <= MAX_STRING_LENGTH)%nat ->
  purse_record w = Some (first :: rest) ->
  publish_ok sys = true ->
  exists id tok,
    connect url_encode draw
    = Done {| body := <["shoutLink" := VLink "shout" "POST" tok]> ∅;
              code := 200 |} /\
    String.length id = 43%nat /\
    Str.all_in ID_CHARS id = true /\
    shout_submit url_encode url_decode sys
      {| form := <["token" := tok]>
                 (<["shoutId" := shout_id]> (<["text" := text]> ∅));
         args := ∅ |} w
    = (Done (id, shout_id),
       {| datastore :=
            datastore w ++
            [ {| key_id := new_id sys;
                 combined_shout_id := combine_ids id shout_id;
                 status := "a-new";
                 timestamp := utcnow sys;
                 error := None;
                 result := None;
                 host := Some (hostname sys) |} ];
          purse_record := purse_record w;
          outbox :=
            outbox w ++
            [ {| topic := "shout-requests";
                 data := text;
                 deadline := utctimestamp sys + 90;
                 postStatusUrl :=
                   "https://" ++ fqdn sys ++ "/post_shout_status?"
                   ++ url_encode (<["browserId" := id]>
                                  (<["shoutId" := shout_id]> ∅));
                 postStatusToken := first |} ] |}).
Proof.
  intros Hcodec Hshort Hhost Hpurse Hpub.
  destruct (new_random_id_any_length draw RANDOM_ID_LEN) as (id & Hid & Hlen & Hin).
  assert (String.length (combine_ids id shout_id) <= MAX_STRING_LENGTH)%nat as Hkey
    by (rewrite length_combine_ids, Hlen; unfold RANDOM_ID_LEN; lia).
  exists id, (url_encode (<["browserId" := id]> ∅)).
  unfold connect. rewrite Hid. split; [done|]. split; [done|]. split; [done|].
  match goal with |- context [shout_submit _ _ _ ?r _] => set (request := r) end.
  assert (form request !! "token" = Some (url_encode (<["browserId" := id]> ∅)))
    as Htok by reflexivity.
  assert (form request !! "shoutId" = Some shout_id) as Hshout by reflexivity.
  assert (form request !! "text" = Some text) as Htext by reflexivity.
  run_handler. rewrite STATUS_MAP_new, Htok. next.
  rewrite (Hcodec id Hid). next. rewrite Hshout. next.
  rewrite (validate_indexed_fits _ _ Hkey). next.
  rewrite (validate_indexed_fits _ _ Hhost). next.
  rewrite Htext. next.
  rewrite Hpurse. next. rewrite Hpub. next. rewrite ?Hpurse. reflexivity.
Qed.

Lemma connect_then_shout_witness :
  (String.length "0" + 44 <= MAX_STRING_LENGTH)%nat /\
  (String.length (hostname SampleCallback.sys) <= MAX_STRING_LENGTH)%nat /\
  purse_record SampleCallback.world = Some ["t3"; "t2"; "t1"] /\
  publish_ok SampleCallback.sys = true /\
  exists id tok,
    connect SamplePoll.url_encode SampleCodec.draw
    = Done {| body := <["shoutLink" := VLink "shout" "POST" tok]> ∅;
              code := 200 |} /\
    String.length id = 43%nat /\
    (shout_submit SamplePoll.url_encode SampleCodec.url_decode SampleCallback.sys
       (SampleCodec.shout_request tok) SampleCallback.world).1
    = Done (id, "0").
Proof.
  assert (String.length "0" + 44 <= MAX_STRING_LENGTH)%nat as Hshort
    by (apply Nat.leb_le; vm_compute; reflexivity).
  assert (String.length (hostname SampleCallback.sys) <= MAX_STRING_LENGTH)%nat
    as Hhost by (apply Nat.leb_le; vm_compute; reflexivity).
  split; [exact Hshort|]. split; [exact Hhost|].
  split; [reflexivity|]. split; [reflexivity|].
  destruct (connect_then_shout SamplePoll.url_encode SampleCodec.url_decode
              SampleCodec.draw SampleCallback.sys "0" "hello"
              SampleCallback.world "t3" ["t2"; "t1"])
    as (id & tok & Hc & Hlen & _ & Hs).
  - intros id [= <-]. vm_compute. reflexivity.
  - exact Hshort.
  - exact Hhost.
  - reflexivity.
  - reflexivity.
  - exists id, tok. split; [exact Hc|]. split; [exact Hlen|].
    unfold SampleCodec.shout_request. now rewrite Hs.
Defined.

(** ** More on the lookup [latest] *)

Module LatestFacts.

Lemma precedes_antisym (a b : ShoutStatusLog) :
  Query.precedes a b = true -> Query.precedes b a = true ->
  status a = status b /\ key_id a = key_id b.
Proof.
  unfold Query.precedes.
  rewrite (String.compare_antisym (status b) (status a)).
  destruct (String.compare (status a) (status b)) eqn:E; simpl; try discriminate.
  apply String.compare_eq_iff in E. intros. split; [done|lia].
Qed.

Lemma fmap_inj_on {A B} (f : A -> B) (l : list A) (x y : A) :
  NoDup (f <$> l) -> x ∈ l -> y ∈ l -> f x = f y -> x = y.
Proof.
  induction l as [|z l IH]; [now intros _ ?%not_elem_of_nil|].
  rewrite fmap_cons. intros [Hz Hl]%NoDup_cons Hx Hy Heq.
  apply elem_of_cons in Hx as [->|Hx], Hy as [->|Hy]; [done| | |auto].
  - exfalso. apply Hz. rewrite Heq. now apply list_elem_of_fmap_2.
  - exfalso. apply Hz. rewrite <- Heq. now apply list_elem_of_fmap_2.
Qed.

Lemma filter_shout_id_other (key : string) (events : list ShoutStatusLog) :
  Forall (fun e => combined_shout_id e <> key) events ->
  Query.filter_shout_id key events = [].
Proof.
  unfold Query.filter_shout_id.
  induction 1 as [|e events He _ IH]; [done|].
  rewrite filter_cons. now destruct (decide _).
Qed.

(** The greatest of the status strings of [STATUSES]. *)
Lemma success_greatest (code : string) :
  code ∈ STATUSES -> String.leb "e-success" code = true -> code = "e-success".
Proof.
  unfold STATUSES. intros H.
  repeat (apply elem_of_cons in H as [->|H]); try discriminate; [done|].
  now apply not_elem_of_nil in H.
Qed.

End LatestFacts.

(** X5.  In a datastore whose entities have distinct keys the lookup of
    the poll loop does not depend on the order of the entities at all: it
    returns the same entity for every arrangement of the same events. *)
Theorem latest_same_in_any_order (store store' : list ShoutStatusLog) (key : string) :
  NoDup (key_id <$> store) ->
  store' ≡ₚ store ->
  latest store' key = latest store key.
Proof.
  intros Hkeys HP.
  destruct (latest store key) as [m|] eqn:Hm, (latest store' key) as [m'|] eqn:Hm'.
  - f_equal.
    destruct (latest_Some _ _ _ Hm) as (Hin & Hk & Hmax).
    destruct (latest_Some _ _ _ Hm') as (Hin' & Hk' & Hmax').
    rewrite HP in Hin'.
    destruct (LatestFacts.precedes_antisym m' m) as [_ Hid].
    + apply Hmax'; [now rewrite HP|done].
    + now apply Hmax.
    + now apply (LatestFacts.fmap_inj_on key_id store).
  - exfalso. destruct (latest_Some _ _ _ Hm) as (Hin & Hk & _).
    apply (latest_None _ _ Hm' m); [now rewrite HP|done].
  - exfalso. destruct (latest_Some _ _ _ Hm') as (Hin & Hk & _).
    apply (latest_None _ _ Hm m'); [now rewrite <- HP|done].
  - done.
Qed.

Lemma latest_same_in_any_order_witness :
  NoDup (key_id <$> Sample.errors_store) /\
  latest (reverse Sample.errors_store) "B-7" = latest Sample.errors_store "B-7".
Proof.
  assert (NoDup (key_id <$> Sample.errors_store)) as H.
  { apply (bool_decide_unpack _). vm_compute. exact I. }
  split; [exact H|].
  apply (latest_same_in_any_order _ _ "B-7" H), reverse_Permutation.
Defined.

(** X6.  Appending events never lowers the status that the lookup returns
    for a job, and events of other jobs leave the lookup of the job as it
    was.  In particular, in a log whose statuses are those of [STATUSES],
    once the lookup returns a SUCCESS event it returns a SUCCESS event after
    any further appends. *)
Theorem latest_never_lowered (store events : list ShoutStatusLog)
    (key : string) (m : ShoutStatusLog) :
  latest store key = Some m ->
  (exists m', latest (store ++ events) key = Some m' /\
              String.leb (status m) (status m') = true) /\
  (Forall (fun e => combined_shout_id e <> key) events ->
   latest (store ++ events) key = Some m) /\
  (status m = "e-success" ->
   (forall x, x ∈ (store ++ events)%list -> status x ∈ STATUSES) ->
   exists m', latest (store ++ events) key = Some m' /\ status m' = "e-success").
Proof.
  intros Hm. destruct (latest_Some _ _ _ Hm) as (Hin & Hk & _).
  assert (exists m', latest (store ++ events) key = Some m' /\
                     String.leb (status m) (status m') = true) as Hup.
  { destruct (latest_is_Some (store ++ events) key m) as [m' Hm'];
      [apply elem_of_app; now left|done|].
    exists m'. split; [done|].
    apply (latest_highest _ _ _ _ Hm'); [apply elem_of_app; now left|done]. }
  split; [exact Hup|]. split.
  - intros Hother. rewrite latest_head in *. unfold Query.filter_shout_id in *.
    rewrite filter_app.
    change (filter (fun e => combined_shout_id e = key) events)
      with (Query.filter_shout_id key events).
    now rewrite LatestFacts.filter_shout_id_other, app_nil_r.
  - intros Hs Hvalid. destruct Hup as (m' & Hm' & Hle).
    exists m'. split; [done|].
    apply LatestFacts.success_greatest; [|now rewrite <- Hs].
    apply Hvalid. now apply (latest_Some _ _ _ Hm').
Qed.

Lemma latest_never_lowered_witness :
  latest [Sample.new_b7] "B-7" = Some Sample.new_b7 /\
  exists m', latest ([Sample.new_b7] ++ [Sample.error_b; Sample.other_job]) "B-7"
             = Some m' /\
             String.leb (status Sample.new_b7) (status m') = true.
Proof.
  split; [reflexivity|].
  apply (latest_never_lowered [Sample.new_b7] [Sample.error_b; Sample.other_job]
           "B-7" Sample.new_b7 eq_refl).
Defined.

(** ** What the handlers leave alone *)

Ltac framed :=
  intros [= _ <-]; cbn [purse_record datastore outbox];
  repeat split; eauto.

Lemma shout_submit_frame url_encode url_decode sys request w r w' :
  shout_submit url_encode url_decode sys request w = (r, w') ->
  purse_record w' = purse_record w /\
  (datastore w' = datastore w \/ exists e, datastore w' = (datastore w ++ [e])%list) /\
  (outbox w' = outbox w \/ exists m, outbox w' = (outbox w ++ [m])%list).
Proof.
  run_handler. rewrite STATUS_MAP_new.
  destruct (form request !! "token") as [tok|]; next; [|framed].
  destruct (url_decode tok !! "browserId") as [b|]; next; [|framed].
  destruct (form request !! "shoutId") as [s|]; next; [|framed].
  validate; [|framed]. validate; [|framed].
  destruct (form request !! "text") as [text|]; next; [|framed].
  destruct (purse_record w) as [[|first rest]|] eqn:Hp; next.
  - destruct (unawaited_put_lands sys); framed.
  - destruct (publish_ok sys); next; [framed|].
    destruct (unawaited_put_lands sys); framed.
  - destruct (unawaited_put_lands sys); framed.
Qed.

Lemma post_shout_status_frame sys request w r w' :
  post_shout_status sys request w = (r, w') ->
  purse_record w' = purse_record w /\ outbox w' = outbox w /\
  (datastore w' = datastore w \/ exists e, datastore w' = (datastore w ++ [e])%list) /\
  (forall e, r = Raise e -> w' = w).
Proof.
  run_handler.
  destruct (purse_record w) as [tokens|] eqn:Hp; next; [|framed].
  destruct (form request !! "token") as [token|]; next; [|framed].
  destruct (decide (token ∈ tokens)); next; [|framed].
  destruct (args request !! "browserId") as [b|]; next; [|framed].
  destruct (args request !! "shoutId") as [s|]; next; [|framed].
  validate; [|framed].
  destruct (form request !! "status") as [name|]; next; [|framed].
  destruct (STATUS_MAP !! name) as [code|]; next; [|framed].
  destruct (bool_decide _); cbv beta iota zeta;
    repeat (validate; [|framed]);
    (intros [= <- <-]; cbn [purse_record datastore outbox]; repeat split; eauto;
     intros ? [=]).
Qed.

Lemma filter_ext_elem {A} (P Q : A -> Prop) `{!forall x, Decision (P x)}
    `{!forall x, Decision (Q x)} (l : list A) :
  (forall x, x ∈ l -> P x <-> Q x) -> filter P l = filter Q l.
Proof.
  induction l as [|x l IH]; intros Hext; [done|].
  rewrite !filter_cons, IH by (intros y Hy; apply Hext; now right).
  destruct (decide (P x)) as [HP|HP], (decide (Q x)) as [HQ|HQ]; try done.
  - exfalso. apply HQ, Hext; [left|done].
  - exfalso. apply HP, Hext; [left|done].
Qed.

Lemma filter_none {A} (P : A -> Prop) `{!forall x, Decision (P x)} (l : list A) :
  (forall x, x ∈ l -> ~ P x) -> filter P l = [].
Proof.
  induction l as [|x l IH]; intros Hno; [done|].
  rewrite filter_cons, IH by (intros y Hy; apply Hno; now right).
  destruct (decide (P x)) as [HP|]; [|done]. exfalso. apply (Hno x); [left|done].
Qed.

Lemma foldl_delete_key (keys : list Z) (store : list ShoutStatusLog) :
  foldl (fun s k => delete_key k s) store keys
  = filter (fun e => key_id e ∉ keys) store.
Proof.
  revert store. induction keys as [|k keys IH]; intros store; simpl.
  - symmetry. induction store as [|e store IHs]; [done|].
    rewrite filter_cons_True; [now f_equal|apply not_elem_of_nil].
  - rewrite IH. unfold delete_key. rewrite list_filter_filter.
    apply list_filter_iff. intros e. rewrite not_elem_of_cons. tauto.
Qed.

(** X7.  The log is append-only but for the purge: serving a request
    either keeps the events already written, in place and unchanged, and
    adds at most one at the end, or is a purge, which only removes events. *)
Theorem log_is_append_only (w w' : World) :
  step w w' ->
  (datastore w `prefix_of` datastore w' /\
   (length (datastore w') <= S (length (datastore w)))%nat) \/
  (exists sys, w' = (purge sys w).2 /\
               datastore w' `sublist_of` datastore w).
Proof.
  assert (forall l l' : list ShoutStatusLog,
             l' = l \/ (exists e, l' = (l ++ [e])%list) ->
             l `prefix_of` l' /\ (length l' <= S (length l))%nat) as Hgrow.
  { intros l l' [->|[e ->]]; (split; [|rewrite ?length_app; simpl; lia]).
    - done.
    - now apply prefix_app_r. }
  intros [ue ud sys request w0 r w0' H | sys request w0 r w0' H | sys w0 r w0' H
         | token w0 r w0' H | token w0 r w0' H].
  - left. apply Hgrow. now apply shout_submit_frame in H.
  - left. apply Hgrow. now apply post_shout_status_frame in H.
  - right. exists sys. rewrite H. split; [done|].
    unfold purge in H. injection H as _ <-. cbn [datastore].
    rewrite foldl_delete_key. apply sublist_filter.
  - left. apply Hgrow. left. unfold rotate_token in H.
    destruct (Rotoken.rotate_token _ _ _); now injection H as _ <-.
  - left. apply Hgrow. left. unfold init_purse in H. now injection H as _ <-.
Qed.

Lemma log_is_append_only_witness :
  step {| datastore := []; purse_record := Some ["t1"]; outbox := [] |}
       SampleRun.after_report /\
  ([] `prefix_of` datastore SampleRun.after_report \/
   exists sys, SampleRun.after_report
               = (purge sys {| datastore := []; purse_record := Some ["t1"];
                               outbox := [] |}).2).
Proof.
  assert (step {| datastore := []; purse_record := Some ["t1"]; outbox := [] |}
               SampleRun.after_report) as Hstep.
  { apply (step_post_shout_status SampleRun.sys SampleRun.shouting _
             (Done {| body := ∅; code := 200 |})). reflexivity. }
  split; [exact Hstep|].
  destruct (log_is_append_only _ _ Hstep) as [[H _]|(sys & H & _)];
    [left; exact H|right; exists sys; exact H].
Defined.

(** ** purge *)

(** X8.  [purge] always succeeds and touches neither the purse nor the
    messages.  No event that stays is older than a day; when the keys of the
    entities are distinct, the events that stay are exactly those not older
    than a day, in their order; and purging again at the same time changes
    nothing. *)
Theorem purge_removes_the_old (sys : Sys) (w : World) :
  (purge sys w).1 = Done tt /\
  purse_record (purge sys w).2 = purse_record w /\
  outbox (purge sys w).2 = outbox w /\
  (forall e, e ∈ datastore (purge sys w).2 ->
             e ∈ datastore w /\ utcnow sys - one_day <= timestamp e) /\
  (NoDup (key_id <$> datastore w) ->
   datastore (purge sys w).2
   = filter (fun e => utcnow sys - one_day <= timestamp e) (datastore w)) /\
  purge sys (purge sys w).2 = (Done tt, (purge sys w).2).
Proof.
  unfold purge. cbn [fst snd datastore purse_record outbox].
  set (old := fun e : ShoutStatusLog => timestamp e < utcnow sys - one_day).
  rewrite foldl_delete_key.
  assert (forall e, e ∈ filter (fun e => key_id e ∉ key_id <$> filter old (datastore w))
                        (datastore w) ->
                    e ∈ datastore w /\ utcnow sys - one_day <= timestamp e) as Hyoung.
  { intros e [Hkey He]%list_elem_of_filter. split; [done|].
    destruct (Z.le_gt_cases (utcnow sys - one_day) (timestamp e)) as [|Hold]; [done|].
    exfalso. apply Hkey. apply list_elem_of_fmap_2.
    apply list_elem_of_filter. split; [exact Hold|done]. }
  repeat split; try done.
  - now apply Hyoung.
  - now apply Hyoung.
  - intros Hkeys. apply filter_ext_elem. intros e He. split.
    + intros Hkey. destruct (Z.le_gt_cases (utcnow sys - one_day) (timestamp e))
        as [|Hold]; [done|].
      exfalso. apply Hkey, list_elem_of_fmap_2, list_elem_of_filter. now split.
    + intros Hy (e' & Heq & [Hold' He']%list_elem_of_filter)%list_elem_of_fmap.
      assert (e = e') as <- by now apply (LatestFacts.fmap_inj_on key_id (datastore w)).
      unfold old in Hold'. lia.
  - f_equal. f_equal.
    assert (filter old (filter (fun e => key_id e ∉ key_id <$> filter old (datastore w))
                          (datastore w)) = []) as ->.
    { apply filter_none. intros e He%Hyoung. unfold old. lia. }
    done.
Qed.

(** ** The window of a token *)

Module WindowFacts.

Lemma elem_of_take_sub {A} (x : A) (n : nat) (l : list A) : x ∈ take n l -> x ∈ l.
Proof. intros (i & Hi & _)%elem_of_take. now apply list_elem_of_lookup_2 in Hi. Qed.

Lemma rotations_nil (self : Rotoken.t) (record : option (list string)) :
  rotations self [] record = Done record.
Proof. reflexivity. Qed.

End WindowFacts.

Lemma newest_token_window_aux (self : Rotoken.t) (token : string)
    (older news : list string) :
  1 <= Rotoken.max_tokens self ->
  token ∉ news ->
  exists tokens,
    rotations self news (Some (token :: older)) = Done (Some tokens) /\
    (token ∈ tokens <-> Z.of_nat (length news) < Rotoken.max_tokens self).
Proof.
  intros Hmax Hfresh. destruct news as [|t news].
  - exists (token :: older). split; [done|].
    split; [intros _; simpl; lia|]. intros _. left.
  - rewrite RotokenFacts.rotations_Some by (done || lia).
    eexists. split; [reflexivity|].
    set (n := Z.to_nat (Rotoken.max_tokens self)).
    set (news' := t :: news) in *.
    rewrite take_app, elem_of_app, length_reverse. split.
    + intros [Hin|Hin].
      * exfalso. apply Hfresh. apply WindowFacts.elem_of_take_sub in Hin.
        now rewrite elem_of_reverse in Hin.
      * destruct (n - length news')%nat eqn:E; [|lia].
        rewrite take_0 in Hin. now apply not_elem_of_nil in Hin.
    + intros Hlt. right.
      replace (n - length news')%nat with (S (n - length news' - 1)) by lia.
      left.
Qed.


(** X9.  The newest token of a record stays in the list for exactly
    [max_tokens - 1] further rotations: after rotating in tokens other than
    it, it is still one of the current tokens if and only if fewer than
    [max_tokens] tokens were rotated in. *)
Theorem newest_token_window (self : Rotoken.t) (token : string)
    (older news : list string) :
  1 <= Rotoken.max_tokens self ->
  token ∉ news ->
  exists tokens,
    rotations self news (Some (token :: older)) = Done (Some tokens) /\
    Rotoken.get_tokens (Some tokens) = Done tokens /\
    (token ∈ tokens <-> Z.of_nat (length news) < Rotoken.max_tokens self).
Proof.
  intros Hmax Hfresh.
  destruct (newest_token_window_aux self token older news Hmax Hfresh)
    as (tokens & Hrun & Hin).
  exists tokens. done.
Qed.

Lemma newest_token_window_witness :
  1 <= Rotoken.max_tokens Rotoken.default /\
  exists tokens,
    rotations Rotoken.default ["t4"; "t5"] (Some ["t3"; "t2"; "t1"])
    = Done (Some tokens) /\
    Rotoken.get_tokens (Some tokens) = Done tokens /\
    ("t3" ∈ tokens <-> Z.of_nat 2 < 3).
Proof.
  split; [simpl; lia|].
  apply (newest_token_window Rotoken.default "t3" ["t2"; "t1"] ["t4"; "t5"]).
  - simpl. lia.
  - intros Hin. apply (bool_decide_pack _) in Hin. vm_compute in Hin. exact Hin.
Defined.

(** ** The purse *)

Lemma step_purse (w w' : World) :
  step w w' ->
  purse_record w' = purse_record w \/
  (exists token tokens, purse_record w = Some tokens /\
                        purse_record w' = Some (take 3 (token :: tokens))) \/
  (exists token, purse_record w = None /\ purse_record w' = Some [token]).
Proof.
  intros [ue ud sys request w0 r w0' H | sys request w0 r w0' H | sys w0 r w0' H
         | token w0 r w0' H | token w0 r w0' H].
  - left. now apply shout_submit_frame in H.
  - left. now apply post_shout_status_frame in H.
  - left. unfold purge in H. now injection H as _ <-.
  - unfold rotate_token, Rotoken.rotate_token in H.
    destruct (purse_record w0) as [tokens|] eqn:Hp.
    + injection H as _ <-. right. left. exists token, tokens. done.
    + injection H as _ <-. now left.
  - unfold init_purse in H. injection H as _ <-. cbn [purse_record].
    destruct (purse_record w0) as [tokens|] eqn:Hp; [now left|].
    right. right. now exists token.
Qed.

(** X10.  In every world the handlers can reach, the purse, once
    initialised, holds at least one token and at most three, so that
    [purse.get_tokens()[0]] of [shout] finds a token; [init] does not
    replace an initialised purse; and before [init], [rotate_token] fails
    with an AttributeError and changes nothing. *)
Theorem purse_never_empty (w : World) :
  reachable w ->
  (forall tokens,
      purse_record w = Some tokens ->
      (1 <= length tokens <= 3)%nat /\
      (exists first later, get_purse_tokens w = (Done (first :: later), w)) /\
      (forall token, init_purse token w = (Done tt, w))) /\
  (purse_record w = None ->
   forall token, rotate_token token w = (Raise AttributeError, w)).
Proof.
  intros Hreach.
  assert (forall tokens, purse_record w = Some tokens ->
                         (1 <= length tokens <= 3)%nat) as Hlen.
  { unfold reachable in Hreach.
    apply (rtc_ind_r (R := step)
             (fun w => forall tokens, purse_record w = Some tokens ->
                                      (1 <= length tokens <= 3)%nat)
             initial_world); [| |exact Hreach].
    - intros tokens [=].
    - intros w1 w2 _ Hstep IH tokens Hp.
      apply step_purse in Hstep
        as [Heq|[(token & tokens' & Hp1 & Hp2)|(token & _ & Hp2)]].
      + apply IH. congruence.
      + rewrite Hp2 in Hp. injection Hp as <-. specialize (IH _ Hp1).
        simpl. rewrite length_take. lia.
      + rewrite Hp2 in Hp. injection Hp as <-. simpl. lia. }
  split.
  - intros tokens Hp. split; [now apply Hlen|]. split.
    + specialize (Hlen _ Hp). destruct tokens as [|first later]; [simpl in Hlen; lia|].
      exists first, later. unfold get_purse_tokens. now rewrite Hp.
    + intros token. unfold init_purse. rewrite Hp.
      destruct w; simpl in *. now subst.
  - intros Hp token. unfold rotate_token. now rewrite Hp.
Qed.

Lemma purse_never_empty_witness :
  reachable SampleRun.after_report /\
  (1 <= length ["t1"] <= 3)%nat /\
  init_purse "t9" SampleRun.after_report = (Done tt, SampleRun.after_report).
Proof.
  split; [apply after_report_reachable|].
  destruct (purse_never_empty SampleRun.after_report after_report_reachable)
    as [H _].
  destruct (H ["t1"] eq_refl) as (Hlen & _ & Hinit).
  split; [exact Hlen|apply Hinit].
Defined.

(** ** A submission and its callback *)

Lemma shout_submit_Done url_encode url_decode sys request w browser_id shout_id w' :
  shout_submit url_encode url_decode sys request w = (Done (browser_id, shout_id), w') ->
  exists first later m,
    purse_record w = Some (first :: later) /\
    purse_record w' = purse_record w /\
    outbox w' = (outbox w ++ [m])%list /\
    postStatusToken m = first /\
    topic m = TOPIC /\
    deadline m = utctimestamp sys + TIMEOUT_SECONDS.
Proof.
  run_handler. rewrite STATUS_MAP_new.
  destruct (form request !! "token") as [tok|]; next; [|discriminate].
  destruct (url_decode tok !! "browserId") as [b|]; next; [|discriminate].
  destruct (form request !! "shoutId") as [s|]; next; [|discriminate].
  validate; [|discriminate]. validate; [|discriminate].
  destruct (form request !! "text") as [text|]; next; [|discriminate].
  destruct (purse_record w) as [[|first later]|] eqn:Hp; next; try discriminate.
  destruct (publish_ok sys); next; [|discriminate].
  intros [= _ _ <-]. cbn [purse_record outbox].
  eexists first, later, _. repeat split; try done.
Qed.

Lemma rotate_tokens_rotations (news : list string) :
  forall (w w' : World),
    rotate_tokens news w = (Done tt, w') ->
    rotations Rotoken.default news (purse_record w) = Done (purse_record w') /\
    datastore w' = datastore w /\ outbox w' = outbox w.
Proof.
  induction news as [|t news IH]; intros w w'.
  - intros [= <-]. done.
  - cbn [rotate_tokens]. unfold mbind, M_bind.
    destruct (rotate_token t w) as [[[]|e] w1] eqn:Hrot; [|discriminate].
    intros H. destruct (IH _ _ H) as (Hrec & Hd & Ho).
    unfold rotate_token in Hrot.
    destruct (Rotoken.rotate_token Rotoken.default t (purse_record w))
      as [record|e] eqn:Hr; [|discriminate].
    injection Hrot as <-. cbn [purse_record datastore outbox] in *.
    unfold rotations in *. cbn [foldl]. rewrite Hr. done.
Qed.

(** X11.  The token that [shout] attaches to the message of a job is the
    newest of the purse, and it authorizes the callback of that job through
    the next two rotations of the purse: after fewer than three rotations
    with other tokens a callback that presents it and describes an event
    whose indexed strings are within ndb's 1500 bytes is accepted and the
    event written, and after three or more it is refused with 403 and
    nothing is written. *)
Theorem submitted_token_window url_encode url_decode sys request w
    browser_id shout_id w1 news w2 :
  shout_submit url_encode url_decode sys request w
  = (Done (browser_id, shout_id), w1) ->
  rotate_tokens news w1 = (Done tt, w2) ->
  exists first later m,
    purse_record w = Some (first :: later) /\
    outbox w1 = (outbox w ++ [m])%list /\
    postStatusToken m = first /\
    (first ∉ news ->
     forall sys' callback,
       form callback !! "token" = Some first ->
       ((length news < 3)%nat ->
        forall b s st,
          describes callback b s st ->
          indexable (described_event (new_id sys') (utcnow sys') b s st
                       (form callback !! "result") (form callback !! "host")) ->
          post_shout_status sys' callback w2
          = (Done {| body := ∅; code := 200 |},
             {| datastore :=
                  datastore w2 ++
                  [described_event (new_id sys') (utcnow sys') b s st
                     (form callback !! "result") (form callback !! "host")];
                purse_record := purse_record w2;
                outbox := outbox w2 |})) /\
       ((3 <= length news)%nat ->
        post_shout_status sys' callback w2 = (Raise (HTTPException 403), w2))).
Proof.
  intros Hsub Hrot.
  destruct (shout_submit_Done _ _ _ _ _ _ _ _ Hsub)
    as (first & later & m & Hp & Hp1 & Hout & Htok & _ & _).
  exists first, later, m. split; [done|]. split; [done|]. split; [done|].
  intros Hfresh sys' callback Hpresented.
  destruct (rotate_tokens_rotations _ _ _ Hrot) as (Hrec & _ & _).
  rewrite Hp1, Hp in Hrec.
  destruct (newest_token_window_aux Rotoken.default first later news)
    as (tokens & Hrun & Hin); [simpl; lia|done|].
  rewrite Hrun in Hrec. injection Hrec as Hp2. symmetry in Hp2. split.
  - intros Hlt b s st Hdesc Hfit.
    apply (post_shout_status_accepts sys' callback w2 tokens); [done| |done|done].
    exists first. split; [done|]. apply Hin. simpl. lia.
  - intros Hge. apply (post_shout_status_rejects sys' callback w2 tokens); [done|].
    intros (t & Ht & Hint). rewrite Hpresented in Ht. injection Ht as <-.
    apply Hin in Hint. simpl in Hint. lia.
Qed.

Lemma submitted_token_window_witness :
  (shout_submit SamplePoll.url_encode SampleCodec.url_decode SampleCallback.sys
     SampleWindow.submit SampleCallback.world).1 = Done ("B", "0") /\
  exists w1 w2,
    shout_submit SamplePoll.url_encode SampleCodec.url_decode SampleCallback.sys
      SampleWindow.submit SampleCallback.world = (Done ("B", "0"), w1) /\
    rotate_tokens ["t4"; "t5"] w1 = (Done tt, w2) /\
    exists r w3,
      post_shout_status SampleCallback.sys SampleWindow.callback w2 = (Done r, w3).
Proof.
  split; [reflexivity|].
  set (w1 := (shout_submit SamplePoll.url_encode SampleCodec.url_decode
                SampleCallback.sys SampleWindow.submit SampleCallback.world).2).
  set (w2 := (rotate_tokens ["t4"; "t5"] w1).2).
  assert (shout_submit SamplePoll.url_encode SampleCodec.url_decode
            SampleCallback.sys SampleWindow.submit SampleCallback.world
          = (Done ("B", "0"), w1)) as Hsub by reflexivity.
  assert (rotate_tokens ["t4"; "t5"] w1 = (Done tt, w2)) as Hrot by reflexivity.
  exists w1, w2. split; [exact Hsub|]. split; [exact Hrot|].
  destruct (submitted_token_window _ _ _ _ _ _ _ _ _ _ Hsub Hrot)
    as (first & later & m & [= <- <-] & _ & _ & Hwindow).
  destruct (Hwindow) with (sys' := SampleCallback.sys) (callback := SampleWindow.callback)
    as [Hacc _].
  - intros Hin. apply (bool_decide_pack _) in Hin. vm_compute in Hin. exact Hin.
  - reflexivity.
  - eexists _, _. apply (Hacc ltac:(simpl; lia) "B" "0" Status.SUCCESS).
    + repeat split.
    + within_limits.
Defined.

(** ** Failures of the callback *)

(** X12.  A callback that fails writes nothing: whatever
    [post_shout_status] raises, the world is as before.  It raises an
    AttributeError, a 500 for the worker, while the purse is not
    initialised.  With a valid token it fails in the order of its
    statements: 400 when the query string lacks browserId or shoutId;
    BadValueError, a 500, when the combined key is longer than the 1500
    bytes of an indexed string; 400 when the form lacks status; KeyError,
    again a 500, when the status is none of the five names; and
    BadValueError when the event described has an error message or a host
    longer than 1500 bytes. *)
Theorem post_shout_status_failures (sys : Sys) (request : Request) (w : World) :
  (forall e w', post_shout_status sys request w = (Raise e, w') -> w' = w) /\
  (purse_record w = None ->
   post_shout_status sys request w = (Raise AttributeError, w)) /\
  (forall tokens,
      purse_record w = Some tokens -> presented_in request tokens ->
      (args request !! "browserId" = None \/ args request !! "shoutId" = None ->
       post_shout_status sys request w = (Raise (HTTPException 400), w)) /\
      (forall browser_id shout_id,
          args request !! "browserId" = Some browser_id ->
          args request !! "shoutId" = Some shout_id ->
          ((MAX_STRING_LENGTH < String.length (combine_ids browser_id shout_id))%nat ->
           post_shout_status sys request w = (Raise BadValueError, w)) /\
          ((String.length (combine_ids browser_id shout_id) <= MAX_STRING_LENGTH)%nat ->
           (form request !! "status" = None ->
            post_shout_status sys request w = (Raise (HTTPException 400), w)) /\
           (forall name,
               form request !! "status" = Some name ->
               STATUS_MAP !! name = None ->
               post_shout_status sys request w = (Raise KeyError, w)) /\
           (forall st,
               form request !! "status" = Some (Status.name st) ->
               ~ indexable
                   (described_event (new_id sys) (utcnow sys) browser_id shout_id st
                      (form request !! "result") (form request !! "host")) ->
               post_shout_status sys request w = (Raise BadValueError, w))))) /\
  http_status AttributeError = 500 /\ http_status KeyError = 500 /\
  http_status BadValueError = 500.
Proof.
  split; [|split; [|split; [|done]]].
  - intros e w' H. apply post_shout_status_frame in H as (_ & _ & _ & H).
    now apply (H e).
  - intros Hp. run_handler. now rewrite Hp.
  - intros tokens Hp (token & Ht & Hin). split.
    + intros Hmissing. run_handler. rewrite Hp, Ht.
      destruct (decide (token ∈ tokens)); [|done]. next.
      destruct (args request !! "browserId") as [b|]; next; [|done].
      destruct (args request !! "shoutId") as [s|]; next; [|done].
      destruct Hmissing; discriminate.
    + intros b s Hb Hs. split; [|intros Hkey; split; [|split]].
      * intros Hover. run_handler. rewrite Hp, Ht.
        destruct (decide (token ∈ tokens)); [|done].
        now rewrite Hb, Hs, (validate_indexed_over _ _ Hover).
      * intros Hnone. run_handler. rewrite Hp, Ht.
        destruct (decide (token ∈ tokens)); [|done].
        now rewrite Hb, Hs, (validate_indexed_fits _ _ Hkey), Hnone.
      * intros name Hname Hunknown. run_handler. rewrite Hp, Ht.
        destruct (decide (token ∈ tokens)); [|done].
        now rewrite Hb, Hs, (validate_indexed_fits _ _ Hkey), Hname, Hunknown.
      * intros st Hname Hno. run_handler. rewrite Hp, Ht.
        destruct (decide (token ∈ tokens)); [|done].
        rewrite Hb, Hs, (validate_indexed_fits _ _ Hkey), Hname.
        rewrite StatusFacts.STATUS_MAP_lookup, !is_error_name.
        destruct st; cbv beta iota zeta;
          repeat match goal with
                 | |- context [validate_indexed_opt ?v ?w0] =>
                     destruct (validate_indexed_opt_spec v w0) as [[-> ?]|[-> _]];
                     cbv beta iota zeta; [|reflexivity]
                 end;
          exfalso; apply Hno; (split; [exact Hkey|split]);
          cbn [described_event error host]; auto; intros ? [=].
Qed.

(** ** Requests that shout refuses *)

(** X13.  [shout] answers 400 to a request without a token, with a token
    that decodes to no browserId, or without a shoutId, and it does so
    before it writes to the datastore, publishes or polls: the world is
    unchanged and no sleep is made. *)
Theorem shout_refuses_incomplete_requests url_encode url_decode
    (env : Env) (fuel : nat) (sys : Sys) (request : Request) (w : World) :
  form request !! "token" = None \/
  (exists tok, form request !! "token" = Some tok /\
               url_decode tok !! "browserId" = None) \/
  form request !! "shoutId" = None ->
  shout_submit url_encode url_decode sys request w
  = (Raise (HTTPException 400), w) /\
  shout url_encode url_decode env fuel sys request w
  = Some (Raise (HTTPException 400), [], w).
Proof.
  intros H.
  assert (shout_submit url_encode url_decode sys request w
          = (Raise (HTTPException 400), w)) as Hsub.
  { run_handler. rewrite STATUS_MAP_new.
    destruct (form request !! "token") as [tok|] eqn:Ht; next; [|done].
    destruct (url_decode tok !! "browserId") as [b|] eqn:Hb; next; [|done].
    destruct (form request !! "shoutId") as [s|] eqn:Hs; next; [|done].
    destruct H as [H|[(tok' & [= <-] & H)|H]]; congruence. }
  split; [done|]. unfold shout. now rewrite Hsub.
Qed.

Lemma shout_refuses_incomplete_requests_witness :
  form (SampleCodec.shout_request "shoutId=0") !! "token" = Some "shoutId=0" /\
  SampleCodec.url_decode "shoutId=0" !! "browserId" = None /\
  shout SamplePoll.url_encode SampleCodec.url_decode SamplePoll.env 20
    SampleCallback.sys (SampleCodec.shout_request "shoutId=0") SampleCallback.world
  = Some (Raise (HTTPException 400), [], SampleCallback.world).
Proof.
  split; [reflexivity|]. split; [reflexivity|].
  apply (shout_refuses_incomplete_requests SamplePoll.url_encode
           SampleCodec.url_decode SamplePoll.env 20 SampleCallback.sys).
  right. left. exists "shoutId=0". split; reflexivity.
Defined.

(** X25.  The other failures of [shout].  With the token, the browser id
    and the shout id in place, [shout] raises BadValueError, a 500, when the
    combined key or the name of the host is longer than the 1500 bytes of
    an indexed string, and answers 400 when the form has no text; in each
    of these cases nothing is written and nothing is published, although
    the put was queued before the text was looked up.  When it fails after
    that, the error is an AttributeError (no purse), an IndexError (an
    empty purse) or Pub/Sub's, no message is published, and the log gains
    at most the NEW event of the job. *)
Theorem shout_failures_publish_nothing url_encode url_decode (sys : Sys)
    (request : Request) (w : World) (tok browser_id shout_id : string) :
  form request !! "token" = Some tok ->
  url_decode tok !! "browserId" = Some browser_id ->
  form request !! "shoutId" = Some shout_id ->
  ((MAX_STRING_LENGTH < String.length (combine_ids browser_id shout_id))%nat ->
   shout_submit url_encode url_decode sys request w = (Raise BadValueError, w)) /\
  ((String.length (combine_ids browser_id shout_id) <= MAX_STRING_LENGTH)%nat ->
   ((MAX_STRING_LENGTH < String.length (hostname sys))%nat ->
    shout_submit url_encode url_decode sys request w = (Raise BadValueError, w)) /\
   ((String.length (hostname sys) <= MAX_STRING_LENGTH)%nat ->
    (form request !! "text" = None ->
     shout_submit url_encode url_decode sys request w
     = (Raise (HTTPException 400), w)) /\
    (forall e w',
        is_Some (form request !! "text") ->
        shout_submit url_encode url_decode sys request w = (Raise e, w') ->
        (e = AttributeError \/ e = IndexError \/ e = TransportError) /\
        outbox w' = outbox w /\
        purse_record w' = purse_record w /\
        (datastore w' = datastore w \/
         datastore w'
         = (datastore w ++
            [ {| key_id := new_id sys;
                 combined_shout_id := combine_ids browser_id shout_id;
                 status := "a-new";
                 timestamp := utcnow sys;
                 error := None;
                 result := None;
                 host := Some (hostname sys) |} ])%list)))).
Proof.
  intros Htok Hb Hs. split; [|intros Hkey; split; [|intros Hhost; split]].
  - intros Hover. run_handler. rewrite Htok. next. rewrite Hb. next.
    rewrite Hs. next. now rewrite (validate_indexed_over _ _ Hover).
  - intros Hover. run_handler. rewrite Htok. next. rewrite Hb. next.
    rewrite Hs. next. rewrite (validate_indexed_fits _ _ Hkey). next.
    rewrite STATUS_MAP_new. next. now rewrite (validate_indexed_over _ _ Hover).
  - intros Hnone. run_handler. rewrite Htok. next. rewrite Hb. next.
    rewrite Hs. next. rewrite (validate_indexed_fits _ _ Hkey). next.
    rewrite STATUS_MAP_new. next. rewrite (validate_indexed_fits _ _ Hhost). next.
    now rewrite Hnone.
  - intros e w' [text Htext]. run_handler. rewrite Htok. next. rewrite Hb. next.
    rewrite Hs. next. rewrite (validate_indexed_fits _ _ Hkey). next.
    rewrite STATUS_MAP_new. next. rewrite (validate_indexed_fits _ _ Hhost). next.
    rewrite Htext. next.
    destruct (purse_record w) as [[|first later]|] eqn:Hp; next.
    + destruct (unawaited_put_lands sys); intros [= <- <-];
        cbn [outbox purse_record datastore]; rewrite ?Hp; auto 10.
    + destruct (publish_ok sys); next; [discriminate|].
      destruct (unawaited_put_lands sys); intros [= <- <-];
        cbn [outbox purse_record datastore]; rewrite ?Hp; auto 10.
    + destruct (unawaited_put_lands sys); intros [= <- <-];
        cbn [outbox purse_record datastore]; rewrite ?Hp; auto 10.
Qed.

Lemma shout_failures_publish_nothing_witness :
  (String.length (combine_ids "B" "0") <= MAX_STRING_LENGTH)%nat /\
  (String.length (hostname SampleCallback.sys) <= MAX_STRING_LENGTH)%nat /\
  shout_submit SamplePoll.url_encode SampleCodec.url_decode SampleCallback.sys
    SampleNoText.request SampleCallback.world
  = (Raise (HTTPException 400), SampleCallback.world).
Proof.
  assert (String.length (combine_ids "B" "0") <= MAX_STRING_LENGTH)%nat as Hkey
    by (apply Nat.leb_le; vm_compute; reflexivity).
  assert (String.length (hostname SampleCallback.sys) <= MAX_STRING_LENGTH)%nat
    as Hhost by (apply Nat.leb_le; vm_compute; reflexivity).
  split; [exact Hkey|]. split; [exact Hhost|].
  destruct (shout_failures_publish_nothing SamplePoll.url_encode
              SampleCodec.url_decode SampleCallback.sys SampleNoText.request
              SampleCallback.world "browserId=B" "B" "0"
              eq_refl eq_refl eq_refl) as (_ & Hrest).
  destruct (Hrest Hkey) as (_ & Hrest').
  destruct (Hrest' Hhost) as (Hnotext & _).
  apply Hnotext. reflexivity.
Defined.

(** ** More on the poll loop *)

Lemma status_name_valid (e : ShoutStatusLog) :
  status e ∈ STATUSES -> exists name, status_name e = Some name.
Proof.
  intros (s & Hs)%StatusFacts.elem_of_STATUSES.
  exists (Status.name s). unfold status_name. rewrite Hs. now destruct s.
Qed.

Section PollMore.

Variable url_encode : gmap string string -> string.
Variable url_decode : string -> gmap string string.
Variable env : Env.
Variables browser_id shout_id last_status : string.

(** Quiet checks before the 45 seconds only add their sleeps. *)
Lemma poll_loop_quiet_prefix (n : nat) :
  forall (fuel i : nat) (sleep_seconds : Q) (response : gmap string value),
    response !! "status" = Some (VStr last_status) ->
    (forall j, (j < n)%nat ->
               quiet_at env (combine_ids browser_id shout_id) last_status (i + j) /\
               (clock_at env (i + j) - start_timestamp env < 45)%Q) ->
    poll_loop url_encode env browser_id shout_id last_status (n + fuel) i
      sleep_seconds response
    = match poll_loop url_encode env browser_id shout_id last_status fuel (i + n)
              (sleep_after sleep_seconds n) response with
      | Some (r, sleeps) => Some (r, sleeps_from sleep_seconds n ++ sleeps)
      | None => None
      end.
Proof.
  induction n as [|n IH]; intros fuel i sl response Hresp Hquiet.
  - rewrite Nat.add_0_r. cbn [sleep_after sleeps_from Nat.add].
    destruct (poll_loop _ _ _ _ _ fuel i sl response) as [[r sleeps]|]; done.
  - cbn [Nat.add]. rewrite poll_loop_quiet; [|done|].
    2:{ destruct (Hquiet 0%nat ltac:(lia)) as [H _]. now rewrite Nat.add_0_r in H. }
    assert (Qle_bool 45 (clock_at env i - start_timestamp env) = false) as ->.
    { destruct (Qle_bool _ _) eqn:E; [|done]. apply Qle_bool_iff in E.
      destruct (Hquiet 0%nat ltac:(lia)) as [_ H]. rewrite Nat.add_0_r in H.
      apply Qle_not_lt in E. now exfalso. }
    rewrite IH; [|done|].
    2:{ intros j Hj. replace (S i + j)%nat with (i + S j)%nat by lia.
        apply Hquiet. lia. }
    replace (S i + n)%nat with (i + S n)%nat by lia.
    cbn [sleep_after sleeps_from].
    destruct (poll_loop _ _ _ _ _ fuel _ _ response) as [[r sleeps]|]; done.
Qed.

(** X14.  The loop answers at the first check that shows news.  If the
    first n checks come before the 45 seconds and show neither a terminal
    event nor a change, and the next query finds an event whose status name
    is success, fatal or other than the last known status, the loop returns
    after exactly n sleeps: 200 with the result for success, 200 with the
    error for fatal, and otherwise 202 with the new status, the error of the
    event and a nextLink whose token carries the new status. *)
Theorem poll_answers_at_first_news (n fuel : nat) (top : ShoutStatusLog) (st : string) :
  (n < fuel)%nat ->
  (forall i, (i < n)%nat ->
             quiet_at env (combine_ids browser_id shout_id) last_status i /\
             (clock_at env i - start_timestamp env < 45)%Q) ->
  latest (datastore_at env n) (combine_ids browser_id shout_id) = Some top ->
  status_name top = Some st ->
  st = "success" \/ st = "fatal" \/ st <> last_status ->
  exists r,
    poll_shout_status url_encode env fuel browser_id shout_id last_status
    = Some (Done r, sleeps_from (1 # 10) n) /\
    body r !! "status" = Some (VStr st) /\
    body r !! "shoutId" = Some (VStr shout_id) /\
    (st = "success" ->
     code r = 200 /\ body r !! "result" = Some (of_property (result top)) /\
     body r !! "error" = None /\ body r !! "nextLink" = None) /\
    (st = "fatal" ->
     code r = 200 /\ body r !! "error" = Some (of_property (error top)) /\
     body r !! "result" = None /\ body r !! "nextLink" = None) /\
    (st <> "success" -> st <> "fatal" ->
     code r = 202 /\ body r !! "error" = Some (of_property (error top)) /\
     body r !! "result" = None /\
     body r !! "nextLink"
     = Some (VLink "shout_status" "POST"
               (url_encode (<["browserId" := browser_id]>
                            (<["shoutId" := shout_id]>
                            (<["status" := st]> ∅)))))).
Proof.
  intros Hfuel Hquiet Htop Hname Hnews. unfold poll_shout_status.
  replace fuel with (n + S (fuel - n - 1))%nat by lia.
  rewrite poll_loop_quiet_prefix; [|done|exact Hquiet].
  cbn [Nat.add poll_loop]. rewrite latest_entities_latest, Htop, Hname.
  destruct (String.eqb_spec st "success") as [->|Hs].
  { eexists. rewrite app_nil_r. split; [reflexivity|]. cbn [body code].
    repeat split; try done. }
  destruct (String.eqb_spec st "fatal") as [->|Hf].
  { eexists. rewrite app_nil_r. split; [reflexivity|]. cbn [body code].
    repeat split; try done. }
  destruct Hnews as [?|[?|Hne]]; [done..|].
  destruct (String.eqb_spec last_status st) as [<-|_]; [done|]. cbn [negb].
  eexists. rewrite app_nil_r. split; [reflexivity|].
  cbn [with_next_link body code].
  split; [done|]. split; [done|]. split; [done|]. split; [done|].
  intros _ _. repeat split; done.
Qed.

End PollMore.

Lemma sample_change_quiet (i : nat) :
  (i < 2)%nat ->
  quiet_at SampleChange.env (combine_ids "B" "9") "new" i /\
  (clock_at SampleChange.env i - start_timestamp SampleChange.env < 45)%Q.
Proof.
  intros Hi. destruct i as [|[|i]]; [| |lia]; (split; [|vm_compute; reflexivity]);
    unfold quiet_at; cbn; repeat split; discriminate.
Qed.

Lemma poll_answers_at_first_news_witness :
  latest (datastore_at SampleChange.env 2) (combine_ids "B" "9")
  = Some SampleChange.shouting /\
  exists r,
    poll_shout_status SamplePoll.url_encode SampleChange.env 5 "B" "9" "new"
    = Some (Done r, sleeps_from (1 # 10) 2) /\
    body r !! "status" = Some (VStr "shouting") /\
    code r = 202.
Proof.
  split; [reflexivity|].
  destruct (poll_answers_at_first_news SamplePoll.url_encode SampleChange.env
              "B" "9" "new" 2 5 SampleChange.shouting "shouting")
    as (r & Hrun & Hst & _ & _ & _ & Hchange).
  - lia.
  - exact sample_change_quiet.
  - reflexivity.
  - reflexivity.
  - right. right. discriminate.
  - exists r. split; [exact Hrun|]. split; [exact Hst|].
    apply Hchange; discriminate.
Defined.

Section PollAnswers.

Variable url_encode : gmap string string -> string.
Variable url_decode : string -> gmap string string.
Variable env : Env.
Variables browser_id shout_id last_status : string.

(** The loop raises only on an event whose status has no name. *)
Lemma poll_loop_Raise (fuel : nat) :
  forall (i : nat) (sleep_seconds : Q) (response : gmap string value)
         (e : exception) (sleeps : list Q),
    poll_loop url_encode env browser_id shout_id last_status fuel i
      sleep_seconds response = Some (Raise e, sleeps) ->
    exists j top,
      latest (datastore_at env j) (combine_ids browser_id shout_id) = Some top /\
      status_name top = None.
Proof.
  induction fuel as [|fuel IH]; intros i sl response e sleeps; [discriminate|].
  cbn [poll_loop]. rewrite latest_entities_latest.
  assert (forall response',
             (if Qle_bool 45 (clock_at env i - start_timestamp env)
              then Some (Done (with_next_link url_encode browser_id shout_id response'),
                         @nil Q)
              else
                match poll_loop url_encode env browser_id shout_id last_status fuel (S i)
                        (Qmin 5 (sl * 2)) response' with
                | Some (r, sleeps) => Some (r, sl :: sleeps)
                | None => None
                end) = Some (Raise e, sleeps) ->
             exists j top,
               latest (datastore_at env j) (combine_ids browser_id shout_id) = Some top /\
               status_name top = None) as Hretry.
  { intros response'. destruct (Qle_bool _ _); [discriminate|].
    destruct (poll_loop _ _ _ _ _ fuel _ _ response') as [[r' sleeps']|] eqn:Hrec;
      [|discriminate].
    intros [= -> _]. now apply (IH _ _ _ _ _ Hrec). }
  destruct (latest _ _) as [top|] eqn:Htop; [|apply Hretry].
  destruct (status_name top) as [st|] eqn:Hst; [|intros _; eauto].
  destruct (String.eqb st "success"); [discriminate|].
  destruct (String.eqb st "fatal"); [discriminate|].
  destruct (negb (String.eqb last_status st)); [discriminate|apply Hretry].
Qed.


(** X16.  A nextLink resumes the poll with no other state.  Its token
    encodes the browser id, the shout id and the status of the response that
    carries it; and when url_decode inverts url_encode on that token,
    [shout_status], given the token, polls the same job with that status as
    the last known one. *)
Theorem next_link_resumes_poll (fuel : nat) (r : Response) (sleeps : list Q)
    (link : value) :
  poll_shout_status url_encode env fuel browser_id shout_id last_status
  = Some (Done r, sleeps) ->
  body r !! "nextLink" = Some link ->
  exists st,
    body r !! "status" = Some (VStr st) /\
    link = VLink "shout_status" "POST"
             (url_encode (<["browserId" := browser_id]>
                          (<["shoutId" := shout_id]>
                          (<["status" := st]> ∅)))) /\
    (url_decode (url_encode (<["browserId" := browser_id]>
                             (<["shoutId" := shout_id]>
                             (<["status" := st]> ∅))))
     = <["browserId" := browser_id]>
       (<["shoutId" := shout_id]> (<["status" := st]> ∅)) ->
     forall env' fuel' request,
       form request !! "token"
       = Some (url_encode (<["browserId" := browser_id]>
                           (<["shoutId" := shout_id]>
                           (<["status" := st]> ∅)))) ->
       shout_status url_encode url_decode env' fuel' request
       = poll_shout_status url_encode env' fuel' browser_id shout_id st).
Proof.
  intros Hrun Hlink. unfold poll_shout_status in Hrun.
  assert (forall st response,
             response !! "status" = Some (VStr st) ->
             body (with_next_link url_encode browser_id shout_id response)
               !! "nextLink" = Some link ->
             link = VLink "shout_status" "POST"
                      (url_encode (<["browserId" := browser_id]>
                                   (<["shoutId" := shout_id]>
                                   (<["status" := st]> ∅))))) as Htoken.
  { intros st response Hst. unfold with_next_link, status_of. cbn [body].
    rewrite lookup_insert_eq, Hst. congruence. }
  assert (forall st,
             url_decode (url_encode (<["browserId" := browser_id]>
                                     (<["shoutId" := shout_id]>
                                     (<["status" := st]> ∅))))
             = <["browserId" := browser_id]>
               (<["shoutId" := shout_id]> (<["status" := st]> ∅)) ->
             forall env' fuel' request,
               form request !! "token"
               = Some (url_encode (<["browserId" := browser_id]>
                                   (<["shoutId" := shout_id]>
                                   (<["status" := st]> ∅)))) ->
               shout_status url_encode url_decode env' fuel' request
               = poll_shout_status url_encode env' fuel' browser_id shout_id st)
    as Hresume.
  { intros st Hcodec env' fuel' request Htok. unfold shout_status.
    rewrite Htok, Hcodec. reflexivity. }
  apply poll_loop_shapes in Hrun
    as [(top & ->)|[(top & ->)|[(top & st & _ & _ & _ & ->)| ->]]]; [| | | |done].
  - discriminate Hlink.
  - discriminate Hlink.
  - exists st. split; [done|]. split; [|apply Hresume].
    now apply (Htoken st) in Hlink.
  - exists last_status. split; [done|]. split; [|apply Hresume].
    now apply (Htoken last_status) in Hlink.
Qed.

End PollAnswers.

Lemma backoff_le_5 (i : nat) : (backoff i <= 5)%Q.
Proof. unfold backoff. apply Q.le_min_l. Qed.

Lemma backoff_nonneg (i : nat) : (0 <= backoff i)%Q.
Proof.
  unfold backoff. apply Q.min_glb; [lra|].
  assert (0 < 2 ^ Z.of_nat i)%Q by (apply Qpower_0_lt; reflexivity). lra.
Qed.




Lemma next_link_resumes_poll_witness :
  poll_shout_status SamplePoll.url_encode SamplePoll.env 1 "B" "7" "new"
  = Some (Done SamplePoll.changed, []) /\
  is_Some (body SamplePoll.changed !! "nextLink") /\
  shout_status SamplePoll.url_encode SampleCodec.url_decode SampleClock.env 15
    SampleClock.resume
  = poll_shout_status SamplePoll.url_encode SampleClock.env 15 "B" "7" "error".
Proof.
  split; [reflexivity|]. split; [eexists; reflexivity|].
  destruct (next_link_resumes_poll SamplePoll.url_encode SampleCodec.url_decode
              SamplePoll.env "B" "7" "new" 1 SamplePoll.changed [] _
              eq_refl eq_refl) as (st & Hst & _ & Hresume).
  injection Hst as <-.
  apply Hresume; reflexivity.
Defined.

(** ** The time spent asleep *)




(** ** The client and the server *)

Lemma poll_loop_raises_IndexError url_encode env browser_id shout_id last_status
    (fuel : nat) :
  forall (i : nat) (sleep_seconds : Q) (response : gmap string value)
         (e : exception) (sleeps : list Q),
    poll_loop url_encode env browser_id shout_id last_status fuel i
      sleep_seconds response = Some (Raise e, sleeps) ->
    e = IndexError.
Proof.
  induction fuel as [|fuel IH]; intros i sl response e sleeps H; [discriminate|].
  apply poll_loop_inv in H
    as [(? & _ & [=])|[(? & _ & [=])|[(? & ? & _ & _ & _ & _ & [=])
       |[(_ & [= ->])|H]]]]; [reflexivity|].
  destruct H as (response' & _ & [(_ & _ & [=])|(sleeps' & _ & _ & Hrec)]).
  now apply (IH _ _ _ _ _ Hrec).
Qed.

Section ClientServer.

Variable url_encode : gmap string string -> string.
Variable url_decode : string -> gmap string string.
Variable envs : nat -> Env.
Variable fuel : nat.
Variable srv : Client.server.
Variables browser_id shout_id : string.

(** The token of a nextLink of the job. *)
Let token_of (st : string) : gmap string string :=
  <["browserId" := browser_id]> (<["shoutId" := shout_id]> (<["status" := st]> ∅)).

(** The responses of a poll, with the event each was read from. *)
Lemma poll_loop_found (env : Env) (last_status : string) (n : nat) :
  forall (i : nat) (sleep_seconds : Q) (response : gmap string value)
         (r : Response) (sleeps : list Q),
    response !! "status" = Some (VStr last_status) ->
    poll_loop url_encode env browser_id shout_id last_status n i
      sleep_seconds response = Some (Done r, sleeps) ->
    (exists j top,
        latest (datastore_at env j) (combine_ids browser_id shout_id) = Some top /\
        status_name top = Some "success" /\
        r = {| body := <["result" := of_property (result top)]>
                         (<["status" := VStr "success"]> response);
               code := 200 |}) \/
    (exists j top,
        latest (datastore_at env j) (combine_ids browser_id shout_id) = Some top /\
        status_name top = Some "fatal" /\
        r = {| body := <["error" := of_property (error top)]>
                         (<["status" := VStr "fatal"]> response);
               code := 200 |}) \/
    (exists st response',
        response' !! "status" = Some (VStr st) /\
        response' !! "result" = response !! "result" /\
        r = with_next_link url_encode browser_id shout_id response').
Proof.
  induction n as [|n IH]; intros i sl response r sleeps Hresp; [discriminate|].
  cbn [poll_loop]. rewrite latest_entities_latest.
  assert ((if Qle_bool 45 (clock_at env i - start_timestamp env)
           then Some (Done (with_next_link url_encode browser_id shout_id response),
                      @nil Q)
           else
             match poll_loop url_encode env browser_id shout_id last_status n (S i)
                     (Qmin 5 (sl * 2)) response with
             | Some (r, sleeps) => Some (r, sl :: sleeps)
             | None => None
             end) = Some (Done r, sleeps) ->
          (exists j top,
              latest (datastore_at env j) (combine_ids browser_id shout_id) = Some top /\
              status_name top = Some "success" /\
              r = {| body := <["result" := of_property (result top)]>
                               (<["status" := VStr "success"]> response);
                     code := 200 |}) \/
          (exists j top,
              latest (datastore_at env j) (combine_ids browser_id shout_id) = Some top /\
              status_name top = Some "fatal" /\
              r = {| body := <["error" := of_property (error top)]>
                               (<["status" := VStr "fatal"]> response);
                     code := 200 |}) \/
          (exists st response',
              response' !! "status" = Some (VStr st) /\
              response' !! "result" = response !! "result" /\
              r = with_next_link url_encode browser_id shout_id response')) as Hretry.
  { destruct (Qle_bool _ _).
    - intros [= <- _]. right. right. exists last_status, response. done.
    - destruct (poll_loop _ _ _ _ _ n _ _ response) as [[r' sleeps']|] eqn:Hrec;
        [|discriminate].
      intros [= -> _]. now apply (IH _ _ _ _ _ Hresp Hrec). }
  destruct (latest _ _) as [top|] eqn:Htop; [|apply Hretry].
  destruct (status_name top) as [st|] eqn:Hst; [|discriminate].
  destruct (String.eqb_spec st "success") as [->|Hs].
  { intros [= <- _]. left. eauto. }
  destruct (String.eqb_spec st "fatal") as [->|Hf].
  { intros [= <- _]. right. left. eauto. }
  destruct (String.eqb_spec last_status st) as [<-|Hl]; cbn [negb].
  - rewrite (insert_id response "status" _ Hresp). apply Hretry.
  - intros [= <- _]. right. right. eexists st, _. split; [|split; [|reflexivity]].
    + rewrite lookup_insert_ne by done. apply lookup_insert_eq.
    + rewrite !lookup_insert_ne by done. reflexivity.
Qed.

Hypothesis codec :
  forall st, url_decode (url_encode (token_of st)) = token_of st.
Hypothesis route :
  forall k request,
    srv (S k) "shout_status" request
    = fst <$> shout_status url_encode url_decode (envs (S k)) fuel request.

Ltac lookups :=
  repeat (rewrite lookup_insert_eq || rewrite lookup_insert_ne by done);
  rewrite ?(lookup_empty (M := gmap string)).

(** What the loop of the client makes of the responses of the polls. *)
Lemma follow_poll (n : nat) :
  forall (k : nat) (last_status : string) (r : Response) (sleeps : list Q)
         (kept : value) (errors : list value) (ending : Client.ending),
    poll_shout_status url_encode (envs k) fuel browser_id shout_id last_status
    = Some (Done r, sleeps) ->
    Client.follow srv shout_id n k (body r) kept errors = Some ending ->
    match ending with
    | Client.Returned v =>
        exists k' i top,
          top ∈ datastore_at (envs k') i /\
          combined_shout_id top = combine_ids browser_id shout_id /\
          latest (datastore_at (envs k') i) (combine_ids browser_id shout_id)
          = Some top /\
          status_name top = Some "success" /\
          v = of_property (result top)
    | Client.Failure st _ => st = VStr "fatal"
    | Client.HTTPError c => c = 500
    | _ => False
    end.
Proof.
  induction n as [|n IH]; intros k last r sleeps kept errors ending Hrun;
    unfold poll_shout_status in Hrun;
    apply poll_loop_found in Hrun
      as [(j & top & Htop & Hname & ->)|[(j & top & Htop & Hname & ->)
         |(st & response' & Hst & Hres & ->)]]; try done.
  - cbn [Client.follow body]. lookups.
    change (Client.is_success (VStr "success")) with true. cbv beta iota.
    intros [= <-]. exists k, j, top.
    destruct (latest_Some _ _ _ Htop) as (Hmem & Hjob & _). done.
  - cbn [Client.follow body]. lookups.
    change (Client.is_success (VStr "fatal")) with false. cbv beta iota.
    intros [= <-]. done.
  - cbn [Client.follow with_next_link body]. rewrite lookup_insert_eq. discriminate.
  - cbn [Client.follow body]. lookups.
    change (Client.is_success (VStr "success")) with true. cbv beta iota.
    intros [= <-]. exists k, j, top.
    destruct (latest_Some _ _ _ Htop) as (Hmem & Hjob & _). done.
  - cbn [Client.follow body]. lookups.
    change (Client.is_success (VStr "fatal")) with false. cbv beta iota.
    intros [= <-]. done.
  - cbn [Client.follow with_next_link body]. rewrite lookup_insert_eq.
    unfold Client.urlopen. rewrite route. unfold shout_status. cbn [form].
    rewrite lookup_insert_eq. unfold status_of. rewrite Hst.
    fold (token_of st). rewrite codec. unfold token_of at 1 2 3.
    rewrite lookup_insert_eq.
    rewrite lookup_insert_ne, lookup_insert_eq by done.
    rewrite !lookup_insert_ne, lookup_insert_eq by done.
    destruct (poll_shout_status url_encode (envs (S k)) fuel browser_id shout_id st)
      as [[[r'|e] sleeps']|] eqn:Hnext; cbn [fmap option_fmap option_map fst];
      [| |discriminate].
    + assert (code r' = 200 \/ code r' = 202) as Hcode.
      { unfold poll_shout_status in Hnext.
        apply poll_loop_shapes in Hnext
          as [(? & ->)|[(? & ->)|[(? & ? & _ & _ & _ & ->)| ->]]]; auto. }
      assert ((200 <=? code r') && (code r' <? 300) = true) as ->
        by (destruct Hcode as [-> | ->]; reflexivity).
      intros Hfollow. exact (IH _ _ _ _ _ _ _ Hnext Hfollow).
    + intros [= <-].
      unfold poll_shout_status in Hnext.
      apply poll_loop_raises_IndexError in Hnext as ->. reflexivity.
Qed.

(** X18.  The client of api_test.py against the server.  When the first
    request is served by [shout], which logs the job, and the later ones by
    [shout_status], and url_decode inverts url_encode on the tokens of the
    job, then [BrowserState.shout] can end in three ways only: it returns
    the result of an event that the datastore held under the key of this
    very job and that a poll found with the status name success; or it
    raises [Failure] with the status fatal; or a request fails with HTTP
    status 500. *)
Theorem client_returns_logged_result (n : nat) (target token text : string)
    (sys : Sys) (w : World) (ending : Client.ending) :
  srv 0%nat target
    {| form := <["token" := token]> (<["text" := text]> (<["shoutId" := shout_id]> ∅));
       args := ∅ |}
  = (fun x => x.1.1) <$>
      shout url_encode url_decode (envs 0) fuel sys
        {| form := <["token" := token]>
                   (<["text" := text]> (<["shoutId" := shout_id]> ∅));
           args := ∅ |} w ->
  (shout_submit url_encode url_decode sys
     {| form := <["token" := token]> (<["text" := text]> (<["shoutId" := shout_id]> ∅));
        args := ∅ |} w).1 = Done (browser_id, shout_id) ->
  Client.shout srv n target token text shout_id = Some ending ->
  match ending with
  | Client.Returned v =>
      exists k i top,
        top ∈ datastore_at (envs k) i /\
        combined_shout_id top = combine_ids browser_id shout_id /\
        latest (datastore_at (envs k) i) (combine_ids browser_id shout_id)
        = Some top /\
        status_name top = Some "success" /\
        v = of_property (result top)
  | Client.Failure st _ => st = VStr "fatal"
  | Client.HTTPError c => c = 500
  | _ => False
  end.
Proof.
  intros Hfirst Hsub. unfold Client.shout, Client.urlopen. rewrite Hfirst.
  unfold shout.
  destruct (shout_submit _ _ _ _ _) as [[[b s]|e] w'] eqn:Hs; [|discriminate].
  injection Hsub as -> ->.
  destruct (poll_shout_status url_encode (envs 0) fuel browser_id shout_id "new")
    as [[[r|e] sleeps]|] eqn:Hpoll; cbn [fmap option_fmap option_map fst];
    [| |discriminate].
  - assert (code r = 200 \/ code r = 202) as Hcode.
    { unfold poll_shout_status in Hpoll.
      apply poll_loop_shapes in Hpoll
        as [(? & ->)|[(? & ->)|[(? & ? & _ & _ & _ & ->)| ->]]]; auto. }
    assert ((200 <=? code r) && (code r <? 300) = true) as ->
      by (destruct Hcode as [-> | ->]; reflexivity).
    apply (follow_poll n 0 "new" r sleeps). exact Hpoll.
  - intros [= <-]. unfold poll_shout_status in Hpoll.
    apply poll_loop_raises_IndexError in Hpoll as ->. reflexivity.
Qed.

End ClientServer.

Lemma client_returns_logged_result_witness :
  (shout_submit SampleClient.url_encode SampleClient.url_decode SampleCallback.sys
     SampleClient.first SampleCallback.world).1 = Done ("B", "9") /\
  Client.shout SampleClient.srv 5 "shout" "new" "hello" "9"
  = Some (Client.Returned (VStr "HELLO")) /\
  exists k i top,
    top ∈ datastore_at (SampleClient.envs k) i /\
    combined_shout_id top = combine_ids "B" "9" /\
    latest (datastore_at (SampleClient.envs k) i) (combine_ids "B" "9") = Some top /\
    status_name top = Some "success" /\
    VStr "HELLO" = of_property (result top).
Proof.
  split; [reflexivity|]. split; [reflexivity|].
  apply (client_returns_logged_result SampleClient.url_encode SampleClient.url_decode
           SampleClient.envs 20 SampleClient.srv "B" "9"
           (fun st => eq_refl) (fun k request => eq_refl)
           5 "shout" "new" "hello" SampleCallback.sys SampleCallback.world
           (Client.Returned (VStr "HELLO"))); reflexivity.
Defined.

(** ** init *)

(** X19.  [init] sets up the purse whatever Pub/Sub answers: after it the
    purse holds the record it held before or, if it had none, one fresh id
    of [new_random_id], and the log and the messages are untouched.  It
    answers 200 exactly when neither Pub/Sub call raised, and otherwise 500
    with one entry for each call that raised; and a second [init] leaves the
    tokens of the first in place. *)
Theorem init_sets_up_the_purse (answers answers' : PubSubAnswers)
    (draw draw' : nat -> nat) (w : World) :
  exists id,
    new_random_id draw RANDOM_ID_LEN = Some id /\
    purse_record (init answers draw w).2 = Some (default [id] (purse_record w)) /\
    datastore (init answers draw w).2 = datastore w /\
    outbox (init answers draw w).2 = outbox w /\
    ((init answers draw w).1.2 = 200
     <-> create_topic_raises answers = None /\ subscribe_raises answers = None) /\
    ((init answers draw w).1.2 = 500
     <-> is_Some (create_topic_raises answers) \/ is_Some (subscribe_raises answers)) /\
    (init answers draw w).1.1
    = from_option (fun e => [e]) [] (create_topic_raises answers)
      ++ from_option (fun e => [e]) [] (subscribe_raises answers) /\
    purse_record (init answers' draw' (init answers draw w).2).2
    = purse_record (init answers draw w).2.
Proof.
  destruct (new_random_id_any_length draw RANDOM_ID_LEN) as (id & Hid & _).
  destruct (new_random_id_any_length draw' RANDOM_ID_LEN) as (id' & Hid' & _).
  exists id. split; [done|].
  assert (forall a d i v, new_random_id d RANDOM_ID_LEN = Some i ->
                          purse_record (init a d v).2
                          = Some (default [i] (purse_record v))) as Hpurse.
  { intros a d i v Hd. unfold init. rewrite Hd.
    destruct (create_topic_raises a), (subscribe_raises a);
      cbn; now destruct (purse_record v). }
  split; [now apply Hpurse|].
  split; [unfold init; rewrite Hid;
          destruct (create_topic_raises answers), (subscribe_raises answers); done|].
  split; [unfold init; rewrite Hid;
          destruct (create_topic_raises answers), (subscribe_raises answers); done|].
  split; [|split; [|split]].
  - unfold init. rewrite Hid.
    destruct (create_topic_raises answers), (subscribe_raises answers); cbn;
      split; try done; intros [? ?]; done.
  - unfold init. rewrite Hid.
    destruct (create_topic_raises answers), (subscribe_raises answers); cbn;
      split; eauto; try done; intros [[? ?]|[? ?]]; done.
  - unfold init. rewrite Hid.
    destruct (create_topic_raises answers), (subscribe_raises answers); done.
  - rewrite (Hpurse answers' draw' id' _ Hid'), (Hpurse answers draw id w Hid). done.
Qed.

(** ** The paths of Pub/Sub *)

Lemma append_cancel_l (p a b : string) :
  (p ++ a)%string = (p ++ b)%string -> a = b.
Proof.
  induction p as [|c p IH]; rewrite ?append_String, ?append_Empty; [done|].
  intros [= H]. now apply IH.
Qed.

(** X20.  Within a project, the path of a topic determines the topic, the
    path of a subscription determines the subscription, and no topic has the
    path of a subscription. *)
Theorem pubsub_paths_distinct (project_name : string) :
  (forall t1 t2,
      PubSub._make_topic_path project_name t1
      = PubSub._make_topic_path project_name t2 -> t1 = t2) /\
  (forall s1 s2,
      PubSub._make_subscription_path project_name s1
      = PubSub._make_subscription_path project_name s2 -> s1 = s2) /\
  (forall t s,
      PubSub._make_topic_path project_name t
      <> PubSub._make_subscription_path project_name s).
Proof.
  unfold PubSub._make_topic_path, PubSub._make_subscription_path.
  split; [|split].
  - intros t1 t2 H. do 3 apply append_cancel_l in H. done.
  - intros s1 s2 H. do 3 apply append_cancel_l in H. done.
  - intros t s H. do 2 apply append_cancel_l in H. discriminate H.
Qed.

(** ** One job among others *)

(** X21.  A poll sees only the events of its own job: two runs with the
    same clock readings, against datastores that hold the same events of the
    job at each query and differ in the events of other jobs only, return
    the same response after the same sleeps. *)
Theorem poll_sees_only_its_job url_encode (env env' : Env) (fuel : nat)
    (browser_id shout_id last_status : string) :
  start_timestamp env = start_timestamp env' ->
  (forall i, clock_at env i = clock_at env' i) ->
  (forall i, Query.filter_shout_id (combine_ids browser_id shout_id) (datastore_at env i)
             = Query.filter_shout_id (combine_ids browser_id shout_id)
                 (datastore_at env' i)) ->
  poll_shout_status url_encode env fuel browser_id shout_id last_status
  = poll_shout_status url_encode env' fuel browser_id shout_id last_status.
Proof.
  intros Hstart Hclock Hjob. unfold poll_shout_status.
  generalize (<["shoutId" := VStr shout_id]>
              (<["status" := VStr last_status]> (∅ : gmap string value))).
  generalize (1 # 10)%Q. generalize 0%nat.
  induction fuel as [|fuel IH]; intros i sl response; [done|].
  cbn [poll_loop]. unfold latest_entities.
  rewrite Hjob, Hstart, Hclock.
  destruct (Query.fetch 1 _) as [|top rest].
  - now rewrite IH.
  - destruct (status_name top) as [st|]; [|done].
    rewrite !IH. reflexivity.
Qed.

Lemma poll_sees_only_its_job_witness :
  (forall i, Query.filter_shout_id (combine_ids "B" "9")
               (datastore_at SampleReport.env i)
             = Query.filter_shout_id (combine_ids "B" "9")
                 (datastore_at SampleReport.env_alone i)) /\
  poll_shout_status SamplePoll.url_encode SampleReport.env 3 "B" "9" "new"
  = poll_shout_status SamplePoll.url_encode SampleReport.env_alone 3 "B" "9" "new".
Proof.
  assert (forall i, Query.filter_shout_id (combine_ids "B" "9")
                      (datastore_at SampleReport.env i)
                    = Query.filter_shout_id (combine_ids "B" "9")
                        (datastore_at SampleReport.env_alone i)) as H
    by (intros i; reflexivity).
  split; [exact H|].
  apply (poll_sees_only_its_job SamplePoll.url_encode SampleReport.env
           SampleReport.env_alone 3 "B" "9" "new" eq_refl (fun i => eq_refl) H).
Defined.

(** ** purge and the jobs in progress *)

Lemma purge_datastore_young (sys : Sys) (w : World) :
  NoDup (key_id <$> datastore w) ->
  datastore (purge sys w).2
  = filter (fun e => utcnow sys - one_day <= timestamp e) (datastore w).
Proof.
  intros Hkeys. unfold purge. cbn [snd datastore]. rewrite foldl_delete_key.
  apply filter_ext_elem. intros e He. split.
  - intros Hkey. destruct (Z.le_gt_cases (utcnow sys - one_day) (timestamp e))
      as [|Hold]; [done|].
    exfalso. apply Hkey, list_elem_of_fmap_2, list_elem_of_filter. now split.
  - intros Hy (e' & Heq & [Hold' He']%list_elem_of_filter)%list_elem_of_fmap.
    assert (e = e') as <- by now apply (LatestFacts.fmap_inj_on key_id (datastore w)).
    lia.
Qed.

(** X22.  [purge] does not disturb a job in progress: when the keys of the
    entities are distinct and every event of a job is at most one day old,
    the lookup of the poll loop returns for that job after the purge what it
    returned before. *)
Theorem purge_spares_young_jobs (sys : Sys) (w : World) (key : string) :
  NoDup (key_id <$> datastore w) ->
  (forall e, e ∈ datastore w -> combined_shout_id e = key ->
             utcnow sys - one_day <= timestamp e) ->
  latest (datastore (purge sys w).2) key = latest (datastore w) key.
Proof.
  intros Hkeys Hyoung. rewrite purge_datastore_young by done.
  rewrite !latest_head. f_equal. f_equal.
  unfold Query.filter_shout_id. rewrite list_filter_filter.
  apply filter_ext_elem. intros e He. split; [tauto|].
  intros Hk. split; [done|]. now apply Hyoung.
Qed.

Lemma purge_spares_young_jobs_witness :
  NoDup (key_id <$> datastore SampleReport.world) /\
  latest (datastore (purge SampleCallback.sys SampleReport.world).2) "B-9"
  = latest (datastore SampleReport.world) "B-9".
Proof.
  assert (NoDup (key_id <$> datastore SampleReport.world)) as H.
  { apply (bool_decide_unpack _). vm_compute. exact I. }
  split; [exact H|].
  apply (purge_spares_young_jobs SampleCallback.sys SampleReport.world "B-9" H).
  intros e He _. cbn in He.
  repeat (apply elem_of_cons in He as [->|He]; [vm_compute; discriminate|]).
  now apply not_elem_of_nil in He.
Defined.

(** ** From the callback to the poll *)

(** X23.  What the worker reports is what the browser gets.  After a
    callback with a valid token that describes an event of a status higher
    than every earlier event of the job, with indexed strings within ndb's
    1500 bytes, the lookup of a poll that sees the datastore returns that
    very event; and unless the status is non-terminal and equal
    to the last known one, the poll returns at its first iteration, without
    a sleep, with the name of the reported status: 200 with the reported
    text as result for SUCCESS, 200 with it as error for FATAL, and
    otherwise 202 with the error field holding the text for ERROR and null
    for NEW and SHOUTING. *)
Theorem reported_status_reaches_the_poll url_encode (sys : Sys) (callback : Request)
    (w : World) (tokens : list string) (browser_id shout_id last_status : string)
    (st : Status.t) (env : Env) (fuel : nat) :
  purse_record w = Some tokens ->
  presented_in callback tokens ->
  describes callback browser_id shout_id st ->
  indexable (described_event (new_id sys) (utcnow sys) browser_id shout_id st
               (form callback !! "result") (form callback !! "host")) ->
  (forall e, e ∈ datastore w ->
             combined_shout_id e = combine_ids browser_id shout_id ->
             String.ltb (status e) (Status.encode st) = true) ->
  datastore_at env 0 = datastore (post_shout_status sys callback w).2 ->
  latest (datastore_at env 0) (combine_ids browser_id shout_id)
  = Some (described_event (new_id sys) (utcnow sys) browser_id shout_id st
            (form callback !! "result") (form callback !! "host")) /\
  (st = Status.SUCCESS \/ st = Status.FATAL \/ Status.name st <> last_status ->
   exists r,
     poll_shout_status url_encode env (S fuel) browser_id shout_id last_status
     = Some (Done r, []) /\
     body r !! "status" = Some (VStr (Status.name st)) /\
     body r !! "result"
     = match st with
       | Status.SUCCESS => Some (of_property (form callback !! "result"))
       | _ => None
       end /\
     body r !! "error"
     = match st with
       | Status.SUCCESS => None
       | Status.ERROR | Status.FATAL => Some (of_property (form callback !! "result"))
       | _ => Some VNone
       end /\
     code r = match st with Status.SUCCESS | Status.FATAL => 200 | _ => 202 end /\
     (is_Some (body r !! "nextLink") <-> st <> Status.SUCCESS /\ st <> Status.FATAL)).
Proof.
  intros Hp Hin Hdesc Hfit Hlower Henv.
  rewrite (post_shout_status_accepts sys callback w tokens browser_id shout_id st
             Hp Hin Hdesc Hfit) in Henv. cbn [snd datastore] in Henv.
  set (e := described_event (new_id sys) (utcnow sys) browser_id shout_id st
              (form callback !! "result") (form callback !! "host")) in *.
  assert (latest (datastore_at env 0) (combine_ids browser_id shout_id) = Some e)
    as Hlatest.
  { rewrite Henv.
    destruct (latest_is_Some (datastore w ++ [e]) (combine_ids browser_id shout_id) e)
      as [top Htop]; [apply elem_of_app; right; left|done|].
    rewrite Htop. f_equal.
    destruct (latest_Some _ _ _ Htop) as (Hmem & Hk & _).
    apply elem_of_app in Hmem as [Hold|Hnew%list_elem_of_singleton]; [|done].
    exfalso.
    pose proof (latest_highest _ _ _ e Htop) as Hle.
    apply StrOrder.leb_ltb_false in Hle; [|apply elem_of_app; right; left|done].
    specialize (Hlower top Hold Hk). cbn [status e described_event] in Hle.
    unfold e in Hle. cbn [status described_event] in Hle. congruence. }
  split; [exact Hlatest|].
  intros Hnews. unfold poll_shout_status. cbn [poll_loop].
  rewrite latest_entities_latest, Hlatest.
  assert (status_name e = Some (Status.name st)) as -> by (now destruct st).
  destruct st; cbn [Status.name String.eqb Ascii.eqb Bool.eqb negb].
  - destruct (String.eqb_spec last_status "new") as [->|_];
      [destruct Hnews as [|[|]]; done|].
    eexists. split; [reflexivity|]. cbn [with_next_link body code].
    repeat split; try done; try (intros; split; discriminate); eauto.
  - destruct (String.eqb_spec last_status "shouting") as [->|_];
      [destruct Hnews as [|[|]]; done|].
    eexists. split; [reflexivity|]. cbn [with_next_link body code].
    repeat split; try done; try (intros; split; discriminate); eauto.
  - destruct (String.eqb_spec last_status "error") as [->|_];
      [destruct Hnews as [|[|]]; done|].
    eexists. split; [reflexivity|]. cbn [with_next_link body code].
    repeat split; try done; try (intros; split; discriminate); eauto.
  - eexists. split; [reflexivity|]. cbn [body code].
    repeat (split; [done|]).
    split; [intros [? Hx]; discriminate Hx|intros [Hx Hy]; done].
  - eexists. split; [reflexivity|]. cbn [body code].
    repeat (split; [done|]).
    split; [intros [? Hx]; discriminate Hx|intros [Hx Hy]; done].
Qed.

Lemma reported_status_reaches_the_poll_witness :
  purse_record SampleReport.world = Some ["t3"; "t2"; "t1"] /\
  indexable (described_event (new_id SampleCallback.sys) (utcnow SampleCallback.sys)
               "B" "9" Status.SUCCESS (form SampleReport.callback !! "result")
               (form SampleReport.callback !! "host")) /\
  exists r,
    poll_shout_status SamplePoll.url_encode SampleReport.env 1 "B" "9" "shouting"
    = Some (Done r, []) /\
    body r !! "status" = Some (VStr "success") /\
    body r !! "result" = Some (VStr "HELLO").
Proof.
  assert (indexable
            (described_event (new_id SampleCallback.sys) (utcnow SampleCallback.sys)
               "B" "9" Status.SUCCESS (form SampleReport.callback !! "result")
               (form SampleReport.callback !! "host"))) as Hfit by within_limits.
  split; [reflexivity|]. split; [exact Hfit|].
  destruct (reported_status_reaches_the_poll SamplePoll.url_encode SampleCallback.sys
              SampleReport.callback SampleReport.world ["t3"; "t2"; "t1"]
              "B" "9" "shouting" Status.SUCCESS SampleReport.env 0)
    as [_ Hpoll].
  - reflexivity.
  - exists "t2". split; [reflexivity|]. repeat constructor.
  - repeat split.
  - exact Hfit.
  - intros e He Hk. cbn in He.
    repeat (apply elem_of_cons in He as [->|He]; [try reflexivity; discriminate Hk|]).
    now apply not_elem_of_nil in He.
  - reflexivity.
  - destruct Hpoll as (r & Hrun & Hst & Hres & _); [now left|].
    exists r. split; [exact Hrun|]. split; [exact Hst|exact Hres].
Defined.

(** ** The client ends *)

Section ClientEnds.

Variable url_encode : gmap string string -> string.
Variable url_decode : string -> gmap string string.
Variable envs : nat -> Env.
Variable fuel : nat.
Variable srv : Client.server.
Variables browser_id shout_id : string.
Variable done_at : nat.

Hypothesis codec :
  forall st,
    url_decode (url_encode (<["browserId" := browser_id]>
                            (<["shoutId" := shout_id]> (<["status" := st]> ∅))))
    = <["browserId" := browser_id]> (<["shoutId" := shout_id]> (<["status" := st]> ∅)).
Hypothesis route :
  forall k request,
    srv (S k) "shout_status" request
    = fst <$> shout_status url_encode url_decode (envs (S k)) fuel request.
Hypothesis clocks : forall k, clock_respects_sleeps (envs k).
Hypothesis valid :
  forall k i e, e ∈ datastore_at (envs k) i -> status e ∈ STATUSES.
Hypothesis enough : (15 <= fuel)%nat.
Hypothesis terminal_from :
  forall k, (done_at <= k)%nat ->
    exists x, x ∈ datastore_at (envs k) 0 /\
              combined_shout_id x = combine_ids browser_id shout_id /\
              (status x = "e-success" \/ status x = "d-fatal").

Ltac lookups :=
  repeat (rewrite lookup_insert_eq || rewrite lookup_insert_ne by done);
  rewrite ?(lookup_empty (M := gmap string)).

Lemma poll_Done (k : nat) (last_status : string) :
  exists r sleeps,
    poll_shout_status url_encode (envs k) fuel browser_id shout_id last_status
    = Some (Done r, sleeps) /\
    (code r = 200 \/ code r = 202).
Proof.
  destruct (poll_returns url_encode (envs k) browser_id shout_id last_status fuel
              (clocks k) enough) as ([r|e] & sleeps & Hrun).
  - exists r, sleeps. split; [done|]. unfold poll_shout_status in Hrun.
    apply poll_loop_shapes in Hrun
      as [(top & ->)|[(top & ->)|[(top & st & _ & _ & _ & ->)| ->]]]; auto.
  - exfalso. unfold poll_shout_status in Hrun.
    apply poll_loop_Raise in Hrun as (j & top & Htop & Hname).
    destruct (status_name_valid top) as [name Hn]; [|congruence].
    apply (valid k j). now apply (latest_Some _ _ _ Htop).
Qed.

(** From [done_at] on, a poll answers without a nextLink. *)
Lemma poll_terminal (k : nat) (last_status : string) (r : Response) (sleeps : list Q) :
  (done_at <= k)%nat ->
  poll_shout_status url_encode (envs k) fuel browser_id shout_id last_status
  = Some (Done r, sleeps) ->
  body r !! "nextLink" = None.
Proof.
  intros Hk Hrun. destruct (terminal_from k Hk) as (x & Hx & Hkey & Hterm).
  destruct (latest_terminal browser_id shout_id _ x (valid k 0%nat) Hx Hkey Hterm)
    as (top & Htop & _ & Hst & _).
  destruct fuel as [|fuel']; [lia|].
  unfold poll_shout_status in Hrun. cbn [poll_loop] in Hrun.
  rewrite latest_entities_latest, Htop in Hrun.
  destruct Hst as [Hst|Hst].
  - rewrite (status_name_success top Hst) in Hrun.
    cbn [String.eqb Ascii.eqb Bool.eqb] in Hrun. injection Hrun as <- _. done.
  - rewrite (status_name_fatal top Hst) in Hrun.
    cbn [String.eqb Ascii.eqb Bool.eqb] in Hrun. injection Hrun as <- _. done.
Qed.

Lemma follow_ends (n : nat) :
  forall (k : nat) (last_status : string) (r : Response) (sleeps : list Q)
         (kept : value) (errors : list value),
    poll_shout_status url_encode (envs k) fuel browser_id shout_id last_status
    = Some (Done r, sleeps) ->
    (done_at < k + n)%nat ->
    exists ending,
      Client.follow srv shout_id n k (body r) kept errors = Some ending /\
      ((exists v, ending = Client.Returned v) \/
       (exists errs, ending = Client.Failure (VStr "fatal") errs)).
Proof.
  induction n as [|n IH]; intros k last r sleeps kept errors Hrun Hbudget.
  - pose proof (poll_terminal k last r sleeps ltac:(lia) Hrun) as Hnone.
    unfold poll_shout_status in Hrun.
    apply (poll_loop_found url_encode browser_id shout_id) in Hrun
      as [(j & top & Htop & Hname & ->)|[(j & top & Htop & Hname & ->)
         |(st & response' & Hst & Hres & ->)]]; [| | |done].
    + cbn [Client.follow body]. lookups.
      change (Client.is_success (VStr "success")) with true. cbv beta iota. eauto.
    + cbn [Client.follow body]. lookups.
      change (Client.is_success (VStr "fatal")) with false. cbv beta iota. eauto.
    + exfalso. cbn [with_next_link body] in Hnone.
      now rewrite lookup_insert_eq in Hnone.
  - pose proof Hrun as Hrun'. unfold poll_shout_status in Hrun.
    apply (poll_loop_found url_encode browser_id shout_id) in Hrun
      as [(j & top & Htop & Hname & ->)|[(j & top & Htop & Hname & ->)
         |(st & response' & Hst & Hres & ->)]]; [| | |done].
    + cbn [Client.follow body]. lookups.
      change (Client.is_success (VStr "success")) with true. cbv beta iota. eauto.
    + cbn [Client.follow body]. lookups.
      change (Client.is_success (VStr "fatal")) with false. cbv beta iota. eauto.
    + cbn [Client.follow with_next_link body]. rewrite lookup_insert_eq.
      unfold Client.urlopen. rewrite route. unfold shout_status. cbn [form].
      rewrite lookup_insert_eq. unfold status_of. rewrite Hst, codec.
      rewrite lookup_insert_eq.
      rewrite lookup_insert_ne, lookup_insert_eq by done.
      rewrite !lookup_insert_ne, lookup_insert_eq by done.
      destruct (poll_Done (S k) st) as (r' & sleeps' & Hnext & Hcode).
      rewrite Hnext. cbn [fmap option_fmap option_map fst].
      assert ((200 <=? code r') && (code r' <? 300) = true) as ->
        by (destruct Hcode as [-> | ->]; reflexivity).
      apply (IH (S k) st r' sleeps'); [exact Hnext|lia].
Qed.

(** X24.  The client ends once the job is terminal.  Let every poll meet a
    clock that advances by at least each sleep and statuses of [STATUSES],
    with fifteen iterations or more, and let each poll from the request
    numbered [done_at] on find a SUCCESS or FATAL event of the job at its
    first query.  Then [BrowserState.shout], allowed more than [done_at]
    further requests, ends: it returns a result, or raises [Failure] with
    the status fatal. *)
Theorem client_ends_once_job_is_terminal (n : nat) (target token text : string)
    (sys : Sys) (w : World) :
  srv 0%nat target
    {| form := <["token" := token]> (<["text" := text]> (<["shoutId" := shout_id]> ∅));
       args := ∅ |}
  = (fun x => x.1.1) <$>
      shout url_encode url_decode (envs 0) fuel sys
        {| form := <["token" := token]>
                   (<["text" := text]> (<["shoutId" := shout_id]> ∅));
           args := ∅ |} w ->
  (shout_submit url_encode url_decode sys
     {| form := <["token" := token]> (<["text" := text]> (<["shoutId" := shout_id]> ∅));
        args := ∅ |} w).1 = Done (browser_id, shout_id) ->
  (done_at < n)%nat ->
  exists ending,
    Client.shout srv n target token text shout_id = Some ending /\
    ((exists v, ending = Client.Returned v) \/
     (exists errs, ending = Client.Failure (VStr "fatal") errs)).
Proof.
  intros Hfirst Hsub Hn. unfold Client.shout, Client.urlopen. rewrite Hfirst.
  unfold shout.
  destruct (shout_submit _ _ _ _ _) as [[[b s]|e] w'] eqn:Hs; [|discriminate].
  injection Hsub as -> ->.
  destruct (poll_Done 0 "new") as (r & sleeps & Hpoll & Hcode).
  rewrite Hpoll. cbn [fmap option_fmap option_map fst].
  assert ((200 <=? code r) && (code r <? 300) = true) as ->
    by (destruct Hcode as [-> | ->]; reflexivity).
  apply (follow_ends n 0 "new" r sleeps); [exact Hpoll|lia].
Qed.

End ClientEnds.

Lemma sample_client_clocks (k : nat) : clock_respects_sleeps (SampleClient.envs k).
Proof.
  assert (forall base i,
             (inject_Z (base + 6 * Z.of_nat i) + backoff i
              <= inject_Z (base + 6 * Z.of_nat (S i)))%Q) as Hstep.
  { intros base i. rewrite Nat2Z.inj_succ.
    replace (base + 6 * Z.succ (Z.of_nat i)) with (base + 6 * Z.of_nat i + 6) by lia.
    rewrite (inject_Z_plus (base + 6 * Z.of_nat i) 6). pose proof (backoff_le_5 i).
    change (inject_Z 6) with 6%Q. lra. }
  destruct k as [|[|k]]; (split; [vm_compute; discriminate|]); intros i;
    cbn [clock_at SampleClient.envs].
  - apply (Hstep 0%Z).
  - apply (Hstep 100%Z).
  - apply (Hstep 200%Z).
Qed.

Lemma sample_client_valid (k i : nat) (e : ShoutStatusLog) :
  e ∈ datastore_at (SampleClient.envs k) i -> status e ∈ STATUSES.
Proof.
  assert (forall x, x ∈ [SampleChange.new_b9; SampleChange.shouting; SampleClient.success]
                    -> status x ∈ STATUSES) as Hall.
  { intros x Hx. repeat (apply elem_of_cons in Hx as [->|Hx]);
      [| | |now apply elem_of_nil in Hx];
      apply (bool_decide_unpack _); vm_compute; reflexivity. }
  destruct k as [|[|k]]; cbn [datastore_at SampleClient.envs]; intros He; apply Hall.
  - apply elem_of_cons in He as [->|He]; [|now apply elem_of_nil in He].
    repeat constructor.
  - destruct (i <? 2)%nat;
      repeat (apply elem_of_cons in He as [->|He]);
      try (now apply elem_of_nil in He); repeat constructor.
  - exact He.
Qed.

Lemma sample_client_terminal (k : nat) :
  (2 <= k)%nat ->
  exists x, x ∈ datastore_at (SampleClient.envs k) 0 /\
            combined_shout_id x = combine_ids "B" "9" /\
            (status x = "e-success" \/ status x = "d-fatal").
Proof.
  intros Hk. destruct k as [|[|k]]; [lia|lia|].
  exists SampleClient.success. cbn [datastore_at SampleClient.envs].
  split; [repeat constructor|]. split; [reflexivity|]. left. reflexivity.
Qed.

Lemma client_ends_once_job_is_terminal_witness :
  (shout_submit SampleClient.url_encode SampleClient.url_decode SampleCallback.sys
     SampleClient.first SampleCallback.world).1 = Done ("B", "9") /\
  exists ending,
    Client.shout SampleClient.srv 5 "shout" "new" "hello" "9" = Some ending /\
    ((exists v, ending = Client.Returned v) \/
     (exists errs, ending = Client.Failure (VStr "fatal") errs)).
Proof.
  split; [reflexivity|].
  apply (client_ends_once_job_is_terminal
           SampleClient.url_encode SampleClient.url_decode
           SampleClient.envs 20 SampleClient.srv "B" "9" 2
           (fun st => eq_refl) (fun k request => eq_refl)
           sample_client_clocks sample_client_valid ltac:(lia)
           sample_client_terminal
           5 "shout" "new" "hello" SampleCallback.sys SampleCallback.world);
    [reflexivity|reflexivity|lia].
Defined.
